(** * postgresql-ha-dr: the monitoring API's handlers, embedded and verified

    The development follows [src/api/app]: the backup-status endpoint
    ([routers/backups.py]), the metrics endpoint ([routers/metrics.py]), the
    readiness probe ([routers/health.py]) and the items resource
    ([routers/items.py]), with the response models of [models/schemas.py],
    and the connection pool of [db/connection.py] with the lifespan of
    [main.py].

    Every handler is a function of the outcome of its external calls (the
    subprocess, the JSON decoder, the database), which are gathered in an
    environment record; Python exceptions are an explicit error result. *)

From Stdlib Require Import ZArith String Ascii List Bool Lia.
From Stdlib Require Import Floats.SpecFloat.
From Stdlib Require QArith Qabs Qpower Lqa.
From stdpp Require Import base option list gmap strings sorting.

Local Open Scope string_scope.
Local Open Scope Z_scope.
Set Warnings "-register-all".

(** ** Python values, exceptions and the operations the handlers use *)

Module Py.

(** Exceptions as far as the handlers tell them apart.  [TimestampError] is
    whatever [datetime.fromtimestamp] raises on a number it cannot convert
    (ValueError, OverflowError or OSError by magnitude), [ValidationError]
    is pydantic's, [OtherError] any other exception class, by name. *)
Inductive exn : Type :=
| TimeoutExpired
| FileNotFoundError
| JSONDecodeError (msg : string)
| TypeError
| AttributeError
| KeyError
| IndexError
| ZeroDivisionError
| OverflowError
| TimestampError
| ValidationError
| OtherError (name : string).

(** The result of evaluating Python code that may raise. *)
Inductive result (A : Type) : Type :=
| Return (a : A)
| Raise (e : exn).
Arguments Return {A} a.
Arguments Raise {A} e.

Definition bind {A B : Type} (c : result A) (k : A -> result B) : result B :=
  match c with
  | Return a => k a
  | Raise e => Raise e
  end.

Notation "'do' x <- c ; k" := (bind c (fun x => k))
  (at level 10, x name, c at level 100, k at level 200).
Notation "'do' ' p <- c ; k" := (bind c (fun x => match x with p => k end))
  (at level 10, p pattern, c at level 100, k at level 200).

(** A Python float is an IEEE 754 binary64 number. *)
Definition float : Type := spec_float.
Definition prec : Z := 53.
Definition emax : Z := 1024.

(** What [json.loads] can return: None, bool, int, float, str, list, dict.
    A dict keeps its items in insertion order; [json.loads] never repeats a
    key, and lookup takes the first binding. *)
Inductive value : Type :=
| PyNone
| PyBool (b : bool)
| PyInt (n : Z)
| PyFloat (f : float)
| PyStr (s : string)
| PyList (l : list value)
| PyDict (items : list (string * value)).

(** [bool(v)]: None, False, zero, and the empty str, list and dict are
    falsy. *)
Definition float_is_zero (f : float) : bool :=
  match f with
  | S754_zero _ => true
  | _ => false
  end.

Definition truthy (v : value) : bool :=
  match v with
  | PyNone => false
  | PyBool b => b
  | PyInt n => negb (n =? 0)
  | PyFloat f => negb (float_is_zero f)
  | PyStr s => negb (String.eqb s "")
  | PyList l => match l with [] => false | _ => true end
  | PyDict d => match d with [] => false | _ => true end
  end.

(** [f == k] for a float and an int compares the exact values. *)
Definition float_eq_int (f : float) (k : Z) : bool :=
  match f with
  | S754_zero _ => k =? 0
  | S754_finite s m e =>
      let k' := if s then - k else k in
      if 0 <=? e then Z.pos m * 2 ^ e =? k' else Z.pos m =? k' * 2 ^ (- e)
  | _ => false
  end.

(** [v == k] for an int literal [k]: bool is a subclass of int, a float is
    compared by value, any other value is unequal. *)
Definition eq_int (v : value) (k : Z) : bool :=
  match v with
  | PyBool b => (if b then 1 else 0) =? k
  | PyInt n => n =? k
  | PyFloat f => float_eq_int f k
  | _ => false
  end.

Fixpoint dict_lookup (k : string) (d : list (string * value)) : option value :=
  match d with
  | [] => None
  | (k', v) :: d' => if String.eqb k k' then Some v else dict_lookup k d'
  end.

(** [v.get(k, default)]: of the JSON types only dict has the method. *)
Definition get (v : value) (k : string) (default : value) : result value :=
  match v with
  | PyDict d => Return (match dict_lookup k d with Some x => x | None => default end)
  | _ => Raise AttributeError
  end.

(** [v[0]]: the first element of a list, the first character of a str, the
    item under the key [0] of a dict (a JSON object has str keys only). *)
Definition getitem0 (v : value) : result value :=
  match v with
  | PyList (x :: _) => Return x
  | PyList [] => Raise IndexError
  | PyStr (String c _) => Return (PyStr (String c ""))
  | PyStr EmptyString => Raise IndexError
  | PyDict _ => Raise KeyError
  | _ => Raise TypeError
  end.

(** [for x in v]: a list yields its elements, a dict its keys, a str its
    characters; the other JSON types are not iterable. *)
Definition iter (v : value) : result (list value) :=
  match v with
  | PyList l => Return l
  | PyDict d => Return (map (fun kv => PyStr (fst kv)) d)
  | PyStr s => Return (map (fun c => PyStr (String c "")) (list_ascii_of_string s))
  | _ => Raise TypeError
  end.

(** [str.isspace] on the characters a [string] holds (code points below
    256): the ASCII controls 9-13 and 28-31, the space, NEL and NBSP. *)
Definition isspace (c : ascii) : bool :=
  let n := Z.of_nat (nat_of_ascii c) in
  ((9 <=? n) && (n <=? 13)) || ((28 <=? n) && (n <=? 32))
  || (n =? 133) || (n =? 160).

Fixpoint lstrip (s : string) : string :=
  match s with
  | String c s' => if isspace c then lstrip s' else s
  | EmptyString => EmptyString
  end.

Fixpoint rstrip (s : string) : string :=
  match s with
  | String c s' =>
      match rstrip s' with
      | EmptyString => if isspace c then EmptyString else String c EmptyString
      | r => String c r
      end
  | EmptyString => EmptyString
  end.

(** [s.strip()] *)
Definition strip (s : string) : string := rstrip (lstrip s).

(** [a or b] on str *)
Definition str_or (a b : string) : string :=
  if String.eqb a "" then b else a.

(** [a or b] where [a] is an int or None (a nullable database cell) *)
Definition int_or (a : option Z) (b : Z) : Z :=
  match a with
  | Some n => if n =? 0 then b else n
  | None => b
  end.

(** *** Float arithmetic *)

(** [float(n)], correctly rounded. *)
Definition float_of_int (n : Z) : float := binary_normalize prec emax n 0 false.

(** [a / b] on ints: the quotient correctly rounded to a float, signed zero
    when [a] is zero; [ZeroDivisionError] when [b] is zero and
    [OverflowError] when the quotient is beyond the floats. *)
Definition truediv (a b : Z) : result float :=
  if b =? 0 then Raise ZeroDivisionError
  else if a =? 0 then Return (S754_zero (b <? 0))
  else
    match SFdiv prec emax (S754_finite (a <? 0) (Z.to_pos (Z.abs a)) 0)
                          (S754_finite (b <? 0) (Z.to_pos (Z.abs b)) 0) with
    | S754_infinity _ => Raise OverflowError
    | q => Return q
    end.

(** [x * k] for a float [x] and an int [k] *)
Definition mul_int (x : float) (k : Z) : float :=
  SFmul prec emax x (float_of_int k).

(** The integer nearest to [n / d], ties to the even one ([0 <= n], [0 < d]). *)
Definition div_half_even (n d : Z) : Z :=
  let q := n / d in
  match (2 * (n mod d) ?= d) with
  | Lt => q
  | Gt => q + 1
  | Eq => if Z.even q then q else q + 1
  end.

(** The integer nearest to [m * 2^e], ties to the even one. *)
Definition scaled_half_even (m : positive) (e : Z) : Z :=
  if 0 <=? e then Z.pos m * 2 ^ e else div_half_even (Z.pos m) (2 ^ (- e)).

(** [round(x, 2)] on a float: the exact value is rounded half-even to two
    decimals and the decimal read back as the nearest float; zeros,
    infinities and NaN round to themselves. *)
Definition round2 (x : float) : float :=
  match x with
  | S754_finite s m e =>
      match scaled_half_even (m * 100) e with
      | Z.pos d => SFdiv prec emax (S754_finite s d 0) (S754_finite false 100 0)
      | _ => S754_zero s
      end
  | _ => x
  end.

(** *** Aware UTC datetimes *)

(** A [datetime] with [tzinfo=UTC], as microseconds since the epoch; such
    datetimes compare by instant. *)
Definition datetime : Type := Z.

(** 0001-01-01T00:00:00Z and 9999-12-31T23:59:59Z in seconds *)
Definition min_timestamp : Z := -62135596800.
Definition max_timestamp : Z := 253402300799.

Definition datetime_of (sec us : Z) : result datetime :=
  if (min_timestamp <=? sec) && (sec <=? max_timestamp)
  then Return (sec * 1000000 + us)
  else Raise TimestampError.

(** A float timestamp is split into its integral and fractional part, the
    fraction is multiplied by 1e6 as a float and rounded half-even to
    microseconds, carrying into the seconds. *)
Definition datetime_of_float (f : float) : result datetime :=
  match f with
  | S754_zero _ => datetime_of 0 0
  | S754_finite s m e =>
      if 0 <=? e then datetime_of ((if s then -1 else 1) * (Z.pos m * 2 ^ e)) 0
      else
        let ip := Z.pos m / 2 ^ (- e) in
        let us :=
          match Z.pos m mod 2 ^ (- e) with
          | Z.pos fm =>
              match mul_int (S754_finite false fm e) 1000000 with
              | S754_finite _ m' e' => scaled_half_even m' e'
              | _ => 0
              end
          | _ => 0
          end in
        if s then
          (if us =? 0 then datetime_of (- ip) 0 else datetime_of (- ip - 1) (1000000 - us))
        else
          (if 1000000 <=? us then datetime_of (ip + 1) (us - 1000000) else datetime_of ip us)
  | _ => Raise TimestampError
  end.

(** [datetime.fromtimestamp(ts, tz=UTC)] for [ts] other than None *)
Definition fromtimestamp (ts : value) : result datetime :=
  match ts with
  | PyInt n => datetime_of n 0
  | PyBool b => datetime_of (if b then 1 else 0) 0
  | PyFloat f => datetime_of_float f
  | _ => Raise TypeError
  end.

End Py.

(** ** pydantic validation of the response models' fields

    The models are built from values that [json.loads] returned; in
    pydantic's default (lax) mode a [str] field takes a str only and an
    [int | None] field takes None or an int as they are.  Whether and how a
    bool, a float or a str is coerced to an int is pydantic's own rule and
    comes with the environment ([lax_int]). *)

Module Pydantic.
Import Py.

Definition validate_str (v : value) : result string :=
  match v with
  | PyStr s => Return s
  | _ => Raise ValidationError
  end.

Definition validate_optional_str (v : value) : result (option string) :=
  match v with
  | PyNone => Return None
  | PyStr s => Return (Some s)
  | _ => Raise ValidationError
  end.

Definition validate_optional_int (lax_int : value -> option Z) (v : value)
  : result (option Z) :=
  match v with
  | PyNone => Return None
  | PyInt n => Return (Some n)
  | PyList _ | PyDict _ => Raise ValidationError
  | _ => match lax_int v with
         | Some n => Return (Some n)
         | None => Raise ValidationError
         end
  end.

End Pydantic.

(** ** [routers/backups.py] *)

Module Backups.
Import Py Pydantic.

(** [BackupInfo], [WALArchiveInfo] and [BackupResponse] of
    [models/schemas.py] *)
Record BackupInfo : Type := {
  label : string;
  type : string;
  start_time : option datetime;
  stop_time : option datetime;
  size_bytes : option Z;
  database_size_bytes : option Z
}.

Record WALArchiveInfo : Type := {
  min_wal : option string;
  max_wal : option string
}.

Record BackupResponse : Type := {
  stanza : string;
  status : string;
  status_message : option string;
  backups : list BackupInfo;
  wal_archive : option WALArchiveInfo;
  last_full_backup : option datetime;
  last_diff_backup : option datetime;
  timestamp : datetime
}.

(** [subprocess.CompletedProcess] with [capture_output=True, text=True] *)
Record CompletedProcess : Type := {
  returncode : Z;
  stdout : string;
  stderr : string
}.

(** What one request finds outside the handler: the settings, what
    [subprocess.run(args, timeout=t)] does, what [json.loads] makes of a
    text, pydantic's coercion to int, and the clock. *)
Record Env : Type := {
  pgbackrest_stanza : string;
  subprocess_run : list string -> Z -> result CompletedProcess;
  json_loads : string -> result value;
  lax_int : value -> option Z;
  now : datetime
}.

(** [HTTPException(status_code=500, detail=f"{prefix}{str(e)}")]: the
    detail is kept as the prefix and the exception it was built from. *)
Record HTTPException : Type := {
  status_code : Z;
  detail_prefix : string;
  detail_cause : exn
}.

(** What a handler does: return its response model or raise. *)
Inductive outcome : Type :=
| Responds (r : BackupResponse)
| Fails (e : HTTPException).

Definition parse_pgbackrest_timestamp (ts : value) : result (option datetime) :=
  match ts with
  | PyNone => Return None
  | _ => do t <- fromtimestamp ts; Return (Some t)
  end.

(** The constructor calls, with pydantic's validation of each field. *)
Definition new_BackupInfo (env : Env)
    (label type : value) (start_time stop_time : option datetime)
    (size_bytes database_size_bytes : value) : result BackupInfo :=
  do label <- validate_str label;
  do type <- validate_str type;
  do size_bytes <- validate_optional_int (lax_int env) size_bytes;
  do database_size_bytes <- validate_optional_int (lax_int env) database_size_bytes;
  Return {| label := label; type := type;
            start_time := start_time; stop_time := stop_time;
            size_bytes := size_bytes;
            database_size_bytes := database_size_bytes |}.

Definition new_WALArchiveInfo (min_wal max_wal : value) : result WALArchiveInfo :=
  do min_wal <- validate_optional_str min_wal;
  do max_wal <- validate_optional_str max_wal;
  Return {| min_wal := min_wal; max_wal := max_wal |}.

(** The reports of the degraded branches: a status, a message, no backups. *)
Definition degraded (env : Env) (status message : string) : BackupResponse :=
  {| stanza := pgbackrest_stanza env;
     status := status;
     status_message := Some message;
     backups := [];
     wal_archive := None;
     last_full_backup := None;
     last_diff_backup := None;
     timestamp := now env |}.

(** The [BackupInfo(...)] call of the loop body: its arguments evaluated
    left to right. *)
Definition backup_info_of (env : Env) (backup : value) : result BackupInfo :=
  do label <- get backup "label" (PyStr "unknown");
  do type <- get backup "type" (PyStr "unknown");
  do ts <- get backup "timestamp" (PyDict []);
  do start <- get ts "start" PyNone;
  do start_time <- parse_pgbackrest_timestamp start;
  do ts <- get backup "timestamp" (PyDict []);
  do stop <- get ts "stop" PyNone;
  do stop_time <- parse_pgbackrest_timestamp stop;
  do info <- get backup "info" (PyDict []);
  do size <- get info "size" PyNone;
  do info <- get backup "info" (PyDict []);
  do repository <- get info "repository" (PyDict []);
  do repository_size <- get repository "size" PyNone;
  new_BackupInfo env label type start_time stop_time size repository_size.

(** The loop's variables: [backups], [last_full], [last_diff]. *)
Definition loop_state : Type :=
  (list BackupInfo * option datetime * option datetime)%type.

(** [last is None or t > last] *)
Definition later (t : datetime) (last : option datetime) : bool :=
  match last with
  | None => true
  | Some l => l <? t
  end.

(** "Track latest backups by type": a datetime is always truthy, so
    [and backup_info.stop_time] asks for a stop time that is not None. *)
Definition track (backup_info : BackupInfo) (last_full last_diff : option datetime)
  : option datetime * option datetime :=
  match String.eqb (type backup_info) "full", stop_time backup_info with
  | true, Some t =>
      if later t last_full then (Some t, last_diff) else (last_full, last_diff)
  | _, _ =>
      match String.eqb (type backup_info) "diff", stop_time backup_info with
      | true, Some t =>
          if later t last_diff then (last_full, Some t) else (last_full, last_diff)
      | _, _ => (last_full, last_diff)
      end
  end.

(** One pass of the loop body. *)
Definition loop_body (env : Env) (st : loop_state) (backup : value) : result loop_state :=
  let '(backups, last_full, last_diff) := st in
  do backup_info <- backup_info_of env backup;
  let '(last_full, last_diff) := track backup_info last_full last_diff in
  Return ((backups ++ [backup_info])%list, last_full, last_diff).

(** [for backup in ...]: the body over the entries in order, stopping at
    the first exception. *)
Fixpoint loop (env : Env) (st : loop_state) (entries : list value) : result loop_state :=
  match entries with
  | [] => Return st
  | backup :: rest => do st' <- loop_body env st backup; loop env st' rest
  end.

(** "Map status code to string" *)
Definition status_of_code (status_code : value) : string :=
  if eq_int status_code 0 then "ok"
  else if eq_int status_code 1 then "missing_stanza"
  else if eq_int status_code 2 then "no_backup"
  else "error".

(** "Parse WAL archive info" *)
Definition wal_archive_of (stanza_info : value) : result (option WALArchiveInfo) :=
  do archive_info <- get stanza_info "archive" (PyList []);
  if truthy archive_info then
    do first <- getitem0 archive_info;
    do min_wal <- get first "min" PyNone;
    do first <- getitem0 archive_info;
    do max_wal <- get first "max" PyNone;
    do w <- new_WALArchiveInfo min_wal max_wal;
    Return (Some w)
  else Return None.

(** The argument list and timeout of the [subprocess.run] call. *)
Definition pgbackrest_args (stanza : string) : list string :=
  ["pgbackrest"; "--stanza"; stanza; "info"; "--output=json"].
Definition pgbackrest_timeout : Z := 30.

(** [subprocess.run(["pgbackrest", ...], capture_output=True, text=True,
    timeout=30)] *)
Definition run_pgbackrest (env : Env) : result CompletedProcess :=
  subprocess_run env (pgbackrest_args (pgbackrest_stanza env)) pgbackrest_timeout.

(** From [status_code = ...] to the final [return]: the report for the
    stanza's info block. *)
Definition report_of (env : Env) (stanza_info : value) : result BackupResponse :=
  do st <- get stanza_info "status" (PyDict []);
  do status_code <- get st "code" (PyInt 99);
  do st <- get stanza_info "status" (PyDict []);
  do status_message <- get st "message" (PyStr "Unknown");
  let status := status_of_code status_code in
  do backup_list <- get stanza_info "backup" (PyList []);
  do entries <- iter backup_list;
  do '(backups, last_full, last_diff) <- loop env ([], None, None) entries;
  do wal_archive <- wal_archive_of stanza_info;
  do status_message <-
    validate_optional_str
      (if negb (String.eqb status "ok") then status_message else PyNone);
  Return {| stanza := pgbackrest_stanza env;
            status := status;
            status_message := status_message;
            backups := backups;
            wal_archive := wal_archive;
            last_full_backup := last_full;
            last_diff_backup := last_diff;
            timestamp := now env |}.

(** The body of the [try] statement of [get_backup_status]. *)
Definition try_body (env : Env) : result BackupResponse :=
  do result <- run_pgbackrest env;
  if negb (returncode result =? 0) then
    Return (degraded env "unavailable"
              ("pgBackRest error: " +:+ str_or (strip (stderr result)) "Unknown error"))
  else
    do info <- json_loads env (stdout result);
    if negb (truthy info) then
      Return (degraded env "no_stanza" "No stanza information available")
    else
      do stanza_info <- getitem0 info;
      report_of env stanza_info.

(** [get_backup_status]: the [try] body under its four [except] clauses. *)
Definition get_backup_status (env : Env) : outcome :=
  match try_body env with
  | Return r => Responds r
  | Raise TimeoutExpired =>
      Responds (degraded env "timeout" "pgBackRest command timed out")
  | Raise FileNotFoundError =>
      Responds (degraded env "not_installed" "pgBackRest is not installed on this system")
  | Raise (JSONDecodeError msg) =>
      Responds (degraded env "parse_error" ("Failed to parse pgBackRest output: " +:+ msg))
  | Raise e =>
      Fails {| status_code := 500;
               detail_prefix := "Failed to get backup status: ";
               detail_cause := e |}
  end.

End Backups.

(** ** [routers/health.py] *)

Module Health.
Import Py.

(** [ReadyResponse] of [models/schemas.py] *)
Record ReadyResponse : Type := {
  status : string;
  database : string;
  timestamp : datetime
}.

(** A database call either gives its value or raises an [Exception] [e];
    the handler uses [str(e)] only. *)
Inductive db_result (A : Type) : Type :=
| Gives (a : A)
| Throws (str_e : string).
Arguments Gives {A} a.
Arguments Throws {A} str_e.

(** What the probe finds: [get_pool()], [pool.acquire()], and
    [conn.fetchval(query)]. *)
Record Env : Type := {
  get_pool : db_result unit;
  acquire : db_result unit;
  fetchval : string -> db_result value;
  now : datetime
}.

(** A Python object as a response carries it: the dict that [model_dump]
    returns holds the str fields and the datetime as they are. *)
Inductive content : Type :=
| CStr (s : string)
| CDatetime (t : datetime)
| CDict (items : list (string * content)).

(** [r.model_dump()] *)
Definition model_dump (r : ReadyResponse) : content :=
  CDict [("status", CStr (status r));
         ("database", CStr (database r));
         ("timestamp", CDatetime (timestamp r))].

(** [HTTPException(status_code=..., detail=...)] *)
Record HTTPException : Type := {
  status_code : Z;
  detail : content
}.

Inductive outcome : Type :=
| Responds (r : ReadyResponse)
| Fails (e : HTTPException).

(** The [try] statement: the status string the round trip leaves in
    [db_status]. *)
Definition db_status_of (env : Env) : string :=
  match get_pool env with
  | Throws e => "error: " +:+ e
  | Gives _ =>
      match acquire env with
      | Throws e => "error: " +:+ e
      | Gives _ =>
          match fetchval env "SELECT 1" with
          | Throws e => "error: " +:+ e
          | Gives result => if eq_int result 1 then "connected" else "error"
          end
      end
  end.

Definition readiness_check (env : Env) : outcome :=
  let db_status := db_status_of env in
  let overall_status :=
    if String.eqb db_status "connected" then "ready" else "not_ready" in
  if String.eqb overall_status "not_ready" then
    Fails {| status_code := 503;
             detail := model_dump {| status := overall_status;
                                     database := db_status;
                                     timestamp := now env |} |}
  else
    Responds {| status := overall_status;
                database := db_status;
                timestamp := now env |}.

(** A JSON document as it goes out: a text, a datetime written as its
    ISO 8601 text, an object. *)
Inductive wire : Type :=
| WStr (s : string)
| WTime (t : datetime)
| WObj (items : list (string * wire)).

(** [jsonable_encoder], through which FastAPI passes a returned response
    model: a datetime becomes its ISO 8601 text. *)
Fixpoint jsonable_encoder (c : content) : wire :=
  match c with
  | CStr s => WStr s
  | CDatetime t => WTime t
  | CDict items =>
      WObj ((fix each (l : list (string * content)) : list (string * wire) :=
               match l with
               | [] => []
               | (k, v) :: l' => (k, jsonable_encoder v) :: each l'
               end) items)
  end.

(** [json.dumps] as [JSONResponse] calls it, with no encoder for other
    types: a datetime object raises TypeError. *)
Fixpoint json_dumps (c : content) : result wire :=
  match c with
  | CStr s => Return (WStr s)
  | CDatetime _ => Raise TypeError
  | CDict items =>
      do ws <- (fix each (l : list (string * content))
                  : result (list (string * wire)) :=
                  match l with
                  | [] => Return []
                  | (k, v) :: l' =>
                      do w <- json_dumps v;
                      do ws <- each l';
                      Return ((k, w) :: ws)
                  end) items;
      Return (WObj ws)
  end.

(** The body of a response: a JSON document, or a plain text. *)
Inductive body : Type :=
| Json (w : wire)
| PlainText (s : string).

(** What the framework answers with.  A returned model goes out with
    status 200 as the object of its fields, encoded by
    [jsonable_encoder].  FastAPI's handler for [HTTPException] builds
    [JSONResponse({"detail": exc.detail}, status_code=exc.status_code)],
    which renders its content with [json.dumps] at once; when that
    raises, the exception leaves the handler and the server answers
    with status 500 and the text "Internal Server Error". *)
Definition response_of (o : outcome) : Z * body :=
  match o with
  | Responds r => (200, Json (jsonable_encoder (model_dump r)))
  | Fails e =>
      match json_dumps (CDict [("detail", detail e)]) with
      | Return w => (status_code e, Json w)
      | Raise _ => (500, PlainText "Internal Server Error")
      end
  end.

(** The top-level keys of an object, before and after encoding. *)
Definition keys (c : content) : list string :=
  match c with
  | CDict items => map fst items
  | _ => []
  end.

Definition body_keys (b : body) : list string :=
  match b with
  | Json (WObj items) => map fst items
  | _ => []
  end.

End Health.

(** ** [routers/metrics.py] *)

Module Metrics.
Import Py.

(** [MetricsResponse] of [models/schemas.py] *)
Record MetricsResponse : Type := {
  database_size_bytes : Z;
  active_connections : Z;
  max_connections : Z;
  connection_usage_percent : float;
  transactions_committed : Z;
  transactions_rolled_back : Z;
  blocks_read : Z;
  blocks_hit : Z;
  cache_hit_ratio : float;
  replication_lag_bytes : option Z;
  is_in_recovery : bool;
  timestamp : datetime
}.

(** The two rows the handler fetches; a cell is None when SQL gives NULL. *)
Record conn_info_row : Type := {
  row_active_connections : option Z;
  row_max_connections : option Z
}.

Record txn_stats_row : Type := {
  committed : option Z;
  rolled_back : option Z;
  blks_read : option Z;
  blks_hit : option Z
}.

(** What the five queries answer; [fetchrow] gives None when the query
    has no row. *)
Record Env : Type := {
  db_size : result (option Z);
  conn_info : result conn_info_row;
  txn_stats : result (option txn_stats_row);
  in_recovery : result bool;
  lag_result : result (option Z);
  now : datetime
}.

Record HTTPException : Type := {
  status_code : Z;
  detail_prefix : string;
  detail_cause : exn
}.

Inductive outcome : Type :=
| Responds (r : MetricsResponse)
| Fails (e : HTTPException).

(** A Python number: what the two conditional expressions evaluate to. *)
Inductive number : Type :=
| NInt (n : Z)
| NFloat (f : float).

(** [round(x, 2)]: an int rounds to itself. *)
Definition round_2 (x : number) : number :=
  match x with
  | NInt n => NInt n
  | NFloat f => NFloat (round2 f)
  end.

(** pydantic's validation of a [float] field *)
Definition validate_float (x : number) : float :=
  match x with
  | NInt n => float_of_int n
  | NFloat f => f
  end.

(** "Calculate cache hit ratio" *)
Definition cache_hit_ratio_of (blocks_read blocks_hit : Z) : result number :=
  let total_blocks := blocks_read + blocks_hit in
  if 0 <? total_blocks then
    do q <- truediv blocks_hit total_blocks;
    Return (NFloat (mul_int q 100))
  else Return (NFloat (float_of_int 100)).

(** "Calculate connection usage" *)
Definition conn_usage_of (active max_conn : Z) : result number :=
  if 0 <? max_conn then
    do q <- truediv active max_conn;
    Return (NFloat (mul_int q 100))
  else Return (NInt 0).

(** [row[key]] on what [fetchrow] returned *)
Definition subscript {R A : Type} (row : option R) (field : R -> A) : result A :=
  match row with
  | Some r => Return (field r)
  | None => Raise TypeError
  end.

(** The body of the [try] statement of [get_metrics]. *)
Definition try_body (env : Env) : result MetricsResponse :=
  do db_size <- db_size env;
  do conn_info <- conn_info env;
  do txn_stats <- txn_stats env;
  do is_in_recovery <- in_recovery env;
  do replication_lag <-
    (if is_in_recovery then lag_result env else Return None);
  do blks_read <- subscript txn_stats blks_read;
  let blocks_read := int_or blks_read 0 in
  do blks_hit <- subscript txn_stats blks_hit;
  let blocks_hit := int_or blks_hit 0 in
  do cache_hit_ratio <- cache_hit_ratio_of blocks_read blocks_hit;
  let active := int_or (row_active_connections conn_info) 0 in
  let max_conn := int_or (row_max_connections conn_info) 100 in
  do conn_usage <- conn_usage_of active max_conn;
  do committed <- subscript txn_stats committed;
  do rolled_back <- subscript txn_stats rolled_back;
  Return {| database_size_bytes := int_or db_size 0;
            active_connections := active;
            max_connections := max_conn;
            connection_usage_percent := validate_float (round_2 conn_usage);
            transactions_committed := int_or committed 0;
            transactions_rolled_back := int_or rolled_back 0;
            blocks_read := blocks_read;
            blocks_hit := blocks_hit;
            cache_hit_ratio := validate_float (round_2 cache_hit_ratio);
            replication_lag_bytes := replication_lag;
            is_in_recovery := is_in_recovery;
            timestamp := now env |}.

Definition get_metrics (env : Env) : outcome :=
  match try_body env with
  | Return r => Responds r
  | Raise e =>
      Fails {| status_code := 500;
               detail_prefix := "Failed to retrieve metrics: ";
               detail_cause := e |}
  end.

End Metrics.

(** ** [routers/items.py]: the update handler *)

Module Items.
Import Py.

(** [ItemUpdate] of [models/schemas.py]: every field is optional and None
    when the request body leaves it out. *)
Module ItemUpdate.
Record t : Type := {
  name : option string;
  description : option string;
  price : option float;
  is_active : option bool
}.
End ItemUpdate.

(** [Item] of [models/schemas.py] *)
Module Item.
Record t : Type := {
  id : Z;
  name : string;
  description : option string;
  price : float;
  is_active : bool;
  created_at : datetime;
  updated_at : datetime
}.
End Item.

(** A row of the table [items] that [ensure_table_exists] creates, under
    its primary key: [name] and [price] are NOT NULL, [price] is
    DECIMAL(10, 2) and kept in hundredths, the other columns are nullable. *)
Module Row.
Record t : Type := {
  name : string;
  description : option string;
  price : Z;
  is_active : option bool;
  created_at : option datetime;
  updated_at : option datetime
}.
End Row.

(** The columns of [items]. *)
Inductive column : Type :=
| c_id | c_name | c_description | c_price | c_is_active
| c_created_at | c_updated_at.

(** An argument passed to [fetchrow] for a placeholder [$n]. *)
Inductive param : Type :=
| PInt (n : Z)
| PText (s : string)
| PFloat (f : float)
| PBool (b : bool)
| PTimestamp (t : datetime).

(** The database: no table yet, or the rows of [items] by [id]. *)
Definition database : Type := option (gmap Z Row.t).

(** What the handler finds: the clock and PostgreSQL's conversion of a
    float argument to DECIMAL(10, 2), None when the value does not fit. *)
Record Env : Type := {
  now : datetime;
  numeric_of_float : float -> option Z
}.

(** [detail="No fields to update"] and [detail=f"Item {item_id} not found"] *)
Inductive detail : Type :=
| NoFieldsToUpdate
| ItemNotFound (item_id : Z).

Record HTTPException : Type := {
  status_code : Z;
  http_detail : detail
}.

(** The handler returns the item, raises an [HTTPException], or lets an
    exception of the database or of the validation through. *)
Inductive outcome : Type :=
| Responds (i : Item.t)
| Fails (e : HTTPException)
| Propagates (e : exn).

(** [CREATE TABLE IF NOT EXISTS items (...)]; the index that follows holds
    no rows of its own. *)
Definition ensure_table_exists (db : database) : database :=
  match db with
  | None => Some ∅
  | Some t => Some t
  end.

(** The rows a database holds. *)
Definition rows (db : database) : gmap Z Row.t :=
  match db with
  | None => ∅
  | Some t => t
  end.

(** The handler's three variables while it builds the query: an entry
    [(c, n)] of [update_fields] is the text [f"{c} = ${n}"]. *)
Record builder : Type := {
  update_fields : list (column * nat);
  values : list param;
  param_count : nat
}.

(** [update_fields.append(f"{c} = ${param_count}"); values.append(v);
    param_count += 1] *)
Definition append_field (c : column) (v : param) (b : builder) : builder :=
  {| update_fields := (update_fields b ++ [(c, param_count b)])%list;
     values := (values b ++ [v])%list;
     param_count := S (param_count b) |}.

(** [if field is not None: ...] *)
Definition append_if {A : Type} (field : option A) (c : column) (p : A -> param)
    (b : builder) : builder :=
  match field with
  | Some v => append_field c (p v) b
  | None => b
  end.

(** The four [if] statements of "Build dynamic update query". *)
Definition collect (item : ItemUpdate.t) : builder :=
  let b := {| update_fields := []; values := []; param_count := 1 |} in
  let b := append_if (ItemUpdate.name item) c_name PText b in
  let b := append_if (ItemUpdate.description item) c_description PText b in
  let b := append_if (ItemUpdate.price item) c_price PFloat b in
  let b := append_if (ItemUpdate.is_active item) c_is_active PBool b in
  b.

(** [UPDATE items SET <set_clause> WHERE id = $<where_param>
     RETURNING id, name, description, price, is_active, created_at,
     updated_at] *)
Record update_query : Type := {
  set_clause : list (column * nat);
  where_param : nat
}.

(** The argument bound to [$n]. *)
Definition argument (args : list param) (n : nat) : result param :=
  match n with
  | O => Raise (OtherError "PostgresSyntaxError")
  | S k =>
      match args !! k with
      | Some v => Return v
      | None => Raise (OtherError "InterfaceError")
      end
  end.

(** [SET c = v] on one row: the value must be of the column's type. *)
Definition set_column (env : Env) (c : column) (v : param) (r : Row.t) : result Row.t :=
  match c, v with
  | c_name, PText s =>
      Return {| Row.name := s; Row.description := Row.description r;
                Row.price := Row.price r; Row.is_active := Row.is_active r;
                Row.created_at := Row.created_at r;
                Row.updated_at := Row.updated_at r |}
  | c_description, PText s =>
      Return {| Row.name := Row.name r; Row.description := Some s;
                Row.price := Row.price r; Row.is_active := Row.is_active r;
                Row.created_at := Row.created_at r;
                Row.updated_at := Row.updated_at r |}
  | c_price, PFloat f =>
      match numeric_of_float env f with
      | Some d =>
          Return {| Row.name := Row.name r; Row.description := Row.description r;
                    Row.price := d; Row.is_active := Row.is_active r;
                    Row.created_at := Row.created_at r;
                    Row.updated_at := Row.updated_at r |}
      | None => Raise (OtherError "NumericValueOutOfRangeError")
      end
  | c_is_active, PBool b =>
      Return {| Row.name := Row.name r; Row.description := Row.description r;
                Row.price := Row.price r; Row.is_active := Some b;
                Row.created_at := Row.created_at r;
                Row.updated_at := Row.updated_at r |}
  | c_updated_at, PTimestamp t =>
      Return {| Row.name := Row.name r; Row.description := Row.description r;
                Row.price := Row.price r; Row.is_active := Row.is_active r;
                Row.created_at := Row.created_at r;
                Row.updated_at := Some t |}
  | _, _ => Raise (OtherError "DataError")
  end.

(** The SET clause on one row, entry by entry. *)
Fixpoint apply_set (env : Env) (set_clause : list (column * nat)) (args : list param)
    (r : Row.t) : result Row.t :=
  match set_clause with
  | [] => Return r
  | (c, n) :: rest =>
      do v <- argument args n;
      do r' <- set_column env c v r;
      apply_set env rest args r'
  end.

(** [conn.fetchrow(query, *args)] for an update query: the row whose id is
    the argument of the WHERE clause is replaced and returned; None when
    there is no such row; the table is as before when the statement
    fails. *)
Definition fetchrow (env : Env) (q : update_query) (args : list param)
    (t : gmap Z Row.t) : result (option (Z * Row.t)) * gmap Z Row.t :=
  match argument args (where_param q) with
  | Return (PInt k) =>
      match t !! k with
      | None => (Return None, t)
      | Some r =>
          match apply_set env (set_clause q) args r with
          | Return r' => (Return (Some (k, r')), <[k := r']> t)
          | Raise e => (Raise e, t)
          end
      end
  | Return _ => (Raise (OtherError "DataError"), t)
  | Raise e => (Raise e, t)
  end.

(** The [Item] built from [dict(row)], with the constraints [Item]
    inherits from [ItemBase]; the DECIMAL price becomes the nearest float. *)
Definition new_Item (row : Z * Row.t) : result Item.t :=
  let '(id, r) := row in
  let name_length := Z.of_nat (String.length (Row.name r)) in
  if negb ((1 <=? name_length) && (name_length <=? 255)) then Raise ValidationError
  else if negb (match Row.description r with
                | Some d => Z.of_nat (String.length d) <=? 1000
                | None => true
                end) then Raise ValidationError
  else if Row.price r <? 0 then Raise ValidationError
  else
    match Row.is_active r, Row.created_at r, Row.updated_at r with
    | Some is_active, Some created_at, Some updated_at =>
        do price <- truediv (Row.price r) 100;
        Return {| Item.id := id; Item.name := Row.name r;
                  Item.description := Row.description r;
                  Item.price := price; Item.is_active := is_active;
                  Item.created_at := created_at;
                  Item.updated_at := updated_at |}
    | _, _, _ => Raise ValidationError
    end.

(** [update_item(item_id, item)] on the table.  The check that asyncpg
    makes on the id before it sends the query (the argument of an
    [integer] parameter) is in [ItemsCrud.update], which runs this
    handler on the store. *)
Definition update_item (env : Env) (item_id : Z) (item : ItemUpdate.t)
    (db : database) : outcome * database :=
  let db := ensure_table_exists db in
  let b := collect item in
  match update_fields b with
  | [] => (Fails {| status_code := 400; http_detail := NoFieldsToUpdate |}, db)
  | _ =>
      let b := append_field c_updated_at (PTimestamp (now env)) b in
      let values := (values b ++ [PInt item_id])%list in
      let query := {| set_clause := update_fields b;
                      where_param := param_count b |} in
      let '(row, t) := fetchrow env query values (rows db) in
      match row with
      | Raise e => (Propagates e, Some t)
      | Return None =>
          (Fails {| status_code := 404; http_detail := ItemNotFound item_id |}, Some t)
      | Return (Some row) =>
          match new_Item row with
          | Return i => (Responds i, Some t)
          | Raise e => (Propagates e, Some t)
          end
      end
  end.

End Items.

(** ** Sample requests

    The environments of the repository's tests ([tests/test_backups.py],
    [tests/test_health.py]) and a few more, used to run the handlers. *)

Module Samples.
Import Py.

(** A decoder that knows the sample outputs, each under a short name that
    stands for its text, and rejects any other text the way [json.loads]
    rejects a text that is no JSON value. *)
Definition sample_loads (table : list (string * value)) (text : string) : result value :=
  match dict_lookup text table with
  | Some v => Return v
  | None => Raise (JSONDecodeError "Expecting value: line 1 column 1 (char 0)")
  end.

(** [mock_output] of [test_backups_endpoint_success] *)
Definition success_payload : value :=
  PyList [PyDict [
    ("status", PyDict [("code", PyInt 0); ("message", PyStr "ok")]);
    ("backup", PyList [PyDict [
       ("label", PyStr "20250115-120000F");
       ("type", PyStr "full");
       ("timestamp", PyDict [("start", PyInt 1705320000); ("stop", PyInt 1705320600)]);
       ("info", PyDict [("size", PyInt 1073741824);
                        ("repository", PyDict [("size", PyInt 536870912)])])]]);
    ("archive", PyList [PyDict [("min", PyStr "000000010000000000000001");
                                 ("max", PyStr "000000010000000000000010")]])]].

(** [mock_output] of [test_backups_endpoint_no_backups] *)
Definition no_backups_payload : value :=
  PyList [PyDict [
    ("status", PyDict [("code", PyInt 2); ("message", PyStr "no backup exists")]);
    ("backup", PyList []);
    ("archive", PyList [])]].

(** Two full backups, the later one first, a diff backup and a full
    backup that has not stopped. *)
Definition unordered_entries : list value :=
  [PyDict [("label", PyStr "B"); ("type", PyStr "full");
           ("timestamp", PyDict [("start", PyInt 190); ("stop", PyInt 200)])];
   PyDict [("label", PyStr "A"); ("type", PyStr "full");
           ("timestamp", PyDict [("start", PyInt 90); ("stop", PyInt 100)])];
   PyDict [("label", PyStr "C"); ("type", PyStr "diff");
           ("timestamp", PyDict [("start", PyInt 290); ("stop", PyInt 300)])];
   PyDict [("label", PyStr "D"); ("type", PyStr "full");
           ("timestamp", PyDict [("start", PyInt 390)])]].

Definition unordered_payload : value :=
  PyList [PyDict [
    ("status", PyDict [("code", PyInt 0); ("message", PyStr "ok")]);
    ("backup", PyList unordered_entries)]].

Definition sample_table : list (string * value) :=
  [("success", success_payload);
   ("no backups", no_backups_payload);
   ("unordered", unordered_payload);
   ("[]", PyList []);
   ("bare", PyList [PyDict []]);
   ("{}", PyDict []);
   ("object", PyDict [("stanza", PyStr "main")]);
   ("7", PyInt 7)].

(** The environment in which the subprocess behaves as [run]. *)
Definition backups_env (run : result Backups.CompletedProcess) : Backups.Env :=
  {| Backups.pgbackrest_stanza := "pgha-dev-postgres";
     Backups.subprocess_run := fun _ _ => run;
     Backups.json_loads := sample_loads sample_table;
     Backups.lax_int := fun _ => None;
     Backups.now := 1736942400000000 |}.

(** The text pgBackRest writes for an unknown stanza, with the line end. *)
Definition stanza_not_found : string :=
  "stanza not found" +:+ String (ascii_of_nat 10) "".

Definition exits (code : Z) (out err : string) : result Backups.CompletedProcess :=
  Return {| Backups.returncode := code; Backups.stdout := out; Backups.stderr := err |}.

(** The report for [unordered_payload]. *)
Definition unordered_report : Backups.BackupResponse :=
  let record label type start stop :=
    {| Backups.label := label; Backups.type := type;
       Backups.start_time := Some start; Backups.stop_time := stop;
       Backups.size_bytes := None; Backups.database_size_bytes := None |} in
  {| Backups.stanza := "pgha-dev-postgres";
     Backups.status := "ok";
     Backups.status_message := None;
     Backups.backups :=
       [record "B" "full" 190000000 (Some 200000000);
        record "A" "full" 90000000 (Some 100000000);
        record "C" "diff" 290000000 (Some 300000000);
        record "D" "full" 390000000 None];
     Backups.wal_archive := None;
     Backups.last_full_backup := Some 200000000;
     Backups.last_diff_backup := Some 300000000;
     Backups.timestamp := 1736942400000000 |}.

(** [test_ready_endpoint_db_connected]: the query fetches 1. *)
Definition db_up : Health.Env :=
  {| Health.get_pool := Health.Gives tt;
     Health.acquire := Health.Gives tt;
     Health.fetchval := fun _ => Health.Gives (PyInt 1);
     Health.now := 1736942400000000 |}.

(** [test_ready_endpoint_db_error]: [get_pool] raises
    [Exception("Connection failed")]. *)
Definition db_down : Health.Env :=
  {| Health.get_pool := Health.Throws "Connection failed";
     Health.acquire := Health.Gives tt;
     Health.fetchval := fun _ => Health.Gives (PyInt 1);
     Health.now := 1736942400000000 |}.

(** A primary that answers every query of the metrics handler. *)
Definition metrics_env (active max_conn blks_read blks_hit : option Z) : Metrics.Env :=
  {| Metrics.db_size := Return (Some 7654321);
     Metrics.conn_info :=
       Return {| Metrics.row_active_connections := active;
                 Metrics.row_max_connections := max_conn |};
     Metrics.txn_stats :=
       Return (Some {| Metrics.committed := Some 10;
                       Metrics.rolled_back := Some 1;
                       Metrics.blks_read := blks_read;
                       Metrics.blks_hit := blks_hit |});
     Metrics.in_recovery := Return false;
     Metrics.lag_result := Return None;
     Metrics.now := 1736942400000000 |}.

(** A database that refuses the connection. *)
Definition metrics_down : Metrics.Env :=
  {| Metrics.db_size := Raise (OtherError "ConnectionRefusedError");
     Metrics.conn_info := Raise (OtherError "ConnectionRefusedError");
     Metrics.txn_stats := Raise (OtherError "ConnectionRefusedError");
     Metrics.in_recovery := Raise (OtherError "ConnectionRefusedError");
     Metrics.lag_result := Raise (OtherError "ConnectionRefusedError");
     Metrics.now := 1736942400000000 |}.

(** The floats 0.0, 5.0, 90.0 and 100.0 *)
Definition float_0 : float := S754_zero false.
Definition float_5 : float := S754_finite false 5629499534213120 (-50).
Definition float_90 : float := S754_finite false 6333186975989760 (-46).
Definition float_100 : float := S754_finite false 7036874417766400 (-46).

(** An items table with two rows, and a database that stores the price
    5.0 as 5.00. *)
Definition widget : Items.Row.t :=
  {| Items.Row.name := "Widget";
     Items.Row.description := Some "A test item";
     Items.Row.price := 2999;
     Items.Row.is_active := Some true;
     Items.Row.created_at := Some 1700000000000000;
     Items.Row.updated_at := Some 1700000000000000 |}.

Definition gadget : Items.Row.t :=
  {| Items.Row.name := "Gadget";
     Items.Row.description := None;
     Items.Row.price := 100;
     Items.Row.is_active := Some false;
     Items.Row.created_at := Some 1700000001000000;
     Items.Row.updated_at := Some 1700000001000000 |}.

Definition two_items : gmap Z Items.Row.t := <[1 := widget]> (<[2 := gadget]> ∅).

Definition items_env : Items.Env :=
  {| Items.now := 1736942400000000;
     Items.numeric_of_float :=
       fun f => match f with
                | S754_finite false 5629499534213120 (-50) => Some 500
                | _ => None
                end |}.

(** The request bodies [{"price": 5}] and [{}] *)
Definition price_only : Items.ItemUpdate.t :=
  {| Items.ItemUpdate.name := None;
     Items.ItemUpdate.description := None;
     Items.ItemUpdate.price := Some float_5;
     Items.ItemUpdate.is_active := None |}.

Definition empty_body : Items.ItemUpdate.t :=
  {| Items.ItemUpdate.name := None;
     Items.ItemUpdate.description := None;
     Items.ItemUpdate.price := None;
     Items.ItemUpdate.is_active := None |}.

End Samples.

(** ** What the claims about the backup report speak of *)

Module BackupsSpec.
Import Py Backups.

(** The exceptions that one of the first three [except] clauses takes. *)
Definition caught (e : exn) : bool :=
  match e with
  | TimeoutExpired | FileNotFoundError | JSONDecodeError _ => true
  | _ => false
  end.

(** The record [b] is of type [ty] and stopped at [t]. *)
Definition stopped (ty : string) (b : BackupInfo) (t : datetime) : Prop :=
  type b = ty /\ stop_time b = Some t.

(** [last] is the maximum stop time over the records of type [ty] in [bs]
    that have one: absent when there is none, else the stop time of one of
    them that none exceeds. *)
Definition is_latest (ty : string) (bs : list BackupInfo) (last : option datetime) : Prop :=
  match last with
  | None => forall b t, b ∈ bs -> ~ stopped ty b t
  | Some m =>
      (exists b, b ∈ bs /\ stopped ty b m) /\
      (forall b t, b ∈ bs -> stopped ty b t -> t <= m)
  end.

(** The running maximum for one type, as one pass of the loop leaves it. *)
Definition advance (ty : string) (b : BackupInfo) (last : option datetime) : option datetime :=
  match String.eqb (type b) ty, stop_time b with
  | true, Some t => if later t last then Some t else last
  | _, _ => last
  end.

(** The records of a list of entries, when each entry yields one. *)
Fixpoint records_of (env : Env) (entries : list value) : result (list BackupInfo) :=
  match entries with
  | [] => Return []
  | backup :: rest =>
      do b <- backup_info_of env backup;
      do bs <- records_of env rest;
      Return (b :: bs)
  end.

(** The info block's status object: empty when the key is absent. *)
Definition status_object (d : list (string * value)) : option (list (string * value)) :=
  match dict_lookup "status" d with
  | None => Some []
  | Some (PyDict s) => Some s
  | Some _ => None
  end.

(** The info block [d] holds the numeric status code [n], 99 when absent. *)
Definition has_code (d : list (string * value)) (n : Z) : Prop :=
  exists s, status_object d = Some s /\
    (dict_lookup "code" s = Some (PyInt n) \/
     (dict_lookup "code" s = None /\ n = 99)).

(** The info block [d] holds the message [m], "Unknown" when absent. *)
Definition has_message (d : list (string * value)) (m : string) : Prop :=
  exists s, status_object d = Some s /\
    (dict_lookup "message" s = Some (PyStr m) \/
     (dict_lookup "message" s = None /\ m = "Unknown")).

(** The entries the loop goes through: what iterating the block's backup
    list gives, no entries when the block has no such list. *)
Definition backup_entries (d : list (string * value)) : result (list value) :=
  do backup_list <- get (PyDict d) "backup" (PyList []);
  iter backup_list.

End BackupsSpec.

(** ** What the claims about the other handlers speak of *)

Module HealthSpec.
Import Py Health.

(** The round trip succeeds: the pool and a connection are there and the
    query fetches 1. *)
Definition round_trip_succeeds (env : Env) : Prop :=
  get_pool env = Gives tt /\ acquire env = Gives tt /\
  exists v, fetchval env "SELECT 1" = Gives v /\ eq_int v 1 = true.

(** The keys of a [ReadyResponse] object. *)
Definition ready_keys : list string := ["status"; "database"; "timestamp"].

End HealthSpec.

Module ItemsSpec.
Import Py Items.

(** The columns whose field the request body holds, in the handler's
    order. *)
Definition present (item : ItemUpdate.t) : list column :=
  (match ItemUpdate.name item with Some _ => [c_name] | None => [] end ++
   match ItemUpdate.description item with Some _ => [c_description] | None => [] end ++
   match ItemUpdate.price item with Some _ => [c_price] | None => [] end ++
   match ItemUpdate.is_active item with Some _ => [c_is_active] | None => [] end)%list.

(** The handler's three variables when the query is sent: the fields of
    the request, then updated_at. *)
Definition built (env : Env) (item : ItemUpdate.t) : builder :=
  append_field c_updated_at (PTimestamp (now env)) (collect item).

(** PostgreSQL takes every price the request holds. *)
Definition price_fits (env : Env) (item : ItemUpdate.t) : Prop :=
  forall f, ItemUpdate.price item = Some f -> is_Some (numeric_of_float env f).

End ItemsSpec.

Module MetricsSpec.
Import Py Metrics.

(** A cell holds a PostgreSQL bigint (or int), or NULL. *)
Definition bigint_cell (c : option Z) : Prop :=
  forall n, c = Some n -> Z.abs n < 2 ^ 63.

(** Every query of the handler answers, with the rows [ci] and [ts]. *)
Definition answers (env : Env) (ci : conn_info_row) (ts : txn_stats_row) : Prop :=
  (exists size, db_size env = Return size) /\
  conn_info env = Return ci /\
  txn_stats env = Return (Some ts) /\
  (exists b, in_recovery env = Return b /\
             (b = true -> exists lag, lag_result env = Return lag)) /\
  bigint_cell (row_active_connections ci) /\
  bigint_cell (blks_hit ts).

End MetricsSpec.

(** ** [routers/items.py]: create, get, list and delete *)

Module ItemsCrud.
Import Py Items.

(** [ItemCreate] of [models/schemas.py]: the fields of [ItemBase]. *)
Module ItemCreate.
Record t : Type := {
  name : string;
  description : option string;
  price : float;
  is_active : bool
}.
End ItemCreate.

(** The database with the sequence that [id SERIAL] draws from; the
    sequence is created with the table and starts at 1. *)
Record store : Type := {
  tables : database;
  next_id : Z
}.

(** What a handler does: return its result, raise an [HTTPException], or
    let an exception of the database or of the validation through. *)
Inductive reply (A : Type) : Type :=
| Returns (a : A)
| Fails (e : HTTPException)
| Propagates (e : exn).
Arguments Returns {A} a.
Arguments Fails {A} e.
Arguments Propagates {A} e.

(** [ensure_table_exists] on the store *)
Definition ensure (st : store) : store :=
  match tables st with
  | None => {| tables := Some ∅; next_id := 1 |}
  | Some _ => st
  end.

(** The rows of the store. *)
Definition items (st : store) : gmap Z Row.t := rows (tables st).

(** A query argument for an [integer] or a [bigint] parameter: asyncpg
    raises DataError for a number that is out of the type's range, and
    the query is not sent. *)
Definition int4 (n : Z) : bool := (-2147483648 <=? n) && (n <=? 2147483647).
Definition int8 (n : Z) : bool :=
  (-9223372036854775808 <=? n) && (n <=? 9223372036854775807).

(** [INSERT INTO items (name, description, price, is_active, created_at,
    updated_at) VALUES ($1, $2, $3, $4, $5, $5) RETURNING ...].  The name
    must fit VARCHAR(255) and the price DECIMAL(10, 2): an argument that
    does not is refused when the statement is planned, and the sequence
    is not touched.  Then the id is drawn from the sequence, which runs
    from 1 to 2147483647; the id must be new, and a row refused for its
    id has taken the id from the sequence. *)
Definition insert (env : Env) (name : string) (description : option string)
    (price : float) (is_active : bool) (ts : datetime) (st : store)
  : result (Z * Row.t) * store :=
  let id := next_id st in
  if 255 <? Z.of_nat (String.length name) then
    (Raise (OtherError "StringDataRightTruncationError"), st)
  else
    match numeric_of_float env price with
    | None => (Raise (OtherError "NumericValueOutOfRangeError"), st)
    | Some d =>
        if negb ((1 <=? id) && (id <=? 2147483647)) then
          (Raise (OtherError "SequenceGeneratorLimitExceededError"), st)
        else
          match items st !! id with
          | Some _ =>
              (Raise (OtherError "UniqueViolationError"),
               {| tables := tables st; next_id := id + 1 |})
          | None =>
              let r := {| Row.name := name; Row.description := description;
                          Row.price := d; Row.is_active := Some is_active;
                          Row.created_at := Some ts; Row.updated_at := Some ts |} in
              (Return (id, r),
               {| tables := Some (<[id := r]> (items st)); next_id := id + 1 |})
          end
    end.

(** What comes after a [fetchrow]: [Item] built from the row, or the 404. *)
Definition item_or_404 (item_id : Z) (row : result (option (Z * Row.t)))
  : reply Item.t :=
  match row with
  | Raise e => Propagates e
  | Return None =>
      Fails {| status_code := 404; http_detail := ItemNotFound item_id |}
  | Return (Some row) =>
      match new_Item row with
      | Return i => Returns i
      | Raise e => Propagates e
      end
  end.

(** [create_item(item)] *)
Definition create_item (env : Env) (item : ItemCreate.t) (st : store)
  : reply Item.t * store :=
  let st := ensure st in
  let '(row, st) :=
    insert env (ItemCreate.name item) (ItemCreate.description item)
      (ItemCreate.price item) (ItemCreate.is_active item) (now env) st in
  match row with
  | Raise e => (Propagates e, st)
  | Return row =>
      match new_Item row with
      | Return i => (Returns i, st)
      | Raise e => (Propagates e, st)
      end
  end.

(** [SELECT ... FROM items WHERE id = $1] through [fetchrow] *)
Definition select_by_id (item_id : Z) (st : store) : result (option (Z * Row.t)) :=
  if negb (int4 item_id) then Raise (OtherError "DataError")
  else
    match items st !! item_id with
    | Some r => Return (Some (item_id, r))
    | None => Return None
    end.

(** [get_item(item_id)] *)
Definition get_item (item_id : Z) (st : store) : reply Item.t * store :=
  let st := ensure st in
  (item_or_404 item_id (select_by_id item_id st), st).

(** [ORDER BY id] *)
Definition by_id (a b : Z * Row.t) : Prop := a.1 <= b.1.

#[global] Instance by_id_dec (a b : Z * Row.t) : Decision (by_id a b) :=
  decide (a.1 <= b.1).

Definition ordered (t : gmap Z Row.t) : list (Z * Row.t) :=
  merge_sort by_id (map_to_list t).

(** [WHERE is_active = TRUE] *)
Definition active (row : Z * Row.t) : bool :=
  match Row.is_active row.2 with
  | Some true => true
  | _ => false
  end.

(** [SELECT ... FROM items [WHERE is_active = TRUE] ORDER BY id
    OFFSET $1 LIMIT $2] through [fetch]: the two arguments are bigints,
    and PostgreSQL refuses a negative offset or limit. *)
Definition select_page (active_only : bool) (skip limit : Z) (st : store)
  : result (list (Z * Row.t)) :=
  if negb (int8 skip && int8 limit) then Raise (OtherError "DataError")
  else if skip <? 0 then
    Raise (OtherError "InvalidRowCountInResultOffsetClauseError")
  else if limit <? 0 then
    Raise (OtherError "InvalidRowCountInLimitClauseError")
  else
    let rows := ordered (items st) in
    let rows := if active_only then filter (fun row => active row = true) rows else rows in
    Return (take (Z.to_nat limit) (drop (Z.to_nat skip) rows)).

(** [[Item(...) for row in rows]] *)
Fixpoint new_Items (rows : list (Z * Row.t)) : result (list Item.t) :=
  match rows with
  | [] => Return []
  | row :: rest =>
      do i <- new_Item row;
      do others <- new_Items rest;
      Return (i :: others)
  end.

(** [list_items(skip, limit, active_only)] *)
Definition list_items (skip limit : Z) (active_only : bool) (st : store)
  : reply (list Item.t) * store :=
  let st := ensure st in
  match select_page active_only skip limit st with
  | Raise e => (Propagates e, st)
  | Return rows =>
      match new_Items rows with
      | Return found => (Returns found, st)
      | Raise e => (Propagates e, st)
      end
  end.

(** [conn.execute("DELETE FROM items WHERE id = $1", item_id)]: the
    command tag with the number of rows deleted. *)
Definition execute_delete (item_id : Z) (st : store) : result string * store :=
  if negb (int4 item_id) then (Raise (OtherError "DataError"), st)
  else
    match items st !! item_id with
    | Some _ =>
        (Return "DELETE 1",
         {| tables := Some (delete item_id (items st)); next_id := next_id st |})
    | None => (Return "DELETE 0", st)
    end.

(** [delete_item(item_id)] *)
Definition delete_item (item_id : Z) (st : store) : reply unit * store :=
  let st := ensure st in
  let '(result, st) := execute_delete item_id st in
  match result with
  | Raise e => (Propagates e, st)
  | Return result =>
      if String.eqb result "DELETE 0" then
        (Fails {| status_code := 404; http_detail := ItemNotFound item_id |}, st)
      else (Returns tt, st)
  end.

(** [update_item] on the store: the statement does not touch the
    sequence, and its last argument is the id, an integer. *)
Definition update (env : Env) (item_id : Z) (item : ItemUpdate.t) (st : store)
  : outcome * store :=
  match update_fields (collect item) with
  | _ :: _ =>
      if negb (int4 item_id) then
        (Items.Propagates (OtherError "DataError"), ensure st)
      else
        let '(o, db) := update_item env item_id item (tables st) in
        (o, {| tables := db; next_id := next_id (ensure st) |})
  | [] =>
      let '(o, db) := update_item env item_id item (tables st) in
      (o, {| tables := db; next_id := next_id (ensure st) |})
  end.

(** The requests of the resource, and a run of the service: each request
    is served in its own environment (its own clock), on the database the
    request before it left. *)
Inductive request : Type :=
| Post (item : ItemCreate.t)
| GetList (skip limit : Z) (active_only : bool)
| GetOne (item_id : Z)
| Put (item_id : Z) (item : ItemUpdate.t)
| Delete (item_id : Z).

Definition handle (st : store) (r : Env * request) : store :=
  let '(env, r) := r in
  match r with
  | Post item => snd (create_item env item st)
  | GetList skip limit active_only => snd (list_items skip limit active_only st)
  | GetOne item_id => snd (get_item item_id st)
  | Put item_id item => snd (update env item_id item st)
  | Delete item_id => snd (delete_item item_id st)
  end.

Definition serve (rs : list (Env * request)) (st : store) : store :=
  fold_left handle rs st.

(** A database in which the table has not been created. *)
Definition empty_database : store := {| tables := None; next_id := 1 |}.

(** Every row has an id the sequence has given out. *)
Definition below_sequence (st : store) : Prop :=
  1 <= next_id st /\
  forall j, is_Some (items st !! j) -> 1 <= j < next_id st.

End ItemsCrud.

(** ** [config.py], [db/connection.py] and the lifespan of [main.py] *)

Module Connection.
Import Py.

(** The database fields of [Settings] with their defaults. *)
Record Settings : Type := {
  db_host : string;
  db_port : Z;
  db_name : string;
  db_user : string;
  db_password : string;
  db_pool_min_size : Z;
  db_pool_max_size : Z
}.

Definition default_settings : Settings :=
  {| db_host := "localhost";
     db_port := 5432;
     db_name := "postgres";
     db_user := "postgres";
     db_password := "";
     db_pool_min_size := 5;
     db_pool_max_size := 20 |}.

(** The keyword arguments of [asyncpg.create_pool]. *)
Record pool_args : Type := {
  host : string;
  port : Z;
  database : string;
  user : string;
  password : string;
  min_size : Z;
  max_size : Z;
  command_timeout : Z
}.

(** A pool, told apart by the number of the [create_pool] call that made
    it. *)
Definition Pool : Type := nat.

(** What the module meets: [get_settings()], which raises when the
    environment variables do not validate, and asyncpg: whether the n-th
    call of [create_pool] raises, and whether closing a pool raises. *)
Record Env : Type := {
  get_settings : result Settings;
  create_pool_raises : pool_args -> nat -> option exn;
  close_raises : Pool -> option exn
}.

(** The module's global [_pool], and on asyncpg's side the number of
    [create_pool] calls made and the pools that are open. *)
Record state : Type := {
  _pool : option Pool;
  calls : nat;
  open_pools : list Pool
}.

(** The module as imported. *)
Definition initial : state := {| _pool := None; calls := 0; open_pools := [] |}.

Definition args_of (s : Settings) : pool_args :=
  {| host := db_host s;
     port := db_port s;
     database := db_name s;
     user := db_user s;
     password := db_password s;
     min_size := db_pool_min_size s;
     max_size := db_pool_max_size s;
     command_timeout := 60 |}.

(** [get_pool()] *)
Definition get_pool (env : Env) (st : state) : result Pool * state :=
  match _pool st with
  | None =>
      match get_settings env with
      | Raise e => (Raise e, st)
      | Return settings =>
          match create_pool_raises env (args_of settings) (calls st) with
          | Some e =>
              (Raise e,
               {| _pool := None; calls := S (calls st);
                  open_pools := open_pools st |})
          | None =>
              let pool := calls st in
              (Return pool,
               {| _pool := Some pool; calls := S (calls st);
                  open_pools := (open_pools st ++ [pool])%list |})
          end
      end
  | Some pool => (Return pool, st)
  end.

(** [close_pool()]; a [close] that raises leaves the pool as it was. *)
Definition close_pool (env : Env) (st : state) : result unit * state :=
  match _pool st with
  | Some pool =>
      match close_raises env pool with
      | Some e => (Raise e, st)
      | None =>
          (Return tt,
           {| _pool := None; calls := calls st;
              open_pools := filter (fun p => p <> pool) (open_pools st) |})
      end
  | None => (Return tt, st)
  end.

(** What the lifespan prints. *)
Inductive printed : Type :=
| Initialized
| Warning (e : exn)
| Closed.

(** [lifespan(app)]: the pool is asked for at startup, a failure is
    printed and not raised; the application serves; the pool is closed at
    shutdown. *)
Definition lifespan (env : Env) (serve : state -> state) (st : state)
  : result unit * state * list printed :=
  let '(started, st) := get_pool env st in
  let out :=
    match started with
    | Return _ => [Initialized]
    | Raise e => [Warning e]
    end in
  let st := serve st in
  match close_pool env st with
  | (Return _, st) => (Return tt, st, (out ++ [Closed])%list)
  | (Raise e, st) => (Raise e, st, out)
  end.

(** What the module is asked to do between startup and shutdown, by
    calls that do not overlap. *)
Inductive call : Type :=
| GetPool
| ClosePool.

Definition step (env : Env) (st : state) (c : call) : state :=
  match c with
  | GetPool => snd (get_pool env st)
  | ClosePool => snd (close_pool env st)
  end.

(** A sequence of calls, one after the other. *)
Definition run (env : Env) (cs : list call) (st : state) : state :=
  fold_left (step env) cs st.

End Connection.

(** ** Calls of [get_pool] that overlap

    [get_pool] is a coroutine: a call that finds [_pool] None stops at
    [await asyncpg.create_pool(...)], and other calls run until asyncpg
    answers.  A call that finds a pool does not stop: it returns at
    once. *)

Module ConnectionTasks.
Import Py Connection.

(** The module's state, and the calls that wait for [create_pool], each
    with the arguments and the number of its [create_pool] call. *)
Record tasks : Type := {
  shared : state;
  waiting : list (pool_args * nat)
}.

(** What the event loop does next: a new call of [get_pool] runs up to
    its [await] or to its [return], or asyncpg answers the k-th waiting
    call, which then assigns [_pool] and returns, or raises. *)
Inductive move : Type :=
| Enter
| Resume (k : nat).

Definition enter (env : Env) (ts : tasks) : tasks :=
  let st := shared ts in
  match _pool st with
  | Some _ => ts
  | None =>
      match get_settings env with
      | Raise _ => ts
      | Return settings =>
          {| shared := {| _pool := _pool st; calls := S (calls st);
                          open_pools := open_pools st |};
             waiting := (waiting ts ++ [(args_of settings, calls st)])%list |}
      end
  end.

Definition resume (env : Env) (k : nat) (ts : tasks) : tasks :=
  let st := shared ts in
  match waiting ts !! k with
  | None => ts
  | Some (args, n) =>
      let rest := delete k (waiting ts) in
      match create_pool_raises env args n with
      | Some _ => {| shared := st; waiting := rest |}
      | None =>
          {| shared := {| _pool := Some n; calls := calls st;
                          open_pools := (open_pools st ++ [n])%list |};
             waiting := rest |}
      end
  end.

Definition play_one (env : Env) (ts : tasks) (m : move) : tasks :=
  match m with
  | Enter => enter env ts
  | Resume k => resume env k ts
  end.

(** A schedule, move by move. *)
Definition play (env : Env) (ms : list move) (ts : tasks) : tasks :=
  fold_left (play_one env) ms ts.

(** No call is waiting. *)
Definition idle (st : state) : tasks := {| shared := st; waiting := [] |}.

End ConnectionTasks.

(** ** What the properties of the pool speak of *)

Module ConnectionSpec.
Import Py Connection.

(** The pools that are open are the pool the module holds, and a pool is
    older than the next [create_pool] call. *)
Definition tidy (st : state) : Prop :=
  open_pools st = option_list (_pool st) /\
  forall p, _pool st = Some p -> (p < calls st)%nat.

(** The pool [p] is open and the module does not hold it. *)
Definition lost (p : Pool) (st : state) : Prop :=
  p ∈ open_pools st /\ _pool st <> Some p /\ (p < calls st)%nat.

End ConnectionSpec.

(** ** What the further properties of the backup report speak of *)

Module BackupsEdgeSpec.
Import Py Pydantic Backups.

(** Every character of the text is whitespace. *)
Fixpoint blank (s : string) : bool :=
  match s with
  | EmptyString => true
  | String c s' => isspace c && blank s'
  end.

(** The last character of [String c s]. *)
Fixpoint last_char (c : ascii) (s : string) : ascii :=
  match s with
  | EmptyString => c
  | String c' s' => last_char c' s'
  end.

(** The text neither starts nor ends with whitespace. *)
Definition trimmed (s : string) : bool :=
  match s with
  | EmptyString => true
  | String c s' => negb (isspace c) && negb (isspace (last_char c s'))
  end.

(** The values [status] takes in the handler. *)
Definition statuses : list string :=
  ["ok"; "missing_stanza"; "no_backup"; "error";
   "unavailable"; "no_stanza"; "timeout"; "not_installed"; "parse_error"].

(** The statuses of the reports that are made without an info block. *)
Definition degraded_statuses : list string :=
  ["unavailable"; "no_stanza"; "timeout"; "not_installed"; "parse_error"].

(** The archive range an archive entry holds: the text under each key,
    nothing for a key that is absent or null. *)
Definition range_of (entry : list (string * value)) : result WALArchiveInfo :=
  new_WALArchiveInfo
    (match dict_lookup "min" entry with Some v => v | None => PyNone end)
    (match dict_lookup "max" entry with Some v => v | None => PyNone end).

End BackupsEdgeSpec.

(** ** What the further properties of the metrics speak of *)

Module MetricsEdgeSpec.
Import Py Metrics.

(** The environment with another answer to the lag query. *)
Definition with_lag (env : Env) (lag : result (option Z)) : Env :=
  {| db_size := db_size env;
     conn_info := conn_info env;
     txn_stats := txn_stats env;
     in_recovery := in_recovery env;
     lag_result := lag;
     now := now env |}.

(** The queries before the lag query answer. *)
Definition answers_before_lag (env : Env) : Prop :=
  (exists size, db_size env = Return size) /\
  (exists ci, conn_info env = Return ci) /\
  (exists ts, txn_stats env = Return ts).

(** The exception of the first query that raises, in the order in which
    the handler makes its queries; the lag query is made on a standby
    only.  (The connection is acquired inside the same [try]: a failure
    to acquire it is, for the handler, a failure of its first step.) *)
Definition first_failure (env : Env) : option exn :=
  match db_size env with
  | Raise e => Some e
  | Return _ =>
      match conn_info env with
      | Raise e => Some e
      | Return _ =>
          match txn_stats env with
          | Raise e => Some e
          | Return _ =>
              match in_recovery env with
              | Raise e => Some e
              | Return true =>
                  match lag_result env with
                  | Raise e => Some e
                  | Return _ => None
                  end
              | Return false => None
              end
          end
      end
  end.

End MetricsEdgeSpec.

(** ** Floats against whole numbers *)

Module FloatSpec.
Import Py.

(** The float is a number from 0 to the int [k]: a zero, or a positive
    finite float whose exact value is at most [k]. *)
Definition between_0_and (k : Z) (f : float) : bool :=
  match f with
  | S754_zero _ => true
  | S754_finite false m e =>
      if 0 <=? e then Z.pos m * 2 ^ e <=? k else Z.pos m <=? k * 2 ^ (- e)
  | _ => false
  end.

End FloatSpec.

(** ** Floats as numbers *)

Module FloatValueSpec.
Import Py.
Import QArith.

(** The number a float stands for: [m * 2^e] with its sign, 0 for a
    zero. *)
Definition float_value (f : float) : Q :=
  match f with
  | S754_finite s m e => ((if s then -1 else 1) * inject_Z (Z.pos m) * 2 ^ e)%Q
  | _ => 0%Q
  end.

(** The float with the mantissa [m] and the exponent [e], for [m] that
    is not negative. *)
Definition float_of (m e : Z) : float :=
  match m with
  | Z.pos p => S754_finite false p e
  | _ => S754_zero false
  end.

End FloatValueSpec.


(** ** More sample requests *)

Module CrudSamples.
Import Py Items ItemsCrud.

(** The two-row table of [Samples] after two inserts. *)
Definition shop : store :=
  {| tables := Some Samples.two_items; next_id := 3 |}.

(** The request body [{"name": "Sprocket", "price": 5}] *)
Definition sprocket : ItemCreate.t :=
  {| ItemCreate.name := "Sprocket";
     ItemCreate.description := None;
     ItemCreate.price := Samples.float_5;
     ItemCreate.is_active := true |}.

(** The item the database makes of it *)
Definition sprocket_item : Item.t :=
  {| Item.id := 3; Item.name := "Sprocket"; Item.description := None;
     Item.price := Samples.float_5; Item.is_active := true;
     Item.created_at := 1736942400000000;
     Item.updated_at := 1736942400000000 |}.

(** The item of the same request made once more *)
Definition second_sprocket_item : Item.t :=
  {| Item.id := 4; Item.name := "Sprocket"; Item.description := None;
     Item.price := Samples.float_5; Item.is_active := true;
     Item.created_at := 1736942400000000;
     Item.updated_at := 1736942400000000 |}.

(** The widget after [{"price": 5}] *)
Definition repriced_widget : Item.t :=
  {| Item.id := 1; Item.name := "Widget"; Item.description := Some "A test item";
     Item.price := Samples.float_5; Item.is_active := true;
     Item.created_at := 1700000000000000;
     Item.updated_at := 1736942400000000 |}.

(** The two rows as items: 29.99 and 1.0 are the floats nearest to the
    prices. *)
Definition widget_item : Item.t :=
  {| Item.id := 1; Item.name := "Widget"; Item.description := Some "A test item";
     Item.price := S754_finite false 8441434551552573 (-48);
     Item.is_active := true;
     Item.created_at := 1700000000000000;
     Item.updated_at := 1700000000000000 |}.

Definition gadget_item : Item.t :=
  {| Item.id := 2; Item.name := "Gadget"; Item.description := None;
     Item.price := S754_finite false 4503599627370496 (-52);
     Item.is_active := false;
     Item.created_at := 1700000001000000;
     Item.updated_at := 1700000001000000 |}.

End CrudSamples.

Module PoolSamples.
Import Py Connection.

(** A database that is up, and one that refuses the first connection. *)
Definition asyncpg_up : Env :=
  {| get_settings := Return default_settings;
     create_pool_raises := fun _ _ => None;
     close_raises := fun _ => None |}.

Definition asyncpg_late : Env :=
  {| get_settings := Return default_settings;
     create_pool_raises :=
       fun _ n => match n with
                  | O => Some (OtherError "ConnectionRefusedError")
                  | _ => None
                  end;
     close_raises := fun _ => None |}.

End PoolSamples.

Module EdgeSamples.
Import Py.

(** A backup list whose second entry holds a text where the timestamps
    should be and whose third holds a text as its start time, and an
    archive list of two ranges. *)
Definition readable_entry : value :=
  PyDict [("label", PyStr "A"); ("type", PyStr "full");
          ("timestamp", PyDict [("start", PyInt 90); ("stop", PyInt 100)])].

Definition text_for_timestamps : value :=
  PyDict [("label", PyStr "B"); ("type", PyStr "full");
          ("timestamp", PyStr "yesterday")].

Definition text_for_start : value :=
  PyDict [("label", PyStr "C"); ("type", PyStr "full");
          ("timestamp", PyDict [("start", PyStr "noon")])].

Definition broken_entries : list value :=
  [readable_entry; text_for_timestamps; text_for_start].

Definition broken_block : list (string * value) :=
  [("status", PyDict [("code", PyInt 0); ("message", PyStr "ok")]);
   ("backup", PyList broken_entries)].

Definition two_ranges_block : list (string * value) :=
  [("status", PyDict [("code", PyInt 0); ("message", PyStr "ok")]);
   ("archive", PyList [PyDict [("min", PyStr "000000010000000000000001");
                               ("max", PyStr "000000010000000000000010")];
                       PyDict [("min", PyStr "000000020000000000000011");
                               ("max", PyStr "000000020000000000000020")]])].

Definition edge_table : list (string * value) :=
  [("broken", PyList [PyDict broken_block]);
   ("two ranges", PyList [PyDict two_ranges_block])].

Definition edge_env (run : result Backups.CompletedProcess) : Backups.Env :=
  {| Backups.pgbackrest_stanza := "pgha-dev-postgres";
     Backups.subprocess_run := fun _ _ => run;
     Backups.json_loads := Samples.sample_loads edge_table;
     Backups.lax_int := fun _ => None;
     Backups.now := 1736942400000000 |}.

(** A standby that is 4096 bytes behind, and a database whose statistics
    view has no row for it. *)
Definition standby : Metrics.Env :=
  {| Metrics.db_size := Return (Some 7654321);
     Metrics.conn_info :=
       Return {| Metrics.row_active_connections := Some 5;
                 Metrics.row_max_connections := Some 20 |};
     Metrics.txn_stats :=
       Return (Some {| Metrics.committed := None;
                       Metrics.rolled_back := Some 1;
                       Metrics.blks_read := Some 1;
                       Metrics.blks_hit := Some 9 |});
     Metrics.in_recovery := Return true;
     Metrics.lag_result := Return (Some 4096);
     Metrics.now := 1736942400000000 |}.

Definition no_stats : Metrics.Env :=
  {| Metrics.db_size := Return (Some 7654321);
     Metrics.conn_info :=
       Return {| Metrics.row_active_connections := Some 5;
                 Metrics.row_max_connections := Some 20 |};
     Metrics.txn_stats := Return None;
     Metrics.in_recovery := Return false;
     Metrics.lag_result := Return None;
     Metrics.now := 1736942400000000 |}.

End EdgeSamples.

(** * Properties *)

(** ** Exceptions and the monad *)

Module PyProps.
Import Py.

Lemma bind_Return {A B : Type} (c : result A) (k : A -> result B) (b : B) :
  bind c k = Return b -> exists a, c = Return a /\ k a = Return b.
Proof. destruct c as [a | e]; cbn; [eauto | discriminate]. Qed.

Lemma bind_Raise {A B : Type} (c : result A) (k : A -> result B) (e : exn) :
  bind c k = Raise e -> c = Raise e \/ exists a, c = Return a /\ k a = Raise e.
Proof. destruct c as [a | e']; cbn; [eauto | intros [= ->]; auto]. Qed.

End PyProps.


(** ** Floats: a quotient of bounded ints is a float *)

Module FloatProps.
Import Py.

Lemma fexp_eq e : fexp prec emax e = Z.max (e - 53) (-1074).
Proof. reflexivity. Qed.

Lemma digits2_pos_size p : digits2_pos p = Pos.size p.
Proof. induction p; cbn; congruence. Qed.

(** The number of binary digits, through [Z.log2]. *)
Lemma Zdigits2_log2 m : 0 < m -> Zdigits2 m = Z.log2 m + 1.
Proof.
  destruct m as [| p | p]; try lia. intros _. cbn [Zdigits2].
  rewrite digits2_pos_size. destruct p; cbn; lia.
Qed.

Lemma Zdigits2_nonneg m : 0 <= Zdigits2 m.
Proof. destruct m; cbn; lia. Qed.

Lemma Zdigits2_le m n : 0 <= m <= n -> Zdigits2 m <= Zdigits2 n.
Proof.
  intros [Hm Hmn]. destruct (Z.eq_dec m 0) as [-> | Hm0].
  - apply Zdigits2_nonneg.
  - rewrite !Zdigits2_log2 by lia. apply Z.add_le_mono_r, Z.log2_le_mono. lia.
Qed.

Lemma Zdigits2_succ m : 0 <= m -> Zdigits2 (m + 1) <= Zdigits2 m + 1.
Proof.
  intros Hm. destruct (Z.eq_dec m 0) as [-> | Hm0]; [change (1 <= 0 + 1); lia |].
  rewrite !Zdigits2_log2 by lia.
  pose proof (Z.log2_succ_le m) as Hl. rewrite <- Z.add_1_r in Hl. lia.
Qed.

Lemma shiftl_pos m s : 0 < m -> 0 <= s -> 0 < Z.shiftl m s.
Proof.
  intros Hm Hs. rewrite Z.shiftl_mul_pow2 by exact Hs.
  apply Z.mul_pos_pos; [exact Hm | apply Z.pow_pos_nonneg; lia].
Qed.

Lemma Zdigits2_shiftl m s : 0 < m -> 0 <= s -> Zdigits2 (Z.shiftl m s) = Zdigits2 m + s.
Proof.
  intros Hm Hs.
  assert (0 < Z.shiftl m s) by (apply shiftl_pos; lia).
  rewrite !Zdigits2_log2 by lia. rewrite Z.log2_shiftl by lia. lia.
Qed.

Lemma Zdigits2_shiftr m n :
  0 <= m -> 0 <= n -> 0 < Z.shiftr m n -> Zdigits2 (Z.shiftr m n) + n = Zdigits2 m.
Proof.
  intros Hm Hn Hpos.
  assert (0 < m).
  { destruct (Z.eq_dec m 0) as [-> | ]; [rewrite Z.shiftr_0_l in Hpos |]; lia. }
  rewrite !Zdigits2_log2 by lia. rewrite Z.log2_shiftr by lia.
  assert (0 < Z.log2 (Z.shiftr m n) \/ Z.log2 (Z.shiftr m n) = 0)
    by (pose proof (Z.log2_nonneg (Z.shiftr m n)); lia).
  rewrite Z.log2_shiftr in * by lia.
  destruct (Z.max_spec 0 (Z.log2 m - n)) as [[? ->] | [Hle Hmax]]; [lia |].
  rewrite Hmax.
  (* the shifted value is positive, so [n <= log2 m] *)
  assert (n <= Z.log2 m); [| lia].
  destruct (Z.le_gt_cases n (Z.log2 m)) as [? | Hgt]; [assumption |].
  rewrite Z.shiftr_eq_0 in Hpos; lia.
Qed.

(** One shift to the right halves the mantissa. *)
Lemma shr_1_m mrs : 0 <= shr_m mrs -> shr_m (shr_1 mrs) = Z.div2 (shr_m mrs).
Proof.
  destruct mrs as [m r s]. cbn [shr_m].
  destruct m as [| [p | p |] | p]; cbn; try lia; reflexivity.
Qed.

Lemma iter_shr_1_m p : forall mrs,
  0 <= shr_m mrs ->
  shr_m (SpecFloat.iter_pos shr_1 p mrs) = Z.shiftr (shr_m mrs) (Z.pos p).
Proof.
  induction p as [p IH | p IH |]; intros mrs Hm; cbn [SpecFloat.iter_pos].
  - assert (H1 : shr_m (shr_1 mrs) = Z.div2 (shr_m mrs)) by now apply shr_1_m.
    assert (H1n : 0 <= shr_m (shr_1 mrs))
      by (rewrite H1; now apply Z.div2_nonneg).
    assert (H2 : shr_m (SpecFloat.iter_pos shr_1 p (shr_1 mrs))
                 = Z.shiftr (Z.div2 (shr_m mrs)) (Z.pos p))
      by (rewrite IH, H1; auto).
    assert (H2n : 0 <= shr_m (SpecFloat.iter_pos shr_1 p (shr_1 mrs)))
      by (rewrite H2; apply Z.shiftr_nonneg; now apply Z.div2_nonneg).
    rewrite IH by exact H2n. rewrite H2.
    rewrite Z.div2_spec, !Z.shiftr_shiftr by lia. f_equal. lia.
  - assert (H2n : 0 <= shr_m (SpecFloat.iter_pos shr_1 p mrs))
      by (rewrite IH by exact Hm; now apply Z.shiftr_nonneg).
    rewrite IH by exact H2n. rewrite IH by exact Hm.
    rewrite Z.shiftr_shiftr by lia. f_equal. lia.
  - rewrite shr_1_m by exact Hm. apply Z.div2_spec.
Qed.

(** What [shr_fexp] leaves: the exponent raised to the format's, the
    mantissa shifted by the difference. *)
Lemma shr_fexp_spec m e l :
  0 <= m ->
  exists mrs e',
    shr_fexp prec emax m e l = (mrs, e') /\
    e' = Z.max e (fexp prec emax (Zdigits2 m + e)) /\
    shr_m mrs = Z.shiftr m (e' - e).
Proof.
  intros Hm. unfold shr_fexp, shr.
  set (f := fexp prec emax (Zdigits2 m + e)).
  assert (Hs : shr_m (shr_record_of_loc m l) = m)
    by (destruct l as [| []]; reflexivity).
  destruct (f - e) as [| p | p] eqn:E.
  - do 2 eexists. split; [reflexivity |]. split; [lia |].
    rewrite Hs, Z.sub_diag. symmetry. apply Z.shiftr_0_r.
  - do 2 eexists. split; [reflexivity |]. split; [lia |].
    rewrite iter_shr_1_m by (rewrite Hs; exact Hm). rewrite Hs.
    f_equal. lia.
  - do 2 eexists. split; [reflexivity |]. split; [lia |].
    rewrite Hs, Z.sub_diag. symmetry. apply Z.shiftr_0_r.
Qed.

Lemma round_nearest_even_bounds m l :
  m <= round_nearest_even m l <= m + 1.
Proof.
  unfold round_nearest_even. destruct l as [| []]; try destruct (Z.even m); lia.
Qed.

(** Rounding a value below [2^1023] does not reach the infinities. *)
Lemma binary_round_aux_finite s m e l :
  0 <= m -> e <= 971 -> Zdigits2 m + e <= 1023 ->
  forall s', binary_round_aux prec emax s m e l <> S754_infinity s'.
Proof.
  intros Hm He Hd s'. unfold binary_round_aux.
  destruct (shr_fexp_spec m e l Hm) as (mrs1 & e1 & -> & He1 & Hm1).
  set (m1 := round_nearest_even (shr_m mrs1) (loc_of_shr_record mrs1)).
  assert (H1 : 0 <= shr_m mrs1) by (rewrite Hm1; apply Z.shiftr_nonneg; exact Hm).
  pose proof (round_nearest_even_bounds (shr_m mrs1) (loc_of_shr_record mrs1)) as Hb.
  fold m1 in Hb.
  destruct (shr_fexp_spec m1 e1 loc_Exact ltac:(lia)) as (mrs2 & e2 & -> & He2 & Hm2).
  rewrite fexp_eq in He1, He2.
  assert (Hd1 : Zdigits2 m1 + e1 <= 1024).
  { transitivity (Zdigits2 (shr_m mrs1 + 1) + e1).
    - apply Z.add_le_mono_r, Zdigits2_le. lia.
    - pose proof (Zdigits2_succ _ H1).
      destruct (Z.eq_dec (shr_m mrs1) 0) as [E0 | E0].
      + rewrite E0. change (Zdigits2 (0 + 1)) with 1. lia.
      + assert (Hn : 0 <= e1 - e) by lia.
        assert (Hp : 0 < Z.shiftr m (e1 - e)) by (rewrite <- Hm1; lia).
        pose proof (Zdigits2_shiftr m (e1 - e) Hm Hn Hp) as Hsh.
        rewrite <- Hm1 in Hsh. lia. }
  destruct (shr_m mrs2); try discriminate.
  destruct (Z.leb_spec e2 (emax - prec)); [discriminate |].
  unfold emax, prec in *. lia.
Qed.

(** A quotient of ints is a float unless the divisor is zero or the
    dividend beyond [2^1023]. *)
Lemma truediv_returns a b :
  b <> 0 -> Z.abs a < 2 ^ 1023 -> exists q, truediv a b = Return q.
Proof.
  intros Hb Ha. unfold truediv.
  destruct (Z.eqb_spec b 0) as [| _]; [contradiction |].
  destruct (Z.eqb_spec a 0) as [| Ha0]; [eauto |].
  set (pa := Z.to_pos (Z.abs a)). set (pb := Z.to_pos (Z.abs b)).
  assert (Hpa : Z.pos pa = Z.abs a) by (unfold pa; lia).
  assert (Hpb : Z.pos pb = Z.abs b) by (unfold pb; lia).
  match goal with
  | |- exists q, match ?d with _ => _ end = _ =>
      assert (Hfin : forall s', d <> S754_infinity s'); [| destruct d; eauto; now destruct (Hfin s)]
  end.
  intros s'. unfold SFdiv, SFdiv_core_binary.
  set (e' := Z.min (fexp prec emax (Zdigits2 (Z.pos pa) + 0 - (Zdigits2 (Z.pos pb) + 0))) (0 - 0)).
  set (m' := match 0 - 0 - e' with
             | 0 => Z.pos pa
             | Z.pos _ => Z.shiftl (Z.pos pa) (0 - 0 - e')
             | Z.neg _ => 0
             end).
  assert (He' : e' <= 0) by (unfold e'; lia).
  assert (Hm' : m' = Z.shiftl (Z.pos pa) (- e')).
  { unfold m'. replace (0 - 0 - e') with (- e') by lia.
    destruct (- e') eqn:E; try lia; reflexivity. }
  pose proof (Z_div_mod m' (Z.pos pb) ltac:(lia)) as Hdm.
  destruct (Z.div_eucl m' (Z.pos pb)) as [q r]. destruct Hdm as [Hq Hr].
  assert (Hm'pos : 0 < m') by (rewrite Hm'; apply shiftl_pos; lia).
  assert (Hq0 : 0 <= q) by nia.
  assert (Hqm : q <= m') by nia.
  apply binary_round_aux_finite; [exact Hq0 | lia |].
  transitivity (Zdigits2 m' + e').
  - apply Z.add_le_mono_r, Zdigits2_le. lia.
  - rewrite Hm', Zdigits2_shiftl by lia.
    rewrite Zdigits2_log2 by lia.
    assert (Z.log2 (Z.pos pa) < 1023); [| lia].
    apply Z.log2_lt_pow2; lia.
Qed.

End FloatProps.
(** ** The backup-status endpoint *)

Module BackupsProps.
Import Py Pydantic Backups BackupsSpec PyProps.

(** *** No step of the normal path raises what an earlier clause takes *)

Lemma get_uncaught v k d e : get v k d = Raise e -> caught e = false.
Proof. destruct v; cbn; intros [= <-]; reflexivity. Qed.

Lemma getitem0_uncaught v e : getitem0 v = Raise e -> caught e = false.
Proof.
  destruct v as [| | | | s | l | d]; cbn; try (intros [= <-]; reflexivity).
  - destruct s; intros [= <-]; reflexivity.
  - destruct l; intros [= <-]; reflexivity.
Qed.

Lemma iter_uncaught v e : iter v = Raise e -> caught e = false.
Proof. destruct v; cbn; intros [= <-]; reflexivity. Qed.

Lemma datetime_of_uncaught sec us e : datetime_of sec us = Raise e -> caught e = false.
Proof.
  unfold datetime_of.
  destruct (_ && _); intros [= <-]; reflexivity.
Qed.

Lemma fromtimestamp_uncaught ts e : fromtimestamp ts = Raise e -> caught e = false.
Proof.
  destruct ts as [| b | n | f | s | l | d]; cbn;
    try (intros [= <-]; reflexivity); try apply datetime_of_uncaught.
  unfold datetime_of_float.
  destruct f as [s | s | | s m x]; try (intros [= <-]; reflexivity);
    try apply datetime_of_uncaught.
  repeat match goal with
         | |- context [if ?c then _ else _] => destruct c
         end; apply datetime_of_uncaught.
Qed.

Lemma parse_timestamp_uncaught ts e :
  parse_pgbackrest_timestamp ts = Raise e -> caught e = false.
Proof.
  unfold parse_pgbackrest_timestamp.
  destruct ts; try discriminate;
    (match goal with |- context [fromtimestamp ?v] =>
       destruct (fromtimestamp v) eqn:E end);
    cbn [bind]; try discriminate; intros [= <-];
    eauto using fromtimestamp_uncaught.
Qed.

Lemma validate_str_uncaught v e : validate_str v = Raise e -> caught e = false.
Proof. destruct v; cbn; intros [= <-]; reflexivity. Qed.

Lemma validate_optional_str_uncaught v e :
  validate_optional_str v = Raise e -> caught e = false.
Proof. destruct v; cbn; intros [= <-]; reflexivity. Qed.

Lemma validate_optional_int_uncaught f v e :
  validate_optional_int f v = Raise e -> caught e = false.
Proof.
  destruct v; cbn; try destruct (f _); intros [= <-]; reflexivity.
Qed.

Lemma new_WALArchiveInfo_uncaught a b e :
  new_WALArchiveInfo a b = Raise e -> caught e = false.
Proof.
  unfold new_WALArchiveInfo. intros H.
  apply bind_Raise in H as [H | (x & _ & H)];
    [eauto using validate_optional_str_uncaught |].
  apply bind_Raise in H as [H | (y & _ & H)];
    [eauto using validate_optional_str_uncaught | discriminate].
Qed.

Create HintDb uncaught.
#[local] Hint Resolve new_WALArchiveInfo_uncaught get_uncaught getitem0_uncaught iter_uncaught
  parse_timestamp_uncaught validate_str_uncaught validate_optional_str_uncaught
  validate_optional_int_uncaught : uncaught.

(** Splits a chain of binds that raised into the step that raised. *)
Ltac raised H :=
  repeat match type of H with
         | bind _ _ = Raise _ =>
             let a := fresh "a" in
             apply bind_Raise in H as [H | (a & _ & H)];
             [solve [eauto with uncaught] |]
         end.

Lemma backup_info_of_uncaught env backup e :
  backup_info_of env backup = Raise e -> caught e = false.
Proof.
  unfold backup_info_of, new_BackupInfo. intros H. raised H. discriminate.
Qed.

Lemma loop_uncaught env entries st e :
  loop env st entries = Raise e -> caught e = false.
Proof.
  revert st. induction entries as [| backup rest IH]; intros st; cbn.
  - discriminate.
  - intros H. apply bind_Raise in H as [H | (st' & _ & H)]; [| eauto].
    unfold loop_body in H. destruct st as [[bs lf] ld].
    apply bind_Raise in H as [H | (b & _ & H)].
    + eauto using backup_info_of_uncaught.
    + destruct (track b lf ld). discriminate.
Qed.

Lemma wal_archive_of_uncaught stanza_info e :
  wal_archive_of stanza_info = Raise e -> caught e = false.
Proof.
  unfold wal_archive_of. intros H.
  apply bind_Raise in H as [H | (a & _ & H)]; [eauto with uncaught |].
  destruct (truthy a); [| discriminate].
  raised H. discriminate.
Qed.

Lemma report_of_uncaught env stanza_info e :
  report_of env stanza_info = Raise e -> caught e = false.
Proof.
  unfold report_of. intros H.
  do 6 (apply bind_Raise in H as [H | (? & _ & H)]; [solve [eauto with uncaught] |]).
  apply bind_Raise in H as [H | ([[bs lf] ld] & _ & H)];
    [eauto using loop_uncaught |].
  apply bind_Raise in H as [H | (w & _ & H)];
    [eauto using wal_archive_of_uncaught |].
  raised H. discriminate.
Qed.

(** *** The branches of the handler *)

(** How the [try] body unfolds along the subprocess's outcome. *)
Lemma try_body_raises env e :
  run_pgbackrest env = Raise e -> try_body env = Raise e.
Proof. intros H. unfold try_body. now rewrite H. Qed.

Lemma try_body_nonzero env p :
  run_pgbackrest env = Return p -> returncode p <> 0 ->
  try_body env =
    Return (degraded env "unavailable"
              ("pgBackRest error: " +:+ str_or (strip (stderr p)) "Unknown error")).
Proof.
  intros H Hrc. unfold try_body. rewrite H. cbn [bind].
  destruct (Z.eqb_spec (returncode p) 0) as [E | E]; [contradiction | reflexivity].
Qed.

Lemma try_body_zero env p :
  run_pgbackrest env = Return p -> returncode p = 0 ->
  try_body env =
    (do info <- json_loads env (stdout p);
     if negb (truthy info) then
       Return (degraded env "no_stanza" "No stanza information available")
     else do stanza_info <- getitem0 info; report_of env stanza_info).
Proof.
  intros H Hrc. unfold try_body. rewrite H. cbn [bind]. now rewrite Hrc.
Qed.

(** A report returned from the [try] body is the handler's response. *)
Lemma responds_of_return env r :
  try_body env = Return r -> get_backup_status env = Responds r.
Proof. intros H. unfold get_backup_status. now rewrite H. Qed.

(** The handler fails only from the last [except] clause. *)
Lemma fails_inv env e :
  get_backup_status env = Fails e ->
  status_code e = 500 /\ detail_prefix e = "Failed to get backup status: " /\
  try_body env = Raise (detail_cause e) /\
  detail_cause e <> TimeoutExpired /\ detail_cause e <> FileNotFoundError /\
  forall msg, detail_cause e <> JSONDecodeError msg.
Proof.
  unfold get_backup_status.
  destruct (try_body env) as [r | x]; [discriminate |].
  destruct x; intros H; try discriminate;
    injection H as <-; cbn; repeat split; intros; (reflexivity || discriminate).
Qed.

(** [C1] Each expected failure of the backup tool is answered with a report
    and not raised: a missing executable gives the status not_installed, a
    timeout gives timeout, a non-zero exit gives unavailable, an output
    that is no JSON gives parse_error, each with no backup records.  When
    the handler raises, it raises an HTTP 500, and the cause is none of the
    four. *)
Theorem expected_failures_are_reported (env : Env) :
  (run_pgbackrest env = Raise FileNotFoundError ->
     exists r, get_backup_status env = Responds r /\
               status r = "not_installed" /\ backups r = []) /\
  (run_pgbackrest env = Raise TimeoutExpired ->
     exists r, get_backup_status env = Responds r /\
               status r = "timeout" /\ backups r = []) /\
  (forall p, run_pgbackrest env = Return p -> returncode p <> 0 ->
     exists r, get_backup_status env = Responds r /\
               status r = "unavailable" /\ backups r = []) /\
  (forall p msg, run_pgbackrest env = Return p -> returncode p = 0 ->
     json_loads env (stdout p) = Raise (JSONDecodeError msg) ->
     exists r, get_backup_status env = Responds r /\
               status r = "parse_error" /\ backups r = []) /\
  (forall e, get_backup_status env = Fails e ->
     status_code e = 500 /\
     run_pgbackrest env <> Raise FileNotFoundError /\
     run_pgbackrest env <> Raise TimeoutExpired /\
     forall p, run_pgbackrest env = Return p ->
       returncode p = 0 /\
       forall msg, json_loads env (stdout p) <> Raise (JSONDecodeError msg)).
Proof.
  repeat apply conj.
  - intros H. eexists. unfold get_backup_status.
    rewrite (try_body_raises _ _ H). cbn. auto.
  - intros H. eexists. unfold get_backup_status.
    rewrite (try_body_raises _ _ H). cbn. auto.
  - intros p H Hrc. eexists. split.
    + apply responds_of_return. exact (try_body_nonzero _ _ H Hrc).
    + cbn. auto.
  - intros p msg H Hrc Hj. eexists. unfold get_backup_status.
    rewrite (try_body_zero _ _ H Hrc), Hj. cbn. auto.
  - intros e He. apply fails_inv in He as (Hc & _ & Hb & Ht & Hf & Hj).
    split; [exact Hc |]. repeat apply conj.
    + intros H. apply try_body_raises in H. congruence.
    + intros H. apply try_body_raises in H. congruence.
    + intros p H. destruct (Z.eq_dec (returncode p) 0) as [Hrc | Hrc].
      * split; [exact Hrc |]. intros msg Hl.
        rewrite (try_body_zero _ _ H Hrc), Hl in Hb. cbn in Hb.
        injection Hb as Hb. exact (Hj msg (eq_sym Hb)).
      * rewrite (try_body_nonzero _ _ H Hrc) in Hb. discriminate.
Qed.

Lemma expected_failures_are_reported_witness :
  (exists r, get_backup_status (Samples.backups_env (Raise FileNotFoundError)) = Responds r /\
             status r = "not_installed" /\ backups r = []) /\
  (exists r, get_backup_status (Samples.backups_env (Raise TimeoutExpired)) = Responds r /\
             status r = "timeout" /\ backups r = []) /\
  (exists r, get_backup_status
               (Samples.backups_env (Samples.exits 1 "" Samples.stanza_not_found))
             = Responds r /\
             status r = "unavailable" /\ backups r = []) /\
  (exists r, get_backup_status (Samples.backups_env (Samples.exits 0 "not json" ""))
             = Responds r /\
             status r = "parse_error" /\ backups r = []).
Proof.
  repeat apply conj.
  - apply (proj1 (expected_failures_are_reported
                    (Samples.backups_env (Raise FileNotFoundError)))).
    reflexivity.
  - apply (proj1 (proj2 (expected_failures_are_reported
                           (Samples.backups_env (Raise TimeoutExpired))))).
    reflexivity.
  - apply (proj1 (proj2 (proj2 (expected_failures_are_reported
             (Samples.backups_env (Samples.exits 1 "" Samples.stanza_not_found)))))
             {| returncode := 1; stdout := ""; stderr := Samples.stanza_not_found |}).
    + reflexivity.
    + cbn. lia.
  - apply (proj1 (proj2 (proj2 (proj2 (expected_failures_are_reported
             (Samples.backups_env (Samples.exits 0 "not json" ""))))))
             {| returncode := 0; stdout := "not json"; stderr := "" |}
             "Expecting value: line 1 column 1 (char 0)"); reflexivity.
Defined.

(** [C4] Whatever non-zero code the subprocess exits with, the handler
    answers (it does not raise) with the status unavailable, no backup
    records and a message made of the stripped standard-error text;
    "Unknown error" stands in when that text is empty. *)
Theorem nonzero_exit_is_unavailable (env : Env) (p : CompletedProcess) :
  run_pgbackrest env = Return p ->
  returncode p <> 0 ->
  exists r,
    get_backup_status env = Responds r /\
    status r = "unavailable" /\
    backups r = [] /\
    status_message r =
      Some ("pgBackRest error: " +:+
            (if String.eqb (strip (stderr p)) "" then "Unknown error"
             else strip (stderr p))) /\
    (stderr p = "" -> status_message r = Some "pgBackRest error: Unknown error").
Proof.
  intros H Hrc. eexists. split.
  - apply responds_of_return. exact (try_body_nonzero _ _ H Hrc).
  - cbn. repeat split. intros ->. reflexivity.
Qed.

Lemma nonzero_exit_is_unavailable_witness :
  exists r,
    get_backup_status (Samples.backups_env (Samples.exits 1 "" Samples.stanza_not_found)) = Responds r /\
    status r = "unavailable" /\
    backups r = [] /\
    status_message r = Some "pgBackRest error: stanza not found" /\
    (Samples.stanza_not_found = "" ->
     status_message r = Some "pgBackRest error: Unknown error").
Proof.
  apply (nonzero_exit_is_unavailable
           (Samples.backups_env (Samples.exits 1 "" Samples.stanza_not_found))
           {| returncode := 1; stdout := ""; stderr := Samples.stanza_not_found |}).
  - reflexivity.
  - cbn. lia.
Defined.

(** A payload that is falsy takes the [if not info] branch. *)
Lemma falsy_payload env p info :
  run_pgbackrest env = Return p -> returncode p = 0 ->
  json_loads env (stdout p) = Return info -> truthy info = false ->
  get_backup_status env =
    Responds (degraded env "no_stanza" "No stanza information available").
Proof.
  intros H Hrc Hl Hf. apply responds_of_return.
  rewrite (try_body_zero _ _ H Hrc), Hl. cbn [bind]. now rewrite Hf.
Qed.

(** [C9] When the subprocess exits with zero and its output parses as an
    empty list or an empty object, the handler answers with the status
    no_stanza, the message "No stanza information available" and no backup
    records. *)
Theorem empty_payload_is_no_stanza (env : Env) (p : CompletedProcess) (info : value) :
  run_pgbackrest env = Return p ->
  returncode p = 0 ->
  json_loads env (stdout p) = Return info ->
  info = PyList [] \/ info = PyDict [] ->
  exists r,
    get_backup_status env = Responds r /\
    status r = "no_stanza" /\
    status_message r = Some "No stanza information available" /\
    backups r = [].
Proof.
  intros H Hrc Hl Hi. eexists. split.
  - apply (falsy_payload env p info H Hrc Hl). now destruct Hi as [-> | ->].
  - cbn. auto.
Qed.

Lemma empty_payload_is_no_stanza_witness :
  exists r,
    get_backup_status (Samples.backups_env (Samples.exits 0 "[]" "")) = Responds r /\
    status r = "no_stanza" /\
    status_message r = Some "No stanza information available" /\
    backups r = [].
Proof.
  apply (empty_payload_is_no_stanza
           (Samples.backups_env (Samples.exits 0 "[]" ""))
           {| returncode := 0; stdout := "[]"; stderr := "" |} (PyList [])).
  - reflexivity.
  - reflexivity.
  - reflexivity.
  - left. reflexivity.
Defined.


(** *** The normal path *)

(** On a truthy payload a response comes from [report_of]. *)
Lemma responds_normal env p info r :
  run_pgbackrest env = Return p -> returncode p = 0 ->
  json_loads env (stdout p) = Return info -> truthy info = true ->
  get_backup_status env = Responds r ->
  exists stanza_info,
    getitem0 info = Return stanza_info /\ report_of env stanza_info = Return r.
Proof.
  intros H Hrc Hl Ht. unfold get_backup_status.
  rewrite (try_body_zero _ _ H Hrc), Hl. cbn [bind]. rewrite Ht. cbn [negb].
  destruct (getitem0 info) as [stanza_info | e] eqn:E0; cbn [bind].
  - destruct (report_of env stanza_info) as [r' | e] eqn:E1.
    + intros [= <-]. eauto.
    + apply report_of_uncaught in E1. destruct e; try discriminate; discriminate E1.
  - apply getitem0_uncaught in E0. destruct e; try discriminate; discriminate E0.
Qed.

(** Every response is a degraded report or comes from [report_of]. *)
Lemma responds_inv env r :
  get_backup_status env = Responds r ->
  (exists status message, r = degraded env status message) \/
  (exists stanza_info, report_of env stanza_info = Return r).
Proof.
  unfold get_backup_status.
  destruct (try_body env) as [r' | e] eqn:E.
  - intros [= <-]. unfold try_body in E.
    apply bind_Return in E as (p & _ & E).
    destruct (negb (returncode p =? 0)); [injection E as <-; eauto |].
    apply bind_Return in E as (info & _ & E).
    destruct (negb (truthy info)); [injection E as <-; eauto |].
    apply bind_Return in E as (stanza_info & _ & E). eauto.
  - destruct e; try discriminate; intros [= <-]; eauto.
Qed.

(** What [report_of] returns holds what the loop left. *)
Lemma report_of_loop env stanza_info r :
  report_of env stanza_info = Return r ->
  exists entries,
    loop env ([], None, None) entries
    = Return (backups r, last_full_backup r, last_diff_backup r).
Proof.
  unfold report_of. intros H.
  do 6 (apply bind_Return in H as (? & _ & H)).
  apply bind_Return in H as ([[bs lf] ld] & Hloop & H).
  do 2 (apply bind_Return in H as (? & _ & H)).
  injection H as <-. cbn. eauto.
Qed.

(** [C10] When the output parses to a truthy value that is no list (an
    object, a non-zero number, true, a non-empty string), the handler
    raises: the exception of the lookup reaches the last [except] clause
    and leaves as an HTTP 500.  So a report is returned only for a payload
    that is falsy or a list. *)
Theorem unindexable_payload_fails
    (env : Env) (p : CompletedProcess) (info : value) :
  run_pgbackrest env = Return p ->
  returncode p = 0 ->
  json_loads env (stdout p) = Return info ->
  (truthy info = true -> (forall l, info <> PyList l) ->
   exists cause,
     get_backup_status env =
       Fails {| status_code := 500;
                detail_prefix := "Failed to get backup status: ";
                detail_cause := cause |}) /\
  (forall r, get_backup_status env = Responds r ->
     truthy info = false \/ exists l, info = PyList l).
Proof.
  intros H Hrc Hl.
  assert (Hfail : truthy info = true -> (forall l, info <> PyList l) ->
            exists cause,
              get_backup_status env =
                Fails {| status_code := 500;
                         detail_prefix := "Failed to get backup status: ";
                         detail_cause := cause |}).
  { intros Ht Hnl. unfold get_backup_status.
    rewrite (try_body_zero _ _ H Hrc), Hl. cbn [bind]. rewrite Ht. cbn [negb].
    destruct info as [| b | n | f | s | l | d]; cbn in Ht |- *;
      try discriminate; eauto.
    - destruct s as [| c s]; [discriminate | cbn; eauto].
    - now destruct (Hnl l). }
  split; [exact Hfail |].
  intros r Hr. destruct (truthy info) eqn:Ht; [right | now left].
  destruct info as [| b | n | f | s | l | d]; eauto;
    destruct Hfail as [cause Hc]; try reflexivity; try discriminate;
    congruence.
Qed.

Lemma unindexable_payload_fails_witness :
  (truthy (PyDict [("stanza", PyStr "main")]) = true ->
   (forall l, PyDict [("stanza", PyStr "main")] <> PyList l) ->
   exists cause,
     get_backup_status (Samples.backups_env (Samples.exits 0 "object" "")) =
       Fails {| status_code := 500;
                detail_prefix := "Failed to get backup status: ";
                detail_cause := cause |}) /\
  (forall r,
     get_backup_status (Samples.backups_env (Samples.exits 0 "object" "")) = Responds r ->
     truthy (PyDict [("stanza", PyStr "main")]) = false \/
     exists l, PyDict [("stanza", PyStr "main")] = PyList l).
Proof.
  apply (unindexable_payload_fails
           (Samples.backups_env (Samples.exits 0 "object" ""))
           {| returncode := 0; stdout := "object"; stderr := "" |}
           (PyDict [("stanza", PyStr "main")])); reflexivity.
Defined.

(** A JSON object and a number, run: the lookup [info[0]] raises and the
    handler answers with the 500. *)
Example object_payload_is_500 :
  get_backup_status (Samples.backups_env (Samples.exits 0 "object" ""))
  = Fails {| status_code := 500;
             detail_prefix := "Failed to get backup status: ";
             detail_cause := KeyError |}.
Proof. reflexivity. Qed.

Example number_payload_is_500 :
  get_backup_status (Samples.backups_env (Samples.exits 0 "7" ""))
  = Fails {| status_code := 500;
             detail_prefix := "Failed to get backup status: ";
             detail_cause := TypeError |}.
Proof. reflexivity. Qed.

(** *** The latest full and differential backups *)

Lemma track_advance b lf ld :
  track b lf ld = (advance "full" b lf, advance "diff" b ld).
Proof.
  unfold track, advance.
  destruct (String.eqb_spec (type b) "full") as [E | E].
  - rewrite E. cbn. destruct (stop_time b) as [t |]; [| reflexivity].
    destruct (later t lf); reflexivity.
  - destruct (String.eqb (type b) "diff"); [| reflexivity].
    destruct (stop_time b) as [t |]; [| reflexivity].
    destruct (later t ld); reflexivity.
Qed.

Lemma is_latest_nil ty : is_latest ty [] None.
Proof. intros b t Hb. now apply elem_of_nil in Hb. Qed.

(** One pass keeps the running maximum a maximum. *)
Lemma advance_latest ty b bs last :
  is_latest ty bs last -> is_latest ty (bs ++ [b]) (advance ty b last).
Proof.
  intros Hl. unfold advance.
  destruct (String.eqb_spec (type b) ty) as [Ety | Ety].
  - destruct (stop_time b) as [t |] eqn:Est.
    + destruct last as [m |]; cbn [later].
      * destruct Hl as [(b0 & Hin & Hb0) Hmax].
        destruct (Z.ltb_spec m t) as [Hlt | Hge].
        -- split.
           ++ exists b. split; [set_solver | now split].
           ++ intros b' t' Hin' Hs'.
              apply elem_of_app in Hin' as [Hin' | Hin'].
              ** specialize (Hmax _ _ Hin' Hs'). lia.
              ** apply list_elem_of_singleton in Hin' as ->.
                 destruct Hs' as [_ Hs']. rewrite Est in Hs'.
                 injection Hs' as <-. lia.
        -- split.
           ++ exists b0. split; [set_solver | exact Hb0].
           ++ intros b' t' Hin' Hs'.
              apply elem_of_app in Hin' as [Hin' | Hin'].
              ** exact (Hmax _ _ Hin' Hs').
              ** apply list_elem_of_singleton in Hin' as ->.
                 destruct Hs' as [_ Hs']. rewrite Est in Hs'.
                 injection Hs' as <-. exact Hge.
      * split.
        -- exists b. split; [set_solver | now split].
        -- intros b' t' Hin' Hs'.
           apply elem_of_app in Hin' as [Hin' | Hin'].
           ++ now destruct (Hl _ _ Hin' Hs').
           ++ apply list_elem_of_singleton in Hin' as ->.
              destruct Hs' as [_ Hs']. rewrite Est in Hs'.
              injection Hs' as <-. lia.
    + destruct last as [m |].
      * destruct Hl as [(b0 & Hin & Hb0) Hmax]. split.
        -- exists b0. split; [set_solver | exact Hb0].
        -- intros b' t' Hin' Hs'.
           apply elem_of_app in Hin' as [Hin' | Hin'].
           ++ exact (Hmax _ _ Hin' Hs').
           ++ apply list_elem_of_singleton in Hin' as ->.
              destruct Hs' as [_ Hs']. congruence.
      * intros b' t' Hin' Hs'.
        apply elem_of_app in Hin' as [Hin' | Hin'].
        -- exact (Hl _ _ Hin' Hs').
        -- apply list_elem_of_singleton in Hin' as ->.
           destruct Hs' as [_ Hs']. congruence.
  - destruct last as [m |].
    + destruct Hl as [(b0 & Hin & Hb0) Hmax]. split.
      * exists b0. split; [set_solver | exact Hb0].
      * intros b' t' Hin' Hs'.
        apply elem_of_app in Hin' as [Hin' | Hin'].
        -- exact (Hmax _ _ Hin' Hs').
        -- apply list_elem_of_singleton in Hin' as ->.
           destruct Hs' as [Hs' _]. contradiction.
    + intros b' t' Hin' Hs'.
      apply elem_of_app in Hin' as [Hin' | Hin'].
      * exact (Hl _ _ Hin' Hs').
      * apply list_elem_of_singleton in Hin' as ->.
        destruct Hs' as [Hs' _]. contradiction.
Qed.

(** The loop keeps both maxima. *)
Lemma loop_latest env entries bs lf ld bs' lf' ld' :
  loop env (bs, lf, ld) entries = Return (bs', lf', ld') ->
  is_latest "full" bs lf -> is_latest "diff" bs ld ->
  is_latest "full" bs' lf' /\ is_latest "diff" bs' ld'.
Proof.
  revert bs lf ld.
  induction entries as [| backup rest IH]; intros bs lf ld; cbn.
  - intros [= <- <- <-]. auto.
  - intros H Hf Hd.
    apply bind_Return in H as ([[bs1 lf1] ld1] & Hbody & H).
    unfold loop_body in Hbody.
    apply bind_Return in Hbody as (b & _ & Hbody).
    rewrite track_advance in Hbody. injection Hbody as <- <- <-.
    apply (IH _ _ _ H); now apply advance_latest.
Qed.

(** The maximum is unique, and the same for the same records in any
    order. *)
Lemma is_latest_unique ty bs bs' last last' :
  bs ≡ₚ bs' -> is_latest ty bs last -> is_latest ty bs' last' -> last = last'.
Proof.
  intros Hp H H'.
  destruct last as [m |], last' as [m' |]; cbn in H, H'.
  - destruct H as [(b & Hin & Hb) Hmax], H' as [(b' & Hin' & Hb') Hmax'].
    rewrite Hp in Hin. rewrite <- Hp in Hin'.
    specialize (Hmax _ _ Hin' Hb'). specialize (Hmax' _ _ Hin Hb).
    f_equal. lia.
  - destruct H as [(b & Hin & Hb) _]. rewrite Hp in Hin.
    now destruct (H' _ _ Hin Hb).
  - destruct H' as [(b & Hin & Hb) _]. rewrite <- Hp in Hin.
    now destruct (H _ _ Hin Hb).
  - reflexivity.
Qed.

(** The loop's list is the records of the entries, in their order. *)
Lemma loop_records env entries bs lf ld bs' lf' ld' :
  loop env (bs, lf, ld) entries = Return (bs', lf', ld') ->
  exists new, records_of env entries = Return new /\ bs' = (bs ++ new)%list.
Proof.
  revert bs lf ld.
  induction entries as [| backup rest IH]; intros bs lf ld; cbn.
  - intros [= <- <- <-]. exists []. now rewrite app_nil_r.
  - intros H.
    apply bind_Return in H as ([[bs1 lf1] ld1] & Hbody & H).
    unfold loop_body in Hbody.
    apply bind_Return in Hbody as (b & Hb & Hbody).
    destruct (track b lf ld) as [lf2 ld2]. injection Hbody as <- <- <-.
    destruct (IH _ _ _ H) as (new & Hnew & ->).
    exists (b :: new). rewrite Hb, Hnew. cbn. split; [reflexivity |].
    now rewrite <- app_assoc.
Qed.

Lemma records_loop env entries new :
  records_of env entries = Return new ->
  forall bs lf ld, exists lf' ld',
    loop env (bs, lf, ld) entries = Return ((bs ++ new)%list, lf', ld').
Proof.
  revert new.
  induction entries as [| backup rest IH]; intros new; cbn.
  - intros [= <-] bs lf ld. exists lf, ld. now rewrite app_nil_r.
  - intros H bs lf ld.
    apply bind_Return in H as (b & Hb & H).
    apply bind_Return in H as (new' & Hnew & H). injection H as <-.
    unfold loop_body. rewrite Hb. cbn [bind].
    destruct (track b lf ld) as [lf2 ld2]. cbn [bind].
    destruct (IH _ Hnew (bs ++ [b])%list lf2 ld2) as (lf' & ld' & Hloop).
    exists lf', ld'. rewrite Hloop. now rewrite <- app_assoc.
Qed.

(** Entries in another order yield the same records in that order. *)
Lemma records_of_perm env entries entries' :
  entries ≡ₚ entries' ->
  forall new, records_of env entries = Return new ->
  exists new', records_of env entries' = Return new' /\ new ≡ₚ new'.
Proof.
  induction 1 as [| x l l' Hp IH | x y l | l l' l'' Hp IH Hp' IH']; intros new; cbn.
  - intros [= <-]. eauto.
  - intros H. apply bind_Return in H as (b & Hb & H).
    apply bind_Return in H as (bs & Hbs & H). injection H as <-.
    destruct (IH _ Hbs) as (bs' & Hbs' & Hperm).
    exists (b :: bs'). rewrite Hb, Hbs'. cbn. split; [reflexivity |].
    now constructor.
  - intros H. apply bind_Return in H as (b & Hb & H).
    apply bind_Return in H as (bs & Hbs & H). injection H as <-.
    apply bind_Return in Hbs as (c & Hc & Hbs).
    apply bind_Return in Hbs as (cs & Hcs & Hbs). injection Hbs as <-.
    exists (c :: b :: cs). rewrite Hc, Hb, Hcs. cbn. split; [reflexivity |].
    constructor.
  - intros H. destruct (IH _ H) as (new' & H' & Hperm).
    destruct (IH' _ H') as (new'' & H'' & Hperm').
    exists new''. split; [exact H'' | now transitivity new'].
Qed.

(** [C2] In every report the handler returns, [last_full_backup] is the
    maximum stop time over the report's records of type "full" that have a
    stop time, and [last_diff_backup] the same for "diff": absent when no
    record qualifies.  A record without a stop time moves neither value,
    and backup entries taken in another order give the same two values. *)
Theorem last_backups_are_maxima (env : Env) :
  (forall r, get_backup_status env = Responds r ->
     is_latest "full" (backups r) (last_full_backup r) /\
     is_latest "diff" (backups r) (last_diff_backup r)) /\
  (forall env' r r',
     get_backup_status env = Responds r ->
     get_backup_status env' = Responds r' ->
     backups r ≡ₚ backups r' ->
     last_full_backup r = last_full_backup r' /\
     last_diff_backup r = last_diff_backup r') /\
  (forall b last_full last_diff, stop_time b = None ->
     track b last_full last_diff = (last_full, last_diff)) /\
  (forall entries entries' bs last_full last_diff,
     entries ≡ₚ entries' ->
     loop env ([], None, None) entries = Return (bs, last_full, last_diff) ->
     exists bs',
       loop env ([], None, None) entries' = Return (bs', last_full, last_diff) /\
       bs ≡ₚ bs').
Proof.
  assert (Hmax : forall env r, get_backup_status env = Responds r ->
            is_latest "full" (backups r) (last_full_backup r) /\
            is_latest "diff" (backups r) (last_diff_backup r)).
  { intros env0 r Hr.
    apply responds_inv in Hr as [(st & msg & ->) | (si & Hrep)].
    - cbn. split; apply is_latest_nil.
    - apply report_of_loop in Hrep as (entries & Hloop).
      apply (loop_latest _ _ _ _ _ _ _ _ Hloop); apply is_latest_nil. }
  repeat apply conj.
  - apply Hmax.
  - intros env' r r' Hr Hr' Hp.
    destruct (Hmax _ _ Hr) as [Hf Hd], (Hmax _ _ Hr') as [Hf' Hd'].
    split; eapply is_latest_unique; eauto.
  - intros b lf ld Hst. rewrite track_advance. unfold advance. rewrite Hst.
    now destruct (String.eqb _ "full"), (String.eqb _ "diff").
  - intros entries entries' bs lf ld Hp Hloop.
    destruct (loop_latest _ _ _ _ _ _ _ _ Hloop (is_latest_nil _) (is_latest_nil _))
      as [Hf Hd].
    apply loop_records in Hloop as (new & Hnew & ->). cbn in Hf, Hd |- *.
    destruct (records_of_perm _ _ _ Hp _ Hnew) as (new' & Hnew' & Hperm).
    destruct (records_loop _ _ _ Hnew' [] None None) as (lf' & ld' & Hloop').
    destruct (loop_latest _ _ _ _ _ _ _ _ Hloop' (is_latest_nil _) (is_latest_nil _))
      as [Hf' Hd'].
    cbn in Hloop', Hf', Hd'.
    rewrite (is_latest_unique _ _ _ _ _ Hperm Hf Hf').
    rewrite (is_latest_unique _ _ _ _ _ Hperm Hd Hd').
    eauto.
Qed.

(** *** The status code and the message *)

Lemma get_status_object d s :
  status_object d = Some s ->
  get (PyDict d) "status" (PyDict []) = Return (PyDict s).
Proof.
  unfold status_object, get.
  destruct (dict_lookup "status" d) as [[| | | | | | s'] |];
    intros [= <-]; reflexivity.
Qed.

(** The report for an info block whose status object, backup entries and
    archive list are well formed. *)
Lemma report_of_block env d s code message entries bs w :
  status_object d = Some s ->
  get (PyDict s) "code" (PyInt 99) = Return code ->
  get (PyDict s) "message" (PyStr "Unknown") = Return (PyStr message) ->
  backup_entries d = Return entries ->
  records_of env entries = Return bs ->
  wal_archive_of (PyDict d) = Return w ->
  exists last_full last_diff,
    report_of env (PyDict d) =
      Return {| stanza := pgbackrest_stanza env;
                status := status_of_code code;
                status_message :=
                  if String.eqb (status_of_code code) "ok" then None
                  else Some message;
                backups := bs;
                wal_archive := w;
                last_full_backup := last_full;
                last_diff_backup := last_diff;
                timestamp := now env |}.
Proof.
  intros Hs Hc Hm He Hbs Hw.
  destruct (records_loop _ _ _ Hbs [] None None) as (lf & ld & Hloop).
  exists lf, ld. unfold report_of.
  rewrite (get_status_object _ _ Hs). cbn [bind]. rewrite Hc, Hm. cbn [bind].
  unfold backup_entries in He.
  destruct (get (PyDict d) "backup" (PyList [])) as [l | e]; [| discriminate].
  cbn [bind] in He |- *. rewrite He. cbn [bind]. rewrite Hloop. cbn [bind app].
  rewrite Hw. cbn [bind].
  destruct (String.eqb (status_of_code code) "ok"); reflexivity.
Qed.

(** [C3] When the subprocess succeeds and the payload is a non-empty list
    whose first element is the info block [d], with backup entries and an
    archive list the handler can read, the handler returns a report whose
    status is that of the block's numeric code (99 when the block has
    none): ok for 0, missing_stanza for 1, no_backup for 2, error for any
    other; and the report carries the block's message ("Unknown" when the
    block has none) exactly when that status is not ok. *)
Theorem status_code_is_mapped
    (env : Env) (p : CompletedProcess) (d : list (string * value))
    (rest : list value) (n : Z) (m : string)
    (entries : list value) (bs : list BackupInfo) (w : option WALArchiveInfo) :
  run_pgbackrest env = Return p ->
  returncode p = 0 ->
  json_loads env (stdout p) = Return (PyList (PyDict d :: rest)) ->
  has_code d n ->
  has_message d m ->
  backup_entries d = Return entries ->
  records_of env entries = Return bs ->
  wal_archive_of (PyDict d) = Return w ->
  exists r,
    get_backup_status env = Responds r /\
    (n = 0 -> status r = "ok") /\
    (n = 1 -> status r = "missing_stanza") /\
    (n = 2 -> status r = "no_backup") /\
    (n <> 0 -> n <> 1 -> n <> 2 -> status r = "error") /\
    (status_message r = Some m <-> status r <> "ok") /\
    (status r = "ok" -> status_message r = None).
Proof.
  intros H Hrc Hl (s & Hs & Hc) (s' & Hs' & Hm) He Hbs Hw.
  rewrite Hs in Hs'. injection Hs' as <-.
  assert (Hcode : get (PyDict s) "code" (PyInt 99) = Return (PyInt n)).
  { cbn. destruct Hc as [-> | [-> ->]]; reflexivity. }
  assert (Hmsg : get (PyDict s) "message" (PyStr "Unknown") = Return (PyStr m)).
  { cbn. destruct Hm as [-> | [-> ->]]; reflexivity. }
  destruct (report_of_block env d s _ _ _ _ _ Hs Hcode Hmsg He Hbs Hw)
    as (lf & ld & Hrep).
  eexists. split.
  - apply responds_of_return.
    rewrite (try_body_zero _ _ H Hrc), Hl. cbn [bind truthy negb getitem0].
    exact Hrep.
  - cbn [status status_message]. unfold status_of_code, eq_int.
    destruct (Z.eqb_spec n 0) as [-> | N0]; cbn.
    { repeat split; try lia; try discriminate; try congruence. }
    destruct (Z.eqb_spec n 1) as [-> | N1]; cbn.
    { repeat split; try lia; try discriminate; try congruence. }
    destruct (Z.eqb_spec n 2) as [-> | N2]; cbn.
    { repeat split; try lia; try discriminate; try congruence. }
    repeat split; try lia; try discriminate; try congruence.
Qed.

Lemma status_code_is_mapped_witness :
  exists r,
    get_backup_status (Samples.backups_env (Samples.exits 0 "no backups" ""))
      = Responds r /\
    (2 = 0 -> status r = "ok") /\
    (2 = 1 -> status r = "missing_stanza") /\
    (2 = 2 -> status r = "no_backup") /\
    (2 <> 0 -> 2 <> 1 -> 2 <> 2 -> status r = "error") /\
    (status_message r = Some "no backup exists" <-> status r <> "ok") /\
    (status r = "ok" -> status_message r = None).
Proof.
  apply (status_code_is_mapped
           (Samples.backups_env (Samples.exits 0 "no backups" ""))
           {| returncode := 0; stdout := "no backups"; stderr := "" |}
           [("status", PyDict [("code", PyInt 2); ("message", PyStr "no backup exists")]);
            ("backup", PyList []);
            ("archive", PyList [])]
           [] 2 "no backup exists" [] [] None).
  - reflexivity.
  - reflexivity.
  - reflexivity.
  - exists [("code", PyInt 2); ("message", PyStr "no backup exists")].
    split; [reflexivity | left; reflexivity].
  - exists [("code", PyInt 2); ("message", PyStr "no backup exists")].
    split; [reflexivity | left; reflexivity].
  - reflexivity.
  - reflexivity.
  - reflexivity.
Defined.

(** A block without a status object: the default code 99 and the default
    message. *)
Example missing_status_is_error :
  exists r,
    get_backup_status (Samples.backups_env (Samples.exits 0 "bare" "")) = Responds r /\
    status r = "error" /\ status_message r = Some "Unknown".
Proof. eexists. split; [reflexivity |]. cbn. auto. Qed.



Lemma last_backups_are_maxima_witness :
  is_latest "full" (backups Samples.unordered_report) (Some 200000000) /\
  is_latest "diff" (backups Samples.unordered_report) (Some 300000000).
Proof.
  apply (proj1 (last_backups_are_maxima
                  (Samples.backups_env (Samples.exits 0 "unordered" "")))
               Samples.unordered_report).
  reflexivity.
Defined.

(** Two full backups, the later one first in the output: the later stop
    time is the one reported. *)
Example later_backup_first :
  get_backup_status (Samples.backups_env (Samples.exits 0 "unordered" ""))
  = Responds Samples.unordered_report.
Proof. reflexivity. Qed.

(** The payload of [test_backups_endpoint_success]: one full backup and
    the archive range. *)
Example success_payload_report :
  exists r,
    get_backup_status (Samples.backups_env (Samples.exits 0 "success" "")) = Responds r /\
    status r = "ok" /\ status_message r = None /\
    length (backups r) = 1%nat /\
    last_full_backup r = Some 1705320600000000 /\
    wal_archive r = Some {| min_wal := Some "000000010000000000000001";
                            max_wal := Some "000000010000000000000010" |}.
Proof. eexists. split; [reflexivity |]. cbn. auto 10. Qed.

End BackupsProps.


(** ** The readiness probe *)

Module HealthProps.
Import Py Health HealthSpec.

(** The status string is "connected" on a round trip that succeeds, and
    an "error" string on any other. *)
Lemma db_status_connected env :
  round_trip_succeeds env -> db_status_of env = "connected".
Proof.
  intros (Hp & Ha & v & Hf & Hv). unfold db_status_of.
  now rewrite Hp, Ha, Hf, Hv.
Qed.

Lemma db_status_error env :
  ~ round_trip_succeeds env ->
  db_status_of env = "error" \/ exists e, db_status_of env = "error: " +:+ e.
Proof.
  intros Hn. unfold db_status_of.
  destruct (get_pool env) as [[] | e] eqn:Hp; [| eauto].
  destruct (acquire env) as [[] | e] eqn:Ha; [| eauto].
  destruct (fetchval env "SELECT 1") as [v | e] eqn:Hf; [| eauto].
  destruct (eq_int v 1) eqn:Hv; [| auto].
  destruct Hn. unfold round_trip_succeeds. eauto.
Qed.

Lemma error_is_not_connected s :
  s = "error" \/ (exists e, s = "error: " +:+ e) ->
  String.eqb s "connected" = false.
Proof. intros [-> | [e ->]]; reflexivity. Qed.

(** The detail of the 503 cannot be rendered: it holds the datetime
    object. *)
Lemma detail_is_not_json r :
  json_dumps (CDict [("detail", model_dump r)]) = Raise TypeError.
Proof. reflexivity. Qed.

(** [C6] When the round trip succeeds the probe returns the object with
    the keys status, database, timestamp (status "ready", database
    "connected"), which goes out with HTTP 200.  On any failure it
    raises an HTTPException with the status code 503 and, as its detail,
    the [model_dump] of an object with the same three keys (status
    "not_ready", the diagnostic string under database); that detail
    still holds the timestamp as a datetime object, the framework's
    [json.dumps] raises TypeError on it, and what goes out is HTTP 500
    with the text "Internal Server Error": no failure is answered with
    503. *)
Theorem readiness_outcomes (env : Env) :
  (round_trip_succeeds env ->
   readiness_check env =
     Responds {| status := "ready"; database := "connected"; timestamp := now env |} /\
   response_of (readiness_check env) =
     (200, Json (WObj [("status", WStr "ready");
                       ("database", WStr "connected");
                       ("timestamp", WTime (now env))])) /\
   body_keys (snd (response_of (readiness_check env))) = ready_keys) /\
  (~ round_trip_succeeds env ->
   exists diagnostic,
     (diagnostic = "error" \/ exists e, diagnostic = "error: " +:+ e) /\
     readiness_check env =
       Fails {| status_code := 503;
                detail := model_dump {| status := "not_ready";
                                        database := diagnostic;
                                        timestamp := now env |} |} /\
     keys (model_dump {| status := "not_ready";
                         database := diagnostic;
                         timestamp := now env |}) = ready_keys /\
     json_dumps (CDict [("detail", model_dump {| status := "not_ready";
                                                 database := diagnostic;
                                                 timestamp := now env |})])
       = Raise TypeError /\
     response_of (readiness_check env) = (500, PlainText "Internal Server Error")).
Proof.
  split.
  - intros Hs. unfold readiness_check.
    rewrite (db_status_connected _ Hs). cbn. auto.
  - intros Hn. exists (db_status_of env).
    pose proof (db_status_error _ Hn) as He.
    split; [exact He |].
    unfold readiness_check. rewrite (error_is_not_connected _ He).
    cbn [String.eqb Ascii.eqb Bool.eqb]. unfold response_of.
    cbn [status_code detail]. rewrite detail_is_not_json. auto.
Qed.

Lemma readiness_outcomes_witness :
  exists diagnostic,
    (diagnostic = "error" \/ exists e, diagnostic = "error: " +:+ e) /\
    readiness_check Samples.db_down =
      Fails {| status_code := 503;
               detail := model_dump {| status := "not_ready";
                                       database := diagnostic;
                                       timestamp := now Samples.db_down |} |} /\
    keys (model_dump {| status := "not_ready";
                        database := diagnostic;
                        timestamp := now Samples.db_down |}) = ready_keys /\
    json_dumps (CDict [("detail", model_dump {| status := "not_ready";
                                                database := diagnostic;
                                                timestamp := now Samples.db_down |})])
      = Raise TypeError /\
    response_of (readiness_check Samples.db_down)
      = (500, PlainText "Internal Server Error").
Proof.
  apply (proj2 (readiness_outcomes Samples.db_down)).
  intros (Hp & _). discriminate Hp.
Defined.

(** [C6, the failing request] With the database down (the environment
    of [test_ready_endpoint_db_error], which expects 503) the probe is
    answered with HTTP 500 and a plain text, not with 503 and an object
    of the keys status, database, timestamp. *)
Lemma ready_failure_is_not_a_503 :
  ~ round_trip_succeeds Samples.db_down /\
  readiness_check Samples.db_down =
    Fails {| status_code := 503;
             detail := model_dump {| status := "not_ready";
                                     database := "error: Connection failed";
                                     timestamp := 1736942400000000 |} |} /\
  response_of (readiness_check Samples.db_down)
    = (500, PlainText "Internal Server Error") /\
  fst (response_of (readiness_check Samples.db_down)) <> 503 /\
  body_keys (snd (response_of (readiness_check Samples.db_down))) <> ready_keys.
Proof.
  split; [intros (Hp & _); discriminate Hp |].
  repeat split; discriminate.
Qed.

(** With the database up the probe is answered with 200 and the three
    keys. *)
Example ready_success_is_200 :
  fst (response_of (readiness_check Samples.db_up)) = 200 /\
  body_keys (snd (response_of (readiness_check Samples.db_up))) = ready_keys.
Proof. split; reflexivity. Qed.

End HealthProps.


(** ** The metrics collector *)

Module MetricsProps.
Import Py Metrics MetricsSpec PyProps FloatProps.

(** [x or d] on a cell is the cell's number, or [d] for zero and NULL. *)
Lemma int_or_zero c : int_or c 0 = default 0 c.
Proof. destruct c as [n |]; cbn; [destruct (Z.eqb_spec n 0); lia | reflexivity]. Qed.

Lemma int_or_zero_Some n : int_or (Some n) 0 = n.
Proof. cbn. destruct (Z.eqb_spec n 0); lia. Qed.

Lemma int_or_small c :
  bigint_cell c -> Z.abs (int_or c 0) < 2 ^ 1023.
Proof.
  intros Hc. apply Z.lt_trans with (2 ^ 63); [| apply Z.pow_lt_mono_r; lia].
  rewrite int_or_zero. destruct c as [n |]; cbn; [now apply Hc | lia].
Qed.

(** The two conditional expressions always have a value: the divisor is
    positive where the division is made. *)
Lemma cache_hit_ratio_of_returns blocks_read blocks_hit :
  Z.abs blocks_hit < 2 ^ 1023 ->
  exists ratio, cache_hit_ratio_of blocks_read blocks_hit = Return ratio.
Proof.
  intros Hh. unfold cache_hit_ratio_of.
  destruct (Z.ltb_spec 0 (blocks_read + blocks_hit)) as [Hpos | _]; [| eauto].
  destruct (truediv_returns blocks_hit (blocks_read + blocks_hit)) as [q ->];
    [lia | exact Hh | cbn; eauto].
Qed.

Lemma conn_usage_of_returns active max_conn :
  Z.abs active < 2 ^ 1023 ->
  exists usage, conn_usage_of active max_conn = Return usage.
Proof.
  intros Ha. unfold conn_usage_of.
  destruct (Z.ltb_spec 0 max_conn) as [Hpos | _]; [| eauto].
  destruct (truediv_returns active max_conn) as [q ->];
    [lia | exact Ha | cbn; eauto].
Qed.

(** When every query answers, the handler responds. *)
Lemma get_metrics_responds env ci ts :
  answers env ci ts -> exists r, get_metrics env = Responds r.
Proof.
  intros ((size & Hsize) & Hci & Hts & (b & Hb & Hlag) & Ha & Hh).
  unfold get_metrics, try_body.
  rewrite Hsize, Hci, Hts, Hb. cbn [bind subscript].
  assert (Hl : exists lag,
             (if b then lag_result env else Return None) = Return lag).
  { destruct b; [now apply Hlag | eauto]. }
  destruct Hl as [lag ->]. cbn [bind].
  destruct (cache_hit_ratio_of_returns (int_or (blks_read ts) 0)
              (int_or (blks_hit ts) 0) (int_or_small _ Hh)) as [ratio ->].
  destruct (conn_usage_of_returns (int_or (row_active_connections ci) 0)
              (int_or (row_max_connections ci) 100) (int_or_small _ Ha))
    as [usage ->].
  cbn [bind]. eauto.
Qed.

(** A response comes from the [try] body. *)
Lemma metrics_responds env r :
  get_metrics env = Responds r -> try_body env = Return r.
Proof.
  unfold get_metrics. destruct (try_body env); [intros [= <-] | discriminate].
  reflexivity.
Qed.

(** The cells the response was computed from. *)
Lemma try_body_inv env r :
  try_body env = Return r ->
  exists ci ts usage ratio,
    conn_info env = Return ci /\
    txn_stats env = Return (Some ts) /\
    cache_hit_ratio_of (int_or (blks_read ts) 0) (int_or (blks_hit ts) 0)
      = Return ratio /\
    conn_usage_of (int_or (row_active_connections ci) 0)
                  (int_or (row_max_connections ci) 100) = Return usage /\
    cache_hit_ratio r = validate_float (round_2 ratio) /\
    connection_usage_percent r = validate_float (round_2 usage) /\
    max_connections r = int_or (row_max_connections ci) 100 /\
    active_connections r = int_or (row_active_connections ci) 0.
Proof.
  unfold try_body. intros H.
  apply bind_Return in H as (size & _ & H).
  apply bind_Return in H as (ci & Hci & H).
  apply bind_Return in H as (ts & Hts & H).
  apply bind_Return in H as (rec & _ & H).
  apply bind_Return in H as (lag & _ & H).
  destruct ts as [ts |]; cbn [subscript bind] in H; [| discriminate].
  apply bind_Return in H as (ratio & Hratio & H).
  apply bind_Return in H as (usage & Husage & H).
  injection H as <-. cbn. exists ci, ts, usage, ratio. auto 10.
Qed.

(** The quotient of two counts with a positive divisor is a float. *)
Lemma conn_usage_positive active max_conn :
  0 < max_conn ->
  forall usage, conn_usage_of active max_conn = Return usage ->
  exists q, truediv active max_conn = Return q /\ usage = NFloat (mul_int q 100).
Proof.
  intros Hpos usage. unfold conn_usage_of.
  destruct (Z.ltb_spec 0 max_conn) as [_ | Hle]; [| lia].
  intros H. apply bind_Return in H as (q & Hq & H). injection H as <-. eauto.
Qed.

Lemma truediv_zero b : b <> 0 -> truediv 0 b = Return (S754_zero (b <? 0)).
Proof.
  intros Hb. unfold truediv. destruct (Z.eqb_spec b 0); [contradiction | reflexivity].
Qed.

(** [C5, as amended] When the queries answer, with the active count [a]
    and the maximum [m] in the two cells, the collector responds, and: a
    positive [m] gives the usage [a / m * 100], rounded to two decimals; an
    [m] of zero (or NULL) is replaced by 100, so that the usage is
    [a / 100 * 100] and the reported maximum 100; a negative [m] gives 0.
    An active count of zero gives 0 whatever the maximum, so active 0 with
    maximum 0 gives 0. *)
Theorem connection_usage_defaults_max
    (env : Env) (ts : txn_stats_row) (a : Z) (m : option Z) :
  answers env {| row_active_connections := Some a; row_max_connections := m |} ts ->
  exists r,
    get_metrics env = Responds r /\
    (forall k, m = Some k -> 0 < k ->
       exists q, truediv a k = Return q /\
                 connection_usage_percent r = round2 (mul_int q 100)) /\
    (m = Some 0 \/ m = None ->
       max_connections r = 100 /\
       exists q, truediv a 100 = Return q /\
                 connection_usage_percent r = round2 (mul_int q 100)) /\
    (forall k, m = Some k -> k < 0 -> connection_usage_percent r = S754_zero false) /\
    (a = 0 -> connection_usage_percent r = S754_zero false).
Proof.
  intros Hans. destruct (get_metrics_responds _ _ _ Hans) as [r Hr].
  exists r. split; [exact Hr |].
  destruct Hans as (_ & Hci & _). apply metrics_responds in Hr.
  apply try_body_inv in Hr
    as (ci & ts' & usage & ratio & Hci' & _ & _ & Husage & _ & Hcu & Hmax & _).
  rewrite Hci in Hci'. injection Hci' as <-. cbn in Husage, Hmax.
  assert (Ha : (if a =? 0 then 0 else a) = a) by (destruct (Z.eqb_spec a 0); lia).
  rewrite Ha in Husage. clear Ha.
  repeat apply conj.
  - intros k -> Hk. cbn in Husage.
    destruct (Z.eqb_spec k 0); [lia |].
    destruct (conn_usage_positive _ _ Hk _ Husage) as (q & Hq & ->).
    exists q. now rewrite Hcu.
  - intros Hm.
    assert (Hd : int_or m 100 = 100) by (destruct Hm as [-> | ->]; reflexivity).
    rewrite Hd in Husage, Hmax. split; [exact Hmax |].
    destruct (conn_usage_positive a 100 ltac:(lia) _ Husage) as (q & Hq & ->).
    exists q. now rewrite Hcu.
  - intros k -> Hk. cbn in Husage.
    destruct (Z.eqb_spec k 0); [lia |].
    unfold conn_usage_of in Husage.
    destruct (Z.ltb_spec 0 k); [lia |]. injection Husage as <-.
    now rewrite Hcu.
  - intros ->. rewrite Hcu. unfold conn_usage_of in Husage.
    destruct (Z.ltb_spec 0 (int_or m 100)) as [Hpos | Hneg].
    + rewrite truediv_zero in Husage by lia. cbn [bind] in Husage.
      injection Husage as <-.
      destruct (Z.ltb_spec (int_or m 100) 0); [lia | reflexivity].
    + injection Husage as <-. reflexivity.
Qed.

(** Neither ratio divides by zero: the division is made under the guard
    only. *)
Theorem ratios_never_divide_by_zero (x y : Z) :
  cache_hit_ratio_of x y <> Raise ZeroDivisionError /\
  conn_usage_of x y <> Raise ZeroDivisionError.
Proof.
  assert (Hdiv : forall a b, 0 < b -> truediv a b <> Raise ZeroDivisionError).
  { intros a b Hb. unfold truediv.
    destruct (Z.eqb_spec b 0); [lia |].
    destruct (a =? 0); [discriminate |].
    destruct (SFdiv _ _ _ _); discriminate. }
  unfold cache_hit_ratio_of, conn_usage_of. split.
  - destruct (Z.ltb_spec 0 (x + y)) as [Hpos | _]; [| discriminate].
    specialize (Hdiv y _ Hpos).
    destruct (truediv y (x + y)) as [q | e]; [discriminate |].
    cbn. congruence.
  - destruct (Z.ltb_spec 0 y) as [Hpos | _]; [| discriminate].
    specialize (Hdiv x _ Hpos).
    destruct (truediv x y) as [q | e]; [discriminate |].
    cbn. congruence.
Qed.

(** The sample environment answers every query. *)
Lemma sample_answers a m reads hits :
  Z.abs a < 2 ^ 63 -> Z.abs hits < 2 ^ 63 ->
  answers (Samples.metrics_env (Some a) m (Some reads) (Some hits))
    {| row_active_connections := Some a; row_max_connections := m |}
    {| committed := Some 10; rolled_back := Some 1;
       blks_read := Some reads; blks_hit := Some hits |}.
Proof.
  intros Ha Hh. unfold answers. cbn.
  split; [eauto |]. split; [reflexivity |]. split; [reflexivity |].
  split; [exists false; split; [reflexivity | intros [=]] |].
  split; intros n [= <-]; assumption.
Qed.

Lemma connection_usage_defaults_max_witness :
  exists r,
    get_metrics (Samples.metrics_env (Some 5) (Some 0) (Some 1) (Some 9)) = Responds r /\
    max_connections r = 100 /\
    exists q, truediv 5 100 = Return q /\
              connection_usage_percent r = round2 (mul_int q 100).
Proof.
  destruct (connection_usage_defaults_max
              (Samples.metrics_env (Some 5) (Some 0) (Some 1) (Some 9))
              {| committed := Some 10; rolled_back := Some 1;
                 blks_read := Some 1; blks_hit := Some 9 |}
              5 (Some 0))
    as (r & Hr & _ & H & _).
  - apply sample_answers; cbn; lia.
  - exists r. split; [exact Hr |]. apply H. left. reflexivity.
Defined.

(** [C5, as stated, fails] With 5 active connections and a maximum
    reported as zero the collector reports a usage of 5.0, not 0, and a
    maximum of 100. *)
Lemma zero_max_usage_is_not_zero :
  exists r,
    get_metrics (Samples.metrics_env (Some 5) (Some 0) (Some 1) (Some 9)) = Responds r /\
    max_connections r = 100 /\
    connection_usage_percent r = Samples.float_5 /\
    connection_usage_percent r <> Samples.float_0.
Proof.
  eexists. split; [reflexivity |]. cbn. repeat split. discriminate.
Qed.

(** The two cases the specification names, run. *)
Example cache_hit_ratio_9_1 :
  exists r,
    get_metrics (Samples.metrics_env (Some 5) (Some 20) (Some 1) (Some 9)) = Responds r /\
    cache_hit_ratio r = Samples.float_90.
Proof. eexists. split; reflexivity. Qed.

Example cache_hit_ratio_0_0 :
  exists r,
    get_metrics (Samples.metrics_env (Some 0) (Some 0) (Some 0) (Some 0)) = Responds r /\
    cache_hit_ratio r = Samples.float_100 /\
    connection_usage_percent r = Samples.float_0.
Proof. eexists. split; [reflexivity | split; reflexivity]. Qed.

End MetricsProps.

(** ** The items resource *)

Module ItemsProps.
Import Py Items ItemsSpec PyProps.

(** The update statement on a row that is there. *)
Lemma fetchrow_hit env q args (t : gmap Z Row.t) k r r' :
  argument args (where_param q) = Return (PInt k) ->
  t !! k = Some r ->
  apply_set env (set_clause q) args r = Return r' ->
  fetchrow env q args t = (Return (Some (k, r')), <[k := r']> t).
Proof. intros Ha Ht Hs. unfold fetchrow. now rewrite Ha, Ht, Hs. Qed.

Lemma fetchrow_miss env q args (t : gmap Z Row.t) k :
  argument args (where_param q) = Return (PInt k) ->
  t !! k = None ->
  fetchrow env q args t = (Return None, t).
Proof. intros Ha Ht. unfold fetchrow. now rewrite Ha, Ht. Qed.

Ltac each_request item :=
  destruct item as [[?n |] [?d |] [?p |] [?a |]].

Lemma collect_columns item :
  map fst (update_fields (collect item)) = present item.
Proof. each_request item; reflexivity. Qed.

Lemma built_columns env item :
  map fst (update_fields (built env item)) = (present item ++ [c_updated_at])%list.
Proof.
  unfold built, append_field. cbn [update_fields].
  now rewrite map_app, collect_columns.
Qed.

(** The last placeholder is bound to the item's id. *)
Lemma built_where env item item_id :
  argument (values (built env item) ++ [PInt item_id])%list
           (param_count (built env item)) = Return (PInt item_id).
Proof. each_request item; reflexivity. Qed.

(** The SET clause on a row: each placeholder is bound to the field it
    was appended with. *)
Lemma built_apply env item item_id r :
  price_fits env item ->
  exists r',
    apply_set env (update_fields (built env item))
      (values (built env item) ++ [PInt item_id])%list r = Return r' /\
    Row.name r' = default (Row.name r) (ItemUpdate.name item) /\
    Row.description r' =
      match ItemUpdate.description item with
      | Some d => Some d
      | None => Row.description r
      end /\
    Some (Row.price r') =
      match ItemUpdate.price item with
      | Some f => numeric_of_float env f
      | None => Some (Row.price r)
      end /\
    Row.is_active r' =
      match ItemUpdate.is_active item with
      | Some a => Some a
      | None => Row.is_active r
      end /\
    Row.created_at r' = Row.created_at r /\
    Row.updated_at r' = Some (now env).
Proof.
  intros Hfit.
  each_request item;
    try (destruct (Hfit p eq_refl) as [x Hx]);
    (eexists; split; [cbn; rewrite ?Hx; reflexivity |]);
    cbn; rewrite ?Hx; auto 10.
Qed.

(** With a field to set, the handler runs the query it built. *)
Lemma update_item_runs env item_id item (t : gmap Z Row.t) :
  present item <> [] ->
  snd (update_item env item_id item (Some t)) =
    Some (snd (fetchrow env
                 {| set_clause := update_fields (built env item);
                    where_param := param_count (built env item) |}
                 (values (built env item) ++ [PInt item_id])%list t)).
Proof.
  intros Hp. unfold update_item. fold (built env item).
  cbn [ensure_table_exists rows].
  destruct (update_fields (collect item)) as [| x l] eqn:E.
  - rewrite <- collect_columns, E in Hp. now destruct Hp.
  - destruct (fetchrow _ _ _ t) as [[[row |] | e] t']; cbn [snd];
      try destruct (new_Item row); reflexivity.
Qed.

(** [C7] On an existing item, the statement's SET clause names exactly the
    columns whose field the request holds (a field that is not None), then
    updated_at; when the database takes the values, the row gets the
    request's value in each of those columns and the time of the request
    in updated_at, keeps its other columns, and no other row changes.  A
    request that holds no field is answered with HTTP 400 and changes no
    row. *)
Theorem update_sets_present_fields
    (env : Env) (item_id : Z) (item : ItemUpdate.t)
    (t : gmap Z Row.t) (r : Row.t) :
  t !! item_id = Some r ->
  price_fits env item ->
  (present item <> [] ->
   map fst (update_fields (built env item))
     = (present item ++ [c_updated_at])%list /\
   exists r',
     rows (snd (update_item env item_id item (Some t))) !! item_id = Some r' /\
     Row.name r' = default (Row.name r) (ItemUpdate.name item) /\
     Row.description r' =
       match ItemUpdate.description item with
       | Some d => Some d
       | None => Row.description r
       end /\
     Some (Row.price r') =
       match ItemUpdate.price item with
       | Some f => numeric_of_float env f
       | None => Some (Row.price r)
       end /\
     Row.is_active r' =
       match ItemUpdate.is_active item with
       | Some a => Some a
       | None => Row.is_active r
       end /\
     Row.created_at r' = Row.created_at r /\
     Row.updated_at r' = Some (now env) /\
     forall j, j <> item_id ->
       rows (snd (update_item env item_id item (Some t))) !! j = t !! j) /\
  (present item = [] ->
   update_item env item_id item (Some t)
     = (Fails {| status_code := 400; http_detail := NoFieldsToUpdate |}, Some t)).
Proof.
  intros Ht Hfit. split.
  - intros Hp. split; [apply built_columns |].
    destruct (built_apply env item item_id r Hfit) as (r' & Hset & Hcols).
    exists r'. rewrite (update_item_runs _ _ _ _ Hp).
    erewrite fetchrow_hit; [| apply built_where | exact Ht | exact Hset].
    cbn [snd rows]. split; [apply lookup_insert_eq |].
    repeat (split; [apply Hcols |]).
    intros j Hj. now apply lookup_insert_ne.
  - intros Hp. each_request item; try discriminate Hp. reflexivity.
Qed.

Lemma update_sets_present_fields_witness :
  exists r',
    rows (snd (update_item Samples.items_env 1 Samples.price_only
                 (Some Samples.two_items))) !! 1 = Some r' /\
    Row.name r' = "Widget" /\
    Row.description r' = Some "A test item" /\
    Some (Row.price r') = Some 500 /\
    Row.is_active r' = Some true /\
    Row.created_at r' = Some 1700000000000000 /\
    Row.updated_at r' = Some 1736942400000000 /\
    forall j, j <> 1 ->
      rows (snd (update_item Samples.items_env 1 Samples.price_only
                   (Some Samples.two_items))) !! j = Samples.two_items !! j.
Proof.
  assert (Hrow : Samples.two_items !! 1 = Some Samples.widget) by reflexivity.
  assert (Hfit : price_fits Samples.items_env Samples.price_only).
  { intros f [= <-]. eexists. reflexivity. }
  destruct (update_sets_present_fields Samples.items_env 1 Samples.price_only
              Samples.two_items Samples.widget Hrow Hfit) as [H _].
  destruct H as [_ H]; [discriminate |]. exact H.
Defined.

(** The empty request body on any database: the 400, and the rows as they
    were. *)
Lemma empty_update_changes_nothing env item_id item db :
  present item = [] ->
  fst (update_item env item_id item db)
    = Fails {| status_code := 400; http_detail := NoFieldsToUpdate |} /\
  rows (snd (update_item env item_id item db)) = rows db.
Proof.
  destruct item as [[n |] [d |] [p |] [a |]]; try discriminate.
  intros _. destruct db; split; reflexivity.
Qed.

End ItemsProps.

(** ** The items resource: create, get, list, delete *)

Module ItemsCrudProps.
Import Py Items ItemsSpec ItemsCrud PyProps ItemsProps.

(** What a validated row tells about the item. *)
Lemma new_Item_fields id r i :
  new_Item (id, r) = Return i ->
  Item.id i = id /\
  Item.name i = Row.name r /\
  Item.description i = Row.description r /\
  Row.is_active r = Some (Item.is_active i) /\
  Row.created_at r = Some (Item.created_at i) /\
  Row.updated_at r = Some (Item.updated_at i).
Proof.
  unfold new_Item.
  destruct (negb _); [discriminate |].
  destruct (negb _); [discriminate |].
  destruct (Row.price r <? 0); [discriminate |].
  destruct (Row.is_active r) as [a |]; [| discriminate].
  destruct (Row.created_at r) as [c |]; [| discriminate].
  destruct (Row.updated_at r) as [u |]; [| discriminate].
  intros H. apply bind_Return in H as (q & _ & H). injection H as <-.
  cbn. auto 10.
Qed.

Lemma ensure_Some st t : tables st = Some t -> ensure st = st.
Proof. unfold ensure. now intros ->. Qed.

Lemma ensure_items st : items (ensure st) = items st.
Proof. unfold ensure, items. now destruct (tables st) eqn:E; cbn; rewrite ?E. Qed.

Lemma ensure_tables st : exists t, tables (ensure st) = Some t.
Proof. unfold ensure. destruct (tables st) eqn:E; cbn; eauto. Qed.

Lemma ensure_idem st : ensure (ensure st) = ensure st.
Proof. destruct (ensure_tables st) as [t Ht]. exact (ensure_Some _ _ Ht). Qed.

(** A successful insert: the row is new, under the id the sequence gave,
    and the other rows are as before. *)
Lemma insert_Return env name description price is_active ts st id r st' :
  insert env name description price is_active ts st = (Return (id, r), st') ->
  id = next_id st /\
  items st !! id = None /\
  tables st' = Some (<[id := r]> (items st)) /\
  next_id st' = id + 1 /\
  Row.name r = name /\ Row.description r = description /\
  numeric_of_float env price = Some (Row.price r) /\
  Row.is_active r = Some is_active /\
  Row.created_at r = Some ts /\ Row.updated_at r = Some ts /\
  1 <= id <= 2147483647.
Proof.
  unfold insert.
  destruct (255 <? _); [discriminate |].
  destruct (numeric_of_float env price) as [d |]; [| discriminate].
  destruct (Z.leb_spec 1 (next_id st)); [| discriminate].
  destruct (Z.leb_spec (next_id st) 2147483647); [| discriminate].
  cbn [andb negb].
  destruct (items st !! next_id st) eqn:E; [discriminate |].
  intros [= <- <- <-]. cbn. auto 12.
Qed.

Lemma int4_range n : -2147483648 <= n <= 2147483647 -> int4 n = true.
Proof. intros H. unfold int4. apply andb_true_intro. split; apply Z.leb_le; lia. Qed.

(** What [create_item] returned was inserted. *)
Lemma create_item_Returns env item st i st' :
  create_item env item st = (Returns i, st') ->
  exists r,
    insert env (ItemCreate.name item) (ItemCreate.description item)
      (ItemCreate.price item) (ItemCreate.is_active item) (now env) (ensure st)
      = (Return (Item.id i, r), st') /\
    new_Item (Item.id i, r) = Return i.
Proof.
  unfold create_item.
  destruct (insert _ _ _ _ _ _ _) as [[[id r] | e] st1]; [| discriminate].
  destruct (new_Item (id, r)) as [i' |] eqn:E; [| discriminate].
  intros [= <- <-]. destruct (new_Item_fields _ _ _ E) as [-> _]. eauto.
Qed.

(** [POST] then [GET]: the item that [create_item] returned is the item
    that [get_item] returns for its id, and reading changes nothing. *)
Theorem create_then_get
    (env : Env) (item : ItemCreate.t) (st st' : store) (i : Item.t) :
  create_item env item st = (Returns i, st') ->
  get_item (Item.id i) st' = (Returns i, st').
Proof.
  intros H. apply create_item_Returns in H as (r & Hins & Hnew).
  apply insert_Return in Hins as (_ & _ & Ht & Hrest).
  assert (Hid : 1 <= Item.id i <= 2147483647) by apply Hrest.
  unfold get_item. rewrite (ensure_Some _ _ Ht).
  unfold select_by_id, items. rewrite int4_range by lia. rewrite Ht. cbn [rows negb].
  rewrite lookup_insert_eq. unfold item_or_404. now rewrite Hnew.
Qed.

Lemma create_then_get_witness :
  get_item 3 (snd (create_item Samples.items_env CrudSamples.sprocket CrudSamples.shop))
    = (Returns CrudSamples.sprocket_item,
       snd (create_item Samples.items_env CrudSamples.sprocket CrudSamples.shop)).
Proof.
  apply (create_then_get Samples.items_env CrudSamples.sprocket CrudSamples.shop
           _ CrudSamples.sprocket_item).
  reflexivity.
Defined.


(** A request that passed the validation of [ItemCreate] is carried out:
    with a name of 1 to 255 characters, a description of at most 1000, a
    price the database stores as a non-negative DECIMAL(10, 2), and an id
    left in the sequence that no row has, [create_item] returns the new
    item. *)
Theorem valid_item_is_created
    (env : Env) (item : ItemCreate.t) (st : store) (cents : Z) :
  1 <= Z.of_nat (String.length (ItemCreate.name item)) <= 255 ->
  (forall d, ItemCreate.description item = Some d ->
             Z.of_nat (String.length d) <= 1000) ->
  numeric_of_float env (ItemCreate.price item) = Some cents ->
  0 <= cents < 10 ^ 10 ->
  1 <= next_id (ensure st) <= 2147483647 ->
  items st !! next_id (ensure st) = None ->
  exists i st',
    create_item env item st = (Returns i, st') /\
    Item.id i = next_id (ensure st) /\
    truediv cents 100 = Return (Item.price i).
Proof.
  intros Hname Hdesc Hprice Hcents Hseq Hfresh.
  destruct (FloatProps.truediv_returns cents 100) as [q Hq]; [lia | |].
  { apply Z.lt_le_trans with (10 ^ 10); [lia |].
    apply Z.lt_le_incl. change (10 ^ 10) with 10000000000.
    apply Z.lt_le_trans with (2 ^ 34); [reflexivity |].
    apply Z.pow_le_mono_r; lia. }
  unfold create_item, insert.
  destruct (Z.ltb_spec 255 (Z.of_nat (String.length (ItemCreate.name item)))); [lia |].
  rewrite Hprice.
  destruct (Z.leb_spec 1 (next_id (ensure st))); [| lia].
  destruct (Z.leb_spec (next_id (ensure st)) 2147483647); [| lia].
  cbn [andb negb].
  rewrite ensure_items, Hfresh.
  unfold new_Item. cbn [Row.name Row.description Row.price Row.is_active
                        Row.created_at Row.updated_at].
  destruct (Z.leb_spec 1 (Z.of_nat (String.length (ItemCreate.name item)))); [| lia].
  destruct (Z.leb_spec (Z.of_nat (String.length (ItemCreate.name item))) 255); [| lia].
  cbn [andb negb].
  assert (Hd : match ItemCreate.description item with
               | Some d => Z.of_nat (String.length d) <=? 1000
               | None => true
               end = true).
  { destruct (ItemCreate.description item) as [d |]; [| reflexivity].
    apply Z.leb_le. now apply Hdesc. }
  rewrite Hd. cbn [negb].
  destruct (Z.ltb_spec cents 0); [lia |].
  rewrite Hq. cbn [bind]. eexists _, _. split; [reflexivity |]. cbn. auto.
Qed.

Lemma valid_item_is_created_witness :
  exists i st',
    create_item Samples.items_env CrudSamples.sprocket CrudSamples.shop
      = (Returns i, st') /\
    Item.id i = 3 /\
    truediv 500 100 = Return (Item.price i).
Proof.
  apply (valid_item_is_created Samples.items_env CrudSamples.sprocket
           CrudSamples.shop 500).
  - cbn. lia.
  - discriminate.
  - reflexivity.
  - lia.
  - cbn. lia.
  - reflexivity.
Defined.

(** [create_item] gives the new row the next id of the sequence, an id no
    row had; the item carries the request's name, description and flag and
    the time of the request as both timestamps; every other row is as
    before. *)
Theorem create_adds_one_row
    (env : Env) (item : ItemCreate.t) (st st' : store) (i : Item.t) :
  create_item env item st = (Returns i, st') ->
  Item.id i = next_id (ensure st) /\
  items st !! Item.id i = None /\
  (exists r, items st' !! Item.id i = Some r) /\
  (forall j, j <> Item.id i -> items st' !! j = items st !! j) /\
  next_id st' = Item.id i + 1 /\
  Item.name i = ItemCreate.name item /\
  Item.description i = ItemCreate.description item /\
  Item.is_active i = ItemCreate.is_active item /\
  Item.created_at i = now env /\
  Item.updated_at i = now env.
Proof.
  intros H. apply create_item_Returns in H as (r & Hins & Hnew).
  apply insert_Return in Hins
    as (Hid & Hfresh & Ht & Hnext & Hn & Hd & _ & Ha & Hc & Hu & _).
  apply new_Item_fields in Hnew as (_ & Hn' & Hd' & Ha' & Hc' & Hu').
  rewrite ensure_items in Hfresh, Ht.
  repeat apply conj; try congruence.
  - exists r. unfold items at 1. rewrite Ht. apply lookup_insert_eq.
  - intros j Hj. unfold items at 1. rewrite Ht. cbn [rows].
    now apply lookup_insert_ne.
Qed.

Lemma create_adds_one_row_witness :
  items CrudSamples.shop !! 3 = None /\
  forall j, j <> 3 ->
    items (snd (create_item Samples.items_env CrudSamples.sprocket CrudSamples.shop)) !! j
      = items CrudSamples.shop !! j.
Proof.
  destruct (create_adds_one_row Samples.items_env CrudSamples.sprocket
              CrudSamples.shop _ CrudSamples.sprocket_item eq_refl)
    as (_ & Hfresh & _ & Hframe & _).
  exact (conj Hfresh Hframe).
Defined.


(** What [get_item] answers is read off the row with the id. *)
Lemma get_item_hit id st r i :
  int4 id = true ->
  items st !! id = Some r ->
  new_Item (id, r) = Return i ->
  get_item id st = (Returns i, ensure st).
Proof.
  intros Hid Hr Hi. unfold get_item, select_by_id.
  rewrite Hid, ensure_items, Hr. unfold item_or_404. cbn [negb]. now rewrite Hi.
Qed.

Lemma get_item_miss id st :
  int4 id = true ->
  items st !! id = None ->
  get_item id st
    = (Fails {| status_code := 404; http_detail := ItemNotFound id |}, ensure st).
Proof.
  intros Hid Hr. unfold get_item, select_by_id. now rewrite Hid, ensure_items, Hr.
Qed.

Lemma items_Some st id r : items st !! id = Some r -> ensure st = st.
Proof.
  unfold items, ensure. destruct (tables st); [reflexivity |].
  cbn. now rewrite lookup_empty.
Qed.

(** [DELETE] of an item that is there: the handler returns, the row is
    gone, every other row and the sequence are as before, and a [GET] of
    the id is then answered with 404. *)
Theorem delete_removes_the_row (item_id : Z) (st : store) (r : Row.t) :
  int4 item_id = true ->
  items st !! item_id = Some r ->
  exists st',
    delete_item item_id st = (Returns tt, st') /\
    items st' !! item_id = None /\
    (forall j, j <> item_id -> items st' !! j = items st !! j) /\
    next_id st' = next_id st /\
    get_item item_id st'
      = (Fails {| status_code := 404; http_detail := ItemNotFound item_id |}, st').
Proof.
  intros Hid Hr.
  exists {| tables := Some (delete item_id (items st)); next_id := next_id st |}.
  assert (Hgone : items {| tables := Some (delete item_id (items st));
                           next_id := next_id st |} !! item_id = None)
    by apply lookup_delete_eq.
  repeat apply conj.
  - unfold delete_item, execute_delete.
    rewrite (items_Some _ _ _ Hr), Hid, Hr. reflexivity.
  - exact Hgone.
  - intros j Hj. now apply lookup_delete_ne.
  - reflexivity.
  - now rewrite (get_item_miss _ _ Hid Hgone).
Qed.

Lemma delete_removes_the_row_witness :
  exists st',
    delete_item 2 CrudSamples.shop = (Returns tt, st') /\
    items st' !! 2 = None /\
    (forall j, j <> 2 -> items st' !! j = items CrudSamples.shop !! j) /\
    next_id st' = 3 /\
    get_item 2 st'
      = (Fails {| status_code := 404; http_detail := ItemNotFound 2 |}, st').
Proof.
  apply (delete_removes_the_row 2 CrudSamples.shop Samples.gadget); reflexivity.
Defined.

(** [DELETE] of an id that has no row: 404, and no row changes. *)
Theorem delete_missing_is_404 (item_id : Z) (st : store) :
  int4 item_id = true ->
  items st !! item_id = None ->
  exists st',
    delete_item item_id st
      = (Fails {| status_code := 404; http_detail := ItemNotFound item_id |}, st') /\
    items st' = items st.
Proof.
  intros Hid Hr. exists (ensure st). split; [| apply ensure_items].
  unfold delete_item, execute_delete. now rewrite Hid, ensure_items, Hr.
Qed.

Lemma delete_missing_is_404_witness :
  exists st',
    delete_item 7 CrudSamples.shop
      = (Fails {| status_code := 404; http_detail := ItemNotFound 7 |}, st') /\
    items st' = items CrudSamples.shop.
Proof. apply (delete_missing_is_404 7 CrudSamples.shop); reflexivity. Defined.

(** An update that was answered with an item: the row with the id holds
    what the item was built from. *)
Lemma update_item_Responds env item_id item db i db' :
  update_item env item_id item db = (Responds i, db') ->
  exists t r,
    db' = Some t /\ t !! item_id = Some r /\ new_Item (item_id, r) = Return i.
Proof.
  unfold update_item. fold (built env item).
  destruct (update_fields (collect item)) as [| x l]; [discriminate |].
  unfold fetchrow. cbn [where_param set_clause].
  rewrite built_where.
  destruct (rows (ensure_table_exists db) !! item_id) as [r |]; [| discriminate].
  destruct (apply_set _ _ _ r) as [r' |]; [| discriminate].
  destruct (new_Item (item_id, r')) as [i' |] eqn:E; [| discriminate].
  intros [= <- <-]. exists (<[item_id := r']> (rows (ensure_table_exists db))), r'.
  split; [reflexivity |]. split; [apply lookup_insert_eq | exact E].
Qed.

(** What [update] answered is what [update_item] answered, for an id
    that is an integer of the column's range. *)
Lemma update_Responds env item_id item st i st' :
  update env item_id item st = (Responds i, st') ->
  int4 item_id = true /\
  exists db,
    update_item env item_id item (tables st) = (Responds i, db) /\
    st' = {| tables := db; next_id := next_id (ensure st) |}.
Proof.
  unfold update.
  destruct (update_fields (collect item)) as [| x l] eqn:Ef.
  - unfold update_item. rewrite Ef. discriminate.
  - destruct (int4 item_id); cbn [negb]; [| discriminate].
    destruct (update_item env item_id item (tables st)) as [o db].
    intros [= -> <-]. eauto.
Qed.

(** [PUT] then [GET]: the item that [update_item] returned is the item
    that [get_item] returns for the id. *)
Theorem update_then_get
    (env : Env) (item_id : Z) (item : ItemUpdate.t) (st st' : store) (i : Item.t) :
  update env item_id item st = (Responds i, st') ->
  get_item item_id st' = (Returns i, st').
Proof.
  intros H. apply update_Responds in H as (Hid & db & E & ->).
  apply update_item_Responds in E as (t & r & -> & Hr & Hi).
  now rewrite (get_item_hit item_id _ r i).
Qed.

Lemma update_then_get_witness :
  get_item 1 (snd (update Samples.items_env 1 Samples.price_only CrudSamples.shop))
    = (Returns CrudSamples.repriced_widget,
       snd (update Samples.items_env 1 Samples.price_only CrudSamples.shop)).
Proof.
  apply (update_then_get Samples.items_env 1 Samples.price_only CrudSamples.shop).
  reflexivity.
Defined.


(** An update, with at least one field and a price (when it has one)
    that fits DECIMAL(10, 2), of an id that has no row.  With an id of
    the id column's range the statement matches nothing: the handler
    answers 404 and no row changes.  An id outside the range of
    [integer] does not reach the database: asyncpg refuses the argument
    with DataError, which the handler lets through (HTTP 500, not 404),
    and no row changes either.  (A price that does not fit is left out:
    PostgreSQL may refuse it when it plans the statement, before it
    looks for the row.) *)
Theorem update_missing_item_is_404
    (env : Env) (item_id : Z) (item : ItemUpdate.t) (st : store) :
  present item <> [] ->
  price_fits env item ->
  items st !! item_id = None ->
  (int4 item_id = true ->
   update env item_id item st
     = (Items.Fails {| status_code := 404; http_detail := ItemNotFound item_id |},
        ensure st)) /\
  (int4 item_id = false ->
   update env item_id item st
     = (Items.Propagates (OtherError "DataError"), ensure st)).
Proof.
  intros Hp _ Hr. unfold update.
  destruct (update_fields (collect item)) as [| x l] eqn:E.
  { rewrite <- collect_columns, E in Hp. now destruct Hp. }
  split; intros Hid; rewrite Hid; cbn [negb]; [| reflexivity].
  unfold update_item. rewrite E. fold (built env item).
  assert (Hrows : rows (ensure_table_exists (tables st)) = items st)
    by (unfold items; now destruct (tables st)).
  erewrite fetchrow_miss; [| apply built_where | now rewrite Hrows].
  rewrite Hrows. unfold ensure, items.
  destruct st as [[t |] n]; reflexivity.
Qed.

Lemma update_missing_item_is_404_witness :
  update Samples.items_env 3 Samples.price_only CrudSamples.shop
    = (Items.Fails {| status_code := 404; http_detail := ItemNotFound 3 |},
       CrudSamples.shop) /\
  update Samples.items_env 2147483648 Samples.price_only CrudSamples.shop
    = (Items.Propagates (OtherError "DataError"), CrudSamples.shop).
Proof.
  split.
  - apply (update_missing_item_is_404 Samples.items_env 3 Samples.price_only
             CrudSamples.shop);
      [discriminate | intros f [= <-]; cbn; eauto | reflexivity | reflexivity].
  - apply (update_missing_item_is_404 Samples.items_env 2147483648
             Samples.price_only CrudSamples.shop);
      [discriminate | intros f [= <-]; cbn; eauto | reflexivity | reflexivity].
Defined.

(** *** Listing *)

Lemma by_id_total : Total by_id.
Proof. intros a b. unfold by_id. lia. Qed.

Lemma by_id_trans : Transitive by_id.
Proof. intros a b c. unfold by_id. lia. Qed.

(** The rows in the order of their ids: each id once, ids increasing. *)
Lemma ordered_lt (t : gmap Z Row.t) : StronglySorted Z.lt (map fst (ordered t)).
Proof.
  unfold ordered.
  assert (Hs : StronglySorted by_id (merge_sort by_id (map_to_list t)))
    by apply (@StronglySorted_merge_sort _ by_id _ by_id_trans by_id_total).
  assert (Hn : NoDup (map fst (merge_sort by_id (map_to_list t)))).
  { rewrite merge_sort_Permutation. apply NoDup_fst_map_to_list. }
  induction Hs as [| a l Hs IH Ha]; cbn; [constructor |].
  apply NoDup_cons in Hn as [Hnotin Hn].
  constructor; [now apply IH |].
  apply Forall_forall. intros k Hk.
  apply list_elem_of_fmap in Hk as (b & -> & Hb).
  rewrite Forall_forall in Ha. specialize (Ha b Hb). unfold by_id in Ha.
  assert (a.1 <> b.1); [| lia].
  intros Heq. apply Hnotin. apply list_elem_of_fmap. exists b. auto.
Qed.

Lemma ordered_elem (t : gmap Z Row.t) k r :
  (k, r) ∈ ordered t <-> t !! k = Some r.
Proof.
  unfold ordered. rewrite merge_sort_Permutation. apply elem_of_map_to_list.
Qed.

Lemma StronglySorted_sublist {A} (R : A -> A -> Prop) (l k : list A) :
  sublist l k -> StronglySorted R k -> StronglySorted R l.
Proof.
  intros Hsub Hk. revert l Hsub.
  induction Hk as [| a k Hk IH Ha]; intros l Hsub.
  - apply sublist_nil_r in Hsub as ->. constructor.
  - apply sublist_cons_r in Hsub as [Hsub | (l' & -> & Hsub)]; [now apply IH |].
    constructor; [now apply IH |].
    eapply Forall_forall. intros x Hx. rewrite Forall_forall in Ha.
    apply Ha. exact (elem_of_sublist _ _ _ Hx Hsub).
Qed.

(** The rows a page holds are rows of the table, in the table's order. *)
Lemma select_page_Return active_only skip limit st l :
  select_page active_only skip limit st = Return l ->
  0 <= skip < 2 ^ 63 /\ 0 <= limit < 2 ^ 63 /\
  l = take (Z.to_nat limit)
        (drop (Z.to_nat skip)
           (if active_only
            then filter (fun row => active row = true) (ordered (items st))
            else ordered (items st))).
Proof.
  unfold select_page.
  destruct (int8 skip && int8 limit) eqn:E; cbn [negb]; [| discriminate].
  destruct (Z.ltb_spec skip 0); [discriminate |].
  destruct (Z.ltb_spec limit 0); [discriminate |].
  intros [= <-]. apply andb_prop in E as [Es El].
  unfold int8 in Es, El.
  apply andb_prop in Es as [_ Es]. apply andb_prop in El as [_ El].
  apply Z.leb_le in Es, El.
  change (2 ^ 63) with 9223372036854775808. repeat split; lia.
Qed.

Lemma select_page_of active_only skip limit st :
  0 <= skip < 2 ^ 63 -> 0 <= limit < 2 ^ 63 ->
  select_page active_only skip limit st =
    Return (take (Z.to_nat limit)
              (drop (Z.to_nat skip)
                 (if active_only
                  then filter (fun row => active row = true) (ordered (items st))
                  else ordered (items st)))).
Proof.
  change (2 ^ 63) with 9223372036854775808. intros Hs Hl. unfold select_page.
  assert (E : int8 skip && int8 limit = true).
  { unfold int8. repeat (apply andb_true_intro; split); apply Z.leb_le; lia. }
  rewrite E. cbn [negb].
  destruct (Z.ltb_spec skip 0); [lia |].
  destruct (Z.ltb_spec limit 0); [lia |]. reflexivity.
Qed.

(** The rows a page holds are rows of the table, in the table's order. *)
Lemma select_page_sublist active_only skip limit st l :
  select_page active_only skip limit st = Return l ->
  sublist l (ordered (items st)) /\
  (length l <= Z.to_nat limit)%nat /\
  (active_only = true -> Forall (fun row => active row = true) l).
Proof.
  intros H. apply select_page_Return in H as (_ & _ & ->). repeat apply conj.
  - etransitivity; [apply sublist_take |].
    etransitivity; [apply sublist_drop |].
    destruct active_only; [apply sublist_filter | reflexivity].
  - rewrite length_take. lia.
  - intros ->. apply Forall_take, Forall_drop.
    apply Forall_forall. intros x Hx. now apply list_elem_of_filter in Hx as [Hx _].
Qed.

(** The items of a list of rows, row by row. *)
Lemma new_Items_Return l found :
  new_Items l = Return found ->
  Forall2 (fun row i => new_Item row = Return i) l found.
Proof.
  revert found. induction l as [| row l IH]; intros found; cbn.
  - intros [= <-]. constructor.
  - intros H. apply bind_Return in H as (i & Hi & H).
    apply bind_Return in H as (others & Ho & H). injection H as <-.
    constructor; [exact Hi | now apply IH].
Qed.

Lemma new_Items_of l found :
  Forall2 (fun row i => new_Item row = Return i) l found ->
  new_Items l = Return found.
Proof.
  induction 1 as [| row i l found Hi _ IH]; cbn; [reflexivity |].
  now rewrite Hi, IH.
Qed.

Lemma new_Items_ids l found :
  new_Items l = Return found -> map Item.id found = map fst l.
Proof.
  intros H. apply new_Items_Return in H.
  induction H as [| [id r] i l found Hi _ IH]; cbn; [reflexivity |].
  destruct (new_Item_fields _ _ _ Hi) as [-> _]. now rewrite IH.
Qed.

(** What [list_items] returned is a page of items. *)
Lemma list_items_Returns skip limit active_only st found st' :
  list_items skip limit active_only st = (Returns found, st') ->
  st' = ensure st /\
  exists l,
    select_page active_only skip limit (ensure st) = Return l /\
    new_Items l = Return found.
Proof.
  unfold list_items.
  destruct (select_page _ _ _ _) as [l |]; [| discriminate].
  destruct (new_Items l) as [found' |] eqn:E; [| discriminate].
  intros [= <- <-]. eauto.
Qed.

(** The list [list_items] returns: ids strictly increasing, so no item
    twice; at most [limit] items; every item is the item of a row of the
    table, an active one when [active_only] is set; and listing changes no
    row. *)
Theorem list_is_a_sorted_page
    (skip limit : Z) (active_only : bool) (st st' : store) (found : list Item.t) :
  list_items skip limit active_only st = (Returns found, st') ->
  StronglySorted Z.lt (map Item.id found) /\
  Z.of_nat (length found) <= limit /\
  Forall (fun i =>
            (exists r, items st !! Item.id i = Some r /\
                       new_Item (Item.id i, r) = Return i) /\
            (active_only = true -> Item.is_active i = true)) found /\
  items st' = items st.
Proof.
  intros H. apply list_items_Returns in H as (-> & l & Hpage & Hitems).
  assert (Hlimit : 0 <= limit) by apply (select_page_Return _ _ _ _ _ Hpage).
  apply select_page_sublist in Hpage as (Hsub & Hlen & Hact).
  rewrite ensure_items in Hsub.
  pose proof (new_Items_ids _ _ Hitems) as Hids.
  apply new_Items_Return in Hitems.
  repeat apply conj.
  - rewrite Hids. eapply StronglySorted_sublist; [| apply ordered_lt].
    exact (fmap_sublist fst _ _ Hsub).
  - rewrite <- (Forall2_length _ _ _ Hitems). lia.
  - apply Forall_forall. intros i Hi.
    apply list_elem_of_lookup in Hi as [n Hn].
    destruct (Forall2_lookup_r _ _ _ _ _ Hitems Hn) as ([id r] & Hrow & Hnew).
    destruct (new_Item_fields _ _ _ Hnew) as (Hid & _ & _ & Ha & _).
    split.
    + exists r. rewrite Hid. split; [| exact Hnew].
      apply ordered_elem. apply list_elem_of_lookup_2 in Hrow.
      exact (elem_of_sublist _ _ _ Hrow Hsub).
    + intros Hao. specialize (Hact Hao). rewrite Forall_forall in Hact.
      apply list_elem_of_lookup_2 in Hrow. specialize (Hact _ Hrow).
      unfold active in Hact. cbn in Hact. rewrite Ha in Hact.
      now destruct (Item.is_active i).
  - apply ensure_items.
Qed.

Lemma list_is_a_sorted_page_witness :
  StronglySorted Z.lt [1; 2] /\
  Forall (fun i => Item.is_active i = true)
    [CrudSamples.widget_item].
Proof.
  split.
  - exact (proj1 (list_is_a_sorted_page 0 2 false CrudSamples.shop CrudSamples.shop
                    [CrudSamples.widget_item; CrudSamples.gadget_item] eq_refl)).
  - destruct (list_is_a_sorted_page 0 2 true CrudSamples.shop CrudSamples.shop
                [CrudSamples.widget_item] eq_refl) as (_ & _ & H & _).
    eapply Forall_impl; [exact H |]. intros i [_ Hi]. now apply Hi.
Defined.


(** Two pages side by side are one page: the first [a] items of the page
    of [a + b] from [skip] are the page of [a] from [skip], the rest is
    the page of [b] from [skip + a]. *)
Theorem pages_compose
    (skip a b : Z) (active_only : bool) (st st' : store) (found : list Item.t) :
  0 <= a -> 0 <= b -> skip + a < 2 ^ 63 ->
  list_items skip (a + b) active_only st = (Returns found, st') ->
  list_items skip a active_only st = (Returns (take (Z.to_nat a) found), st') /\
  list_items (skip + a) b active_only st = (Returns (drop (Z.to_nat a) found), st').
Proof.
  intros Ha Hb Hsa H. apply list_items_Returns in H as (-> & l & Hpage & Hitems).
  apply select_page_Return in Hpage as (Hskip & Hab & ->).
  apply new_Items_Return in Hitems.
  unfold list_items.
  rewrite !select_page_of by lia.
  set (rows := if active_only then _ else _) in *.
  split.
  - rewrite (new_Items_of _ (take (Z.to_nat a) found)); [reflexivity |].
    replace (take (Z.to_nat a) (drop (Z.to_nat skip) rows))
      with (take (Z.to_nat a) (take (Z.to_nat (a + b)) (drop (Z.to_nat skip) rows))).
    + now apply Forall2_take.
    + rewrite take_take. f_equal. lia.
  - rewrite (new_Items_of _ (drop (Z.to_nat a) found)); [reflexivity |].
    replace (take (Z.to_nat b) (drop (Z.to_nat (skip + a)) rows))
      with (drop (Z.to_nat a) (take (Z.to_nat (a + b)) (drop (Z.to_nat skip) rows))).
    + now apply Forall2_drop.
    + rewrite Z2Nat.inj_add by lia.
      rewrite <- take_drop_commute, drop_drop.
      do 2 f_equal. lia.
Qed.

Lemma pages_compose_witness :
  list_items 0 1 false CrudSamples.shop
    = (Returns [CrudSamples.widget_item], CrudSamples.shop) /\
  list_items 1 1 false CrudSamples.shop
    = (Returns [CrudSamples.gadget_item], CrudSamples.shop).
Proof.
  apply (pages_compose 0 1 1 false CrudSamples.shop CrudSamples.shop
           [CrudSamples.widget_item; CrudSamples.gadget_item]).
  - lia.
  - lia.
  - reflexivity.
  - reflexivity.
Defined.


(** A page from the start that is as long as the table lists every row:
    the ids of the list are the ids of the table. *)
Theorem full_page_lists_every_row
    (limit : Z) (st st' : store) (found : list Item.t) :
  Z.of_nat (size (items st)) <= limit ->
  list_items 0 limit false st = (Returns found, st') ->
  forall j, j ∈ map Item.id found <-> is_Some (items st !! j).
Proof.
  intros Hlimit H j. apply list_items_Returns in H as (_ & l & Hpage & Hitems).
  rewrite (new_Items_ids _ _ Hitems).
  apply select_page_Return in Hpage as (_ & _ & ->).
  change (Z.to_nat 0) with 0%nat.
  rewrite ensure_items, drop_0, take_ge.
  - split.
    + intros Hj. apply list_elem_of_fmap in Hj as ([k r] & -> & Hj).
      apply ordered_elem in Hj. now exists r.
    + intros [r Hr]. apply list_elem_of_fmap. exists (j, r).
      split; [reflexivity | now apply ordered_elem].
  - unfold ordered. rewrite merge_sort_Permutation, length_map_to_list.
    lia.
Qed.

Lemma full_page_lists_every_row_witness :
  (2 ∈ [1; 2] <-> is_Some (items CrudSamples.shop !! 2)) /\
  (3 ∈ [1; 2] <-> is_Some (items CrudSamples.shop !! 3)).
Proof.
  split;
    apply (full_page_lists_every_row 100 CrudSamples.shop CrudSamples.shop
             [CrudSamples.widget_item; CrudSamples.gadget_item]);
    (reflexivity || (vm_compute; discriminate)).
Defined.


(** *** Runs of the service *)

(** An update replaces a row that is there: it adds no id. *)
Lemma update_item_ids env item_id item db j :
  is_Some (rows (snd (update_item env item_id item db)) !! j) ->
  is_Some (rows db !! j).
Proof.
  unfold update_item. fold (built env item).
  assert (He : rows (ensure_table_exists db) = rows db) by now destruct db.
  destruct (update_fields (collect item)) as [| x l]; cbn [snd].
  { now rewrite He. }
  unfold fetchrow. cbn [where_param set_clause]. rewrite built_where, He.
  destruct (rows db !! item_id) as [r |] eqn:E; [| auto].
  destruct (apply_set _ _ _ r) as [r' |]; [| auto].
  destruct (new_Item (item_id, r')); cbn [snd rows];
    (destruct (decide (j = item_id)) as [-> | Hne];
     [now rewrite E | now rewrite lookup_insert_ne]).
Qed.

Lemma update_ids env item_id item st j :
  is_Some (items (snd (update env item_id item st)) !! j) ->
  is_Some (items st !! j).
Proof.
  unfold update.
  pose proof (update_item_ids env item_id item (tables st) j) as H.
  destruct (update_fields (collect item)); [| destruct (int4 item_id); cbn [negb]].
  - destruct (update_item env item_id item (tables st)) as [o db]. exact H.
  - destruct (update_item env item_id item (tables st)) as [o db]. exact H.
  - cbn [snd]. now rewrite ensure_items.
Qed.

Lemma update_next_id env item_id item st :
  next_id (snd (update env item_id item st)) = next_id (ensure st).
Proof.
  unfold update.
  destruct (update_fields (collect item)); [| destruct (int4 item_id); cbn [negb]];
    try destruct (update_item env item_id item (tables st)) as [o db];
    reflexivity.
Qed.

Lemma update_item_tables env item_id item db :
  exists t, snd (update_item env item_id item db) = Some t.
Proof.
  unfold update_item.
  destruct (update_fields (collect item)); cbn.
  - destruct db; cbn; eauto.
  - destruct (fetchrow _ _ _ _) as [[[row |] | e] t]; cbn;
      try destruct (new_Item row); cbn; eauto.
Qed.

Lemma update_tables env item_id item st :
  exists t, tables (snd (update env item_id item st)) = Some t.
Proof.
  unfold update.
  pose proof (update_item_tables env item_id item (tables st)) as H.
  destruct (update_fields (collect item)); [| destruct (int4 item_id); cbn [negb]].
  - destruct (update_item env item_id item (tables st)) as [o db]. exact H.
  - destruct (update_item env item_id item (tables st)) as [o db]. exact H.
  - cbn [snd]. apply ensure_tables.
Qed.

Lemma below_sequence_ensure st : below_sequence st -> below_sequence (ensure st).
Proof.
  intros [H1 H]. unfold ensure. destruct (tables st) eqn:E; [now split |].
  split; [cbn; lia |]. intros j [r Hr]. cbn in Hr. now rewrite lookup_empty in Hr.
Qed.

(** What [insert] leaves: the ids of before and perhaps the one it drew,
    and a sequence that did not go back. *)
Lemma insert_store env name description price is_active ts st :
  let st' := snd (insert env name description price is_active ts st) in
  next_id st <= next_id st' /\
  (forall j, is_Some (items st' !! j) ->
     is_Some (items st !! j) \/ (j = next_id st /\ next_id st' = next_id st + 1)) /\
  (is_Some (tables st) -> is_Some (tables st')).
Proof.
  unfold insert.
  destruct (255 <? _); [cbn; split; [lia | auto] |].
  destruct (numeric_of_float env price); [| cbn; split; [lia | auto]].
  destruct (negb _); [cbn; split; [lia | auto] |].
  destruct (items st !! next_id st) eqn:E; [cbn; split; [lia | auto] |].
  cbn. split; [lia |]. split; [| eauto].
  intros j Hj. unfold items in Hj. cbn in Hj.
  destruct (decide (j = next_id st)) as [-> | Hne]; [auto |].
  rewrite lookup_insert_ne in Hj by congruence. auto.
Qed.

Lemma create_item_store env item st :
  snd (create_item env item st)
  = snd (insert env (ItemCreate.name item) (ItemCreate.description item)
           (ItemCreate.price item) (ItemCreate.is_active item) (now env) (ensure st)).
Proof.
  unfold create_item.
  destruct (insert _ _ _ _ _ _ _) as [[row | e] st1]; [| reflexivity].
  now destruct (new_Item row).
Qed.

Lemma list_items_store skip limit active_only st :
  snd (list_items skip limit active_only st) = ensure st.
Proof.
  unfold list_items. destruct (select_page _ _ _ _) as [l |]; [| reflexivity].
  now destruct (new_Items l).
Qed.

Lemma delete_item_store item_id st :
  let st' := snd (delete_item item_id st) in
  next_id st' = next_id (ensure st) /\
  (forall j, is_Some (items st' !! j) -> is_Some (items st !! j)) /\
  is_Some (tables st').
Proof.
  assert (He : is_Some (tables (ensure st)))
    by (destruct (ensure_tables st) as [t ->]; eauto).
  unfold delete_item, execute_delete. rewrite ensure_items.
  destruct (int4 item_id); cbn [negb].
  - destruct (items st !! item_id) as [r |] eqn:E; cbn.
    + split; [reflexivity |]. split; [| eauto].
      intros j Hj. unfold items in Hj. cbn in Hj.
      destruct (decide (j = item_id)) as [-> | Hne].
      * now rewrite lookup_delete_eq in Hj; destruct Hj.
      * now rewrite lookup_delete_ne in Hj by congruence.
    + split; [reflexivity |]. rewrite ensure_items. auto.
  - cbn. split; [reflexivity |]. rewrite ensure_items. auto.
Qed.

Lemma below_sequence_handle st r : below_sequence st -> below_sequence (handle st r).
Proof.
  intros Hst. apply below_sequence_ensure in Hst as [H1 H].
  destruct r as [env [item | skip limit ao | id | id item | id]]; cbn [handle].
  - rewrite create_item_store.
    destruct (insert_store env (ItemCreate.name item) (ItemCreate.description item)
                (ItemCreate.price item) (ItemCreate.is_active item) (now env)
                (ensure st)) as (Hn & Hi & _).
    split; [lia |]. intros j Hj. destruct (Hi j Hj) as [Hold | [-> Hnew]].
    + specialize (H j Hold). lia.
    + lia.
  - rewrite list_items_store. now split.
  - unfold get_item. cbn [snd]. now split.
  - split; [rewrite update_next_id; lia |].
    intros j Hj. rewrite update_next_id. apply H. rewrite ensure_items.
    exact (update_ids _ _ _ _ _ Hj).
  - destruct (delete_item_store id st) as (Hn & Hi & _).
    split; [rewrite Hn; lia |]. intros j Hj. rewrite Hn. apply H.
    rewrite ensure_items. now apply Hi.
Qed.

(** From a database without the table, whatever requests are served:
    every row has an id between 1 and the last one the sequence gave out,
    so the id the next [create_item] draws is one no row has. *)
Theorem rows_are_below_the_sequence (rs : list (Env * request)) :
  below_sequence (serve rs empty_database) /\
  items (serve rs empty_database) !! next_id (ensure (serve rs empty_database)) = None.
Proof.
  assert (H : forall st, below_sequence st -> below_sequence (serve rs st)).
  { induction rs as [| r rs IH]; intros st Hst; [exact Hst |].
    change (serve (r :: rs) st) with (serve rs (handle st r)).
    apply IH. now apply below_sequence_handle. }
  assert (H0 : below_sequence empty_database).
  { split; [cbn; lia |]. intros j [r Hr]. cbn in Hr. now rewrite lookup_empty in Hr. }
  specialize (H _ H0). split; [exact H |].
  apply below_sequence_ensure in H as [_ H].
  destruct (items (serve rs empty_database) !! _) eqn:E; [| reflexivity].
  rewrite <- ensure_items in E.
  assert (Hs : is_Some (items (ensure (serve rs empty_database))
                          !! next_id (ensure (serve rs empty_database)))) by eauto.
  specialize (H _ Hs). lia.
Qed.

(** Once the table is there, the sequence does not go back. *)
Lemma sequence_handle st r :
  is_Some (tables st) ->
  is_Some (tables (handle st r)) /\ next_id st <= next_id (handle st r).
Proof.
  intros [t Ht]. pose proof (ensure_Some _ _ Ht) as He.
  destruct r as [env [item | skip limit ao | id | id item | id]]; cbn [handle].
  - rewrite create_item_store, He.
    destruct (insert_store env (ItemCreate.name item) (ItemCreate.description item)
                (ItemCreate.price item) (ItemCreate.is_active item) (now env) st)
      as (Hn & _ & Ht').
    split; [apply Ht'; eauto | exact Hn].
  - rewrite list_items_store, He. split; [eauto | lia].
  - unfold get_item. cbn [snd]. rewrite He. split; [eauto | lia].
  - rewrite update_next_id, He. split; [| lia].
    destruct (update_tables env id item st) as [t' ->]. eauto.
  - destruct (delete_item_store id st) as (Hn & _ & Ht').
    rewrite Hn, He. split; [exact Ht' | lia].
Qed.

Lemma sequence_serve rs st :
  is_Some (tables st) ->
  is_Some (tables (serve rs st)) /\ next_id st <= next_id (serve rs st).
Proof.
  revert st. induction rs as [| r rs IH]; intros st Ht; [split; [exact Ht | cbn; lia] |].
  change (serve (r :: rs) st) with (serve rs (handle st r)).
  destruct (sequence_handle st r Ht) as [Ht' Hn].
  destruct (IH _ Ht') as [Ht'' Hn']. split; [exact Ht'' | lia].
Qed.

(** An id is given out once: an item created later has a greater id than
    an item created before, whatever was served in between, also when the
    earlier item has been deleted. *)
Theorem ids_are_never_reused
    (env1 env2 : Env) (item1 item2 : ItemCreate.t) (rs : list (Env * request))
    (st st1 st2 : store) (i1 i2 : Item.t) :
  create_item env1 item1 st = (Returns i1, st1) ->
  create_item env2 item2 (serve rs st1) = (Returns i2, st2) ->
  Item.id i1 < Item.id i2.
Proof.
  intros H1 H2.
  apply create_item_Returns in H1 as (r1 & Hins1 & _).
  apply insert_Return in Hins1 as (Hid1 & _ & Ht1 & Hn1 & _).
  apply create_item_Returns in H2 as (r2 & Hins2 & _).
  apply insert_Return in Hins2 as (Hid2 & _).
  destruct (sequence_serve rs st1) as [[t Ht] Hn]; [rewrite Ht1; eauto |].
  rewrite (ensure_Some _ _ Ht) in Hid2. lia.
Qed.

Lemma ids_are_never_reused_witness :
  Item.id CrudSamples.sprocket_item < Item.id CrudSamples.second_sprocket_item.
Proof.
  eapply (ids_are_never_reused Samples.items_env Samples.items_env
            CrudSamples.sprocket CrudSamples.sprocket
            [(Samples.items_env, Delete 3); (Samples.items_env, GetOne 3)]
            CrudSamples.shop).
  - reflexivity.
  - reflexivity.
Defined.

(** An id the sequence has passed and that no row has stays without a
    row. *)
Lemma gone_handle k st r :
  is_Some (tables st) -> k < next_id st -> items st !! k = None ->
  items (handle st r) !! k = None.
Proof.
  intros [t Ht] Hk Hgone. pose proof (ensure_Some _ _ Ht) as He.
  apply eq_None_not_Some. intros Hsome.
  assert (Hold : is_Some (items st !! k)); [| rewrite Hgone in Hold; now destruct Hold].
  destruct r as [env [item | skip limit ao | id | id item | id]]; cbn [handle] in Hsome.
  - rewrite create_item_store, He in Hsome.
    destruct (insert_store env (ItemCreate.name item) (ItemCreate.description item)
                (ItemCreate.price item) (ItemCreate.is_active item) (now env) st)
      as (_ & Hi & _).
    destruct (Hi k Hsome) as [H | [-> _]]; [exact H | lia].
  - now rewrite list_items_store, He in Hsome.
  - unfold get_item in Hsome. cbn [snd] in Hsome. now rewrite He in Hsome.
  - exact (update_ids _ _ _ _ _ Hsome).
  - destruct (delete_item_store id st) as (_ & Hi & _). now apply Hi.
Qed.

Lemma gone_serve k rs st :
  is_Some (tables st) -> k < next_id st -> items st !! k = None ->
  items (serve rs st) !! k = None.
Proof.
  revert st. induction rs as [| r rs IH]; intros st Ht Hk Hgone; [exact Hgone |].
  change (serve (r :: rs) st) with (serve rs (handle st r)).
  destruct (sequence_handle st r Ht) as [Ht' Hn].
  apply IH; [exact Ht' | lia | now apply gone_handle].
Qed.

(** A deleted item stays deleted: in a database whose rows all have ids
    the sequence gave out (as every database the service has built), once
    [delete_item] has removed an item, no later request brings a row
    with its id back, so every later [get_item] of the id is answered
    with 404. *)
Theorem deleted_items_stay_deleted
    (item_id : Z) (st st' : store) (rs : list (Env * request)) :
  below_sequence st ->
  delete_item item_id st = (Returns tt, st') ->
  items (serve rs st') !! item_id = None /\
  fst (get_item item_id (serve rs st'))
    = Fails {| status_code := 404; http_detail := ItemNotFound item_id |}.
Proof.
  intros [_ Hbelow] Hdel.
  assert (Hrow : int4 item_id = true /\ is_Some (items st !! item_id) /\
                 st' = {| tables := Some (delete item_id (items st));
                          next_id := next_id (ensure st) |}).
  { unfold delete_item, execute_delete in Hdel. rewrite ensure_items in Hdel.
    destruct (int4 item_id); cbn [negb] in Hdel; [| discriminate].
    destruct (items st !! item_id) as [r |]; [| discriminate].
    injection Hdel as <-. eauto. }
  destruct Hrow as (Hid & Hsome & ->).
  assert (Hens : ensure st = st) by (destruct Hsome as [r Hr]; exact (items_Some _ _ _ Hr)).
  rewrite Hens.
  assert (Hgone : items (serve rs {| tables := Some (delete item_id (items st));
                                     next_id := next_id st |}) !! item_id = None).
  { apply gone_serve; cbn.
    - eauto.
    - specialize (Hbelow _ Hsome). lia.
    - apply lookup_delete_eq. }
  split; [exact Hgone |].
  now rewrite (get_item_miss _ _ Hid Hgone).
Qed.

Lemma deleted_items_stay_deleted_witness :
  items (serve [(Samples.items_env, Post CrudSamples.sprocket);
                (Samples.items_env, Put 2 Samples.price_only)]
           (snd (delete_item 2 CrudSamples.shop))) !! 2 = None /\
  fst (get_item 2
         (serve [(Samples.items_env, Post CrudSamples.sprocket);
                 (Samples.items_env, Put 2 Samples.price_only)]
            (snd (delete_item 2 CrudSamples.shop))))
    = Fails {| status_code := 404; http_detail := ItemNotFound 2 |}.
Proof.
  apply (deleted_items_stay_deleted 2 CrudSamples.shop).
  - split; [cbn; lia |]. intros j [r Hr].
    destruct (decide (j = 1)) as [-> | H1]; [cbn; lia |].
    destruct (decide (j = 2)) as [-> | H2]; [cbn; lia |].
    unfold items, CrudSamples.shop, Samples.two_items in Hr. cbn [tables rows] in Hr.
    rewrite !lookup_insert_ne, lookup_empty in Hr by congruence. discriminate.
  - reflexivity.
Defined.

End ItemsCrudProps.

(** ** The connection pool *)

Module ConnectionProps.
Import Py Connection ConnectionTasks ConnectionSpec.

Lemma tidy_initial : tidy initial.
Proof. split; [reflexivity | discriminate]. Qed.

Lemma tidy_get_pool env st : tidy st -> tidy (snd (get_pool env st)).
Proof.
  intros [Ho Hc]. unfold get_pool.
  destruct (_pool st) as [p |] eqn:E; cbn [snd].
  - split; [now rewrite E | now rewrite E].
  - destruct (get_settings env) as [s |]; cbn [snd].
    + destruct (create_pool_raises env _ _); cbn [snd]; split; cbn;
        rewrite ?Ho; try reflexivity; try discriminate.
      intros p [= <-]. lia.
    + split; [now rewrite E | now rewrite E].
Qed.

Lemma tidy_close_pool env st : tidy st -> tidy (snd (close_pool env st)).
Proof.
  intros [Ho Hc]. unfold close_pool.
  destruct (_pool st) as [p |] eqn:E; cbn [snd].
  - destruct (close_raises env p); cbn [snd].
    + split; [now rewrite E | now rewrite E].
    + split; [| discriminate]. cbn [open_pools _pool]. rewrite Ho.
      change (filter (fun q => q <> p) [p] = []).
      now rewrite filter_cons_False by (intros H; now apply H).
  - split; [now rewrite E | now rewrite E].
Qed.

Lemma tidy_run env cs st : tidy st -> tidy (run env cs st).
Proof.
  revert st. induction cs as [| c cs IH]; intros st Hst; [exact Hst |].
  cbn. apply IH. destruct c; [now apply tidy_get_pool | now apply tidy_close_pool].
Qed.

(** However [get_pool] and [close_pool] are called one after the other,
    and whatever asyncpg raises: at most one pool is open, and it is the
    pool that [_pool] holds; no pool is open that the module has lost. *)
Theorem open_pool_is_the_held_pool (env : Env) (cs : list call) :
  open_pools (run env cs initial) = option_list (_pool (run env cs initial)).
Proof. exact (proj1 (tidy_run env cs initial tidy_initial)). Qed.

Lemma get_pool_held env st p : _pool st = Some p -> get_pool env st = (Return p, st).
Proof. unfold get_pool. now intros ->. Qed.

Lemma get_pool_Return env st p st' :
  get_pool env st = (Return p, st') -> _pool st' = Some p.
Proof.
  unfold get_pool. destruct (_pool st) as [q |] eqn:E.
  - now intros [= <- <-].
  - destruct (get_settings env); [| discriminate].
    destruct (create_pool_raises env _ _); [discriminate |].
    now intros [= <- <-].
Qed.

Lemma run_get_pool_held env n st p :
  _pool st = Some p -> run env (repeat GetPool n) st = st.
Proof.
  intros Hp. induction n as [| n IH]; [reflexivity |].
  cbn. now rewrite (get_pool_held env st p Hp).
Qed.

(** Once [get_pool] has returned a pool, every later [get_pool] returns
    that pool and [create_pool] is not called again: the state, with its
    count of [create_pool] calls, stays as it is. *)
Theorem pool_is_created_once
    (env : Env) (st st' : state) (p : Pool) (n : nat) :
  get_pool env st = (Return p, st') ->
  get_pool env (run env (repeat GetPool n) st') = (Return p, st').
Proof.
  intros H. apply get_pool_Return in H.
  rewrite (run_get_pool_held env n st' p H). now apply get_pool_held.
Qed.

Lemma pool_is_created_once_witness :
  get_pool PoolSamples.asyncpg_up
    (run PoolSamples.asyncpg_up (repeat GetPool 3)
       {| _pool := Some 0%nat; calls := 1; open_pools := [0%nat] |})
  = (Return 0%nat, {| _pool := Some 0%nat; calls := 1; open_pools := [0%nat] |}).
Proof.
  apply (pool_is_created_once PoolSamples.asyncpg_up initial). reflexivity.
Defined.


(** A [get_pool] that raised has left no pool behind: [_pool] is still
    None, no pool was opened, and the next call asks again. *)
Lemma get_pool_Raise env st e st' :
  get_pool env st = (Raise e, st') ->
  _pool st = None /\ _pool st' = None /\ open_pools st' = open_pools st.
Proof.
  unfold get_pool. destruct (_pool st) as [q |] eqn:E; [discriminate |].
  destruct (get_settings env); [| now intros [= <- <-]].
  destruct (create_pool_raises env _ _); [| discriminate].
  now intros [= <- <-].
Qed.

(** The lifespan with calls made one after the other while serving. *)
Lemma lifespan_sequential env cs :
  (forall p, close_raises env p = None) ->
  exists st out,
    lifespan env (run env cs) initial = (Return tt, st, (out ++ [Closed])%list) /\
    _pool st = None /\
    open_pools st = [] /\
    out = match fst (get_pool env initial) with
          | Return _ => [Initialized]
          | Raise e => [Warning e]
          end.
Proof.
  intros Hclose. unfold lifespan.
  destruct (get_pool env initial) as [started st0] eqn:E0.
  assert (Ht : tidy (run env cs st0)).
  { apply tidy_run. replace st0 with (snd (get_pool env initial)) by now rewrite E0.
    apply tidy_get_pool, tidy_initial. }
  pose proof (tidy_close_pool env _ Ht) as [Ho _].
  revert Ho. unfold close_pool.
  destruct (_pool (run env cs st0)) as [p |] eqn:E.
  - rewrite Hclose. cbn. intros Ho. eauto 10.
  - cbn [snd]. rewrite E. cbn. intros Ho. eauto 10.
Qed.

(** *** Calls that overlap *)

(** A call that no other call overlaps is [get_pool] as above. *)
Lemma call_alone env st :
  play env [Enter; Resume 0] (idle st) = idle (snd (get_pool env st)).
Proof.
  unfold play, idle, get_pool. cbn [fold_left play_one]. unfold enter. cbn [shared waiting].
  destruct (_pool st) as [p |] eqn:E; [reflexivity |].
  destruct (get_settings env) as [s |]; [| reflexivity].
  unfold resume. cbn. rewrite ?E.
  now destruct (create_pool_raises env (args_of s) (calls st)).
Qed.

Lemma enter_held env st p n :
  _pool st = Some p -> play env (repeat Enter n) (idle st) = idle st.
Proof.
  intros Hp.
  assert (He : enter env (idle st) = idle st).
  { unfold enter. cbn. now rewrite Hp. }
  induction n as [| n IH]; [reflexivity |].
  unfold play in *. cbn [repeat fold_left play_one]. now rewrite He.
Qed.

Lemma lost_step env p st c : lost p st -> lost p (step env st c).
Proof.
  intros (Hin & Hne & Hlt). destruct c; cbn [step].
  - unfold get_pool. destruct (_pool st) as [q |] eqn:E.
    { cbn [snd]. unfold lost. rewrite E. auto. }
    destruct (get_settings env) as [s |].
    2: { cbn [snd]. unfold lost. rewrite E. auto. }
    destruct (create_pool_raises env _ _); cbn [snd]; unfold lost;
      cbn [open_pools _pool calls].
    + split; [assumption |]. split; [discriminate | lia].
    + split; [set_solver |]. split; [| lia]. intros [= H]. lia.
  - unfold close_pool. destruct (_pool st) as [q |] eqn:E.
    2: { cbn [snd]. unfold lost. rewrite E. auto. }
    destruct (close_raises env q); cbn [snd].
    { unfold lost. rewrite E. auto. }
    unfold lost. cbn [open_pools _pool calls].
    split; [| split; [discriminate | assumption]].
    apply list_elem_of_filter. split; [congruence | assumption].
Qed.

Lemma lost_run env p cs st : lost p st -> lost p (run env cs st).
Proof.
  revert st. induction cs as [| c cs IH]; intros st H; [exact H |].
  cbn. apply IH. now apply lost_step.
Qed.

(** While the module holds a pool and no call waits, no move of a
    [get_pool] call changes anything. *)
Lemma play_held env ms st p :
  _pool st = Some p -> play env ms (idle st) = idle st.
Proof.
  intros Hp. induction ms as [| m ms IH]; [reflexivity |].
  unfold play in *. cbn [fold_left].
  replace (play_one env (idle st) m) with (idle st); [exact IH |].
  destruct m as [| k]; cbn [play_one].
  - unfold enter. cbn. now rewrite Hp.
  - unfold resume. cbn. now rewrite lookup_nil.
Qed.

(** The lifespan of the application, when closing a pool does not raise.
    With [get_pool] and [close_pool] calls made one after the other while
    serving: whatever happened at startup, the shutdown is reached,
    returns, and leaves no pool open and none held; a failure at startup
    is printed, not raised.  With [get_pool] calls that overlap in any
    way while serving (the handlers call nothing else): when the startup
    created the pool, the calls create no other pool, and the shutdown
    closes the one pool and leaves none open.  (After a startup that
    failed, calls that overlap can leave a pool open, as shown below.) *)
Theorem lifespan_leaves_no_pool_open (env : Env) :
  (forall p, close_raises env p = None) ->
  (forall cs, exists st out,
     lifespan env (run env cs) initial = (Return tt, st, (out ++ [Closed])%list) /\
     _pool st = None /\
     open_pools st = [] /\
     out = match fst (get_pool env initial) with
           | Return _ => [Initialized]
           | Raise e => [Warning e]
           end) /\
  (forall ms p st0,
     get_pool env initial = (Return p, st0) ->
     lifespan env (fun st => shared (play env ms (idle st))) initial
       = (Return tt,
          {| _pool := None; calls := calls st0; open_pools := [] |},
          [Initialized; Closed])).
Proof.
  intros Hclose. split; [intros cs; now apply lifespan_sequential |].
  intros ms p st0 H0. unfold lifespan. rewrite H0.
  pose proof (get_pool_Return _ _ _ _ H0) as Hp.
  rewrite (play_held env ms st0 p Hp). cbn [shared idle].
  unfold close_pool. rewrite Hp, Hclose.
  assert (Ht : tidy st0).
  { replace st0 with (snd (get_pool env initial)) by now rewrite H0.
    apply tidy_get_pool, tidy_initial. }
  destruct Ht as [Ho _]. rewrite Ho, Hp.
  change (option_list (Some p)) with [p].
  rewrite filter_cons_False by (intros H; now apply H).
  reflexivity.
Qed.

Lemma lifespan_leaves_no_pool_open_witness :
  (exists st out,
     lifespan PoolSamples.asyncpg_late
       (run PoolSamples.asyncpg_late [GetPool; ClosePool; GetPool]) initial
       = (Return tt, st, (out ++ [Closed])%list) /\
     _pool st = None /\
     open_pools st = [] /\
     out = match fst (get_pool PoolSamples.asyncpg_late initial) with
           | Return _ => [Initialized]
           | Raise e => [Warning e]
           end) /\
  lifespan PoolSamples.asyncpg_up
    (fun st => shared (play PoolSamples.asyncpg_up
                         [Enter; Enter; Resume 0; Resume 0] (idle st))) initial
    = (Return tt, {| _pool := None; calls := 1; open_pools := [] |},
       [Initialized; Closed]).
Proof.
  split.
  - apply (proj1 (lifespan_leaves_no_pool_open PoolSamples.asyncpg_late
                    ltac:(reflexivity)) [GetPool; ClosePool; GetPool]).
  - apply (proj2 (lifespan_leaves_no_pool_open PoolSamples.asyncpg_up
                    ltac:(reflexivity))
                 [Enter; Enter; Resume 0; Resume 0] 0%nat
                 {| _pool := Some 0%nat; calls := 1; open_pools := [0%nat] |}).
    reflexivity.
Defined.

(** Calls of [get_pool] that overlap.  While the module holds a pool, a
    call returns it without waiting, so any number of calls change
    nothing.  While it holds none, two calls that both reach
    [create_pool] before either has its answer open two pools; [_pool]
    keeps the second, and the first stays open whatever [get_pool] and
    [close_pool] calls follow: the module never closes it. *)
Theorem overlapping_calls_lose_a_pool
    (env : Env) (st : state) (settings : Settings) :
  (forall p n, _pool st = Some p ->
     play env (repeat Enter n) (idle st) = idle st) /\
  (_pool st = None ->
   get_settings env = Return settings ->
   create_pool_raises env (args_of settings) (calls st) = None ->
   create_pool_raises env (args_of settings) (S (calls st)) = None ->
   exists st',
     play env [Enter; Enter; Resume 0; Resume 0] (idle st) = idle st' /\
     _pool st' = Some (S (calls st)) /\
     open_pools st' = (open_pools st ++ [calls st; S (calls st)])%list /\
     forall cs, calls st ∈ open_pools (run env cs st')).
Proof.
  split; [intros p n; apply enter_held |].
  intros Hp Hs H0 H1.
  exists {| _pool := Some (S (calls st)); calls := S (S (calls st));
            open_pools := (open_pools st ++ [calls st; S (calls st)])%list |}.
  repeat apply conj; try reflexivity.
  - unfold play, idle. cbn [fold_left play_one]. unfold enter. cbn. rewrite Hp, Hs.
    cbn. unfold resume. cbn. rewrite H0. cbn. rewrite H1. cbn.
    now rewrite <- app_assoc.
  - intros cs. apply (lost_run env (calls st) cs). repeat split; cbn.
    + set_solver.
    + intros [= H]. lia.
    + lia.
Qed.

Lemma overlapping_calls_lose_a_pool_witness :
  exists st',
    play PoolSamples.asyncpg_up [Enter; Enter; Resume 0; Resume 0] (idle initial)
      = idle st' /\
    _pool st' = Some 1%nat /\
    open_pools st' = [0%nat; 1%nat] /\
    forall cs, 0%nat ∈ open_pools (run PoolSamples.asyncpg_up cs st').
Proof.
  apply (proj2 (overlapping_calls_lose_a_pool PoolSamples.asyncpg_up initial
                  default_settings)); reflexivity.
Defined.

End ConnectionProps.

(** ** The backup report: edges of the normal path *)

Module BackupsEdgeProps.
Import Py Pydantic Backups BackupsSpec BackupsEdgeSpec PyProps BackupsProps.

(** *** [str.strip] *)

Lemma lstrip_spec s :
  exists before,
    s = before +:+ lstrip s /\ blank before = true /\
    match lstrip s with
    | String c _ => isspace c = false
    | EmptyString => True
    end.
Proof.
  induction s as [| c s (before & Hs & Hb & Hc)]; cbn.
  - exists EmptyString. auto.
  - destruct (isspace c) eqn:E.
    + exists (String c before).
      split; [exact (f_equal (String c) Hs) |]. cbn. now rewrite E, Hb.
    + exists EmptyString. cbn. now rewrite E.
Qed.

Lemma rstrip_spec s :
  exists after,
    s = rstrip s +:+ after /\ blank after = true /\
    match rstrip s with
    | String c r => isspace (last_char c r) = false
    | EmptyString => True
    end.
Proof.
  induction s as [| c s (after & Hs & Hb & Hc)]; cbn.
  - exists EmptyString. auto.
  - destruct (rstrip s) as [| c' r].
    + destruct (isspace c) eqn:E.
      * exists (String c after).
        split; [exact (f_equal (String c) Hs) |]. cbn. now rewrite E, Hb.
      * exists after. split; [exact (f_equal (String c) Hs) | auto].
    + exists after. split; [exact (f_equal (String c) Hs) | auto].
Qed.

Lemma rstrip_head c s :
  isspace c = false -> exists r, rstrip (String c s) = String c r.
Proof. intros E. cbn. destruct (rstrip s); rewrite ?E; eauto. Qed.

(** [strip] cuts a text into the whitespace before, the text without it,
    and the whitespace after. *)
Lemma strip_spec s :
  exists before after,
    s = before +:+ strip s +:+ after /\
    blank before = true /\ blank after = true /\ trimmed (strip s) = true.
Proof.
  destruct (lstrip_spec s) as (before & Hs & Hb & Hc).
  destruct (rstrip_spec (lstrip s)) as (after & Hs' & Ha & Hc').
  exists before, after. unfold strip. rewrite <- Hs', <- Hs.
  repeat split; try assumption.
  destruct (lstrip s) as [| c t]; [reflexivity |].
  destruct (rstrip_head c t Hc) as [r Hr]. rewrite Hr in Hc' |- *.
  cbn. now rewrite Hc, Hc'.
Qed.

Lemma blank_app a b : blank (a +:+ b) = blank a && blank b.
Proof.
  induction a as [| c a IH]; [reflexivity |].
  change (isspace c && blank (a +:+ b) = isspace c && blank a && blank b).
  now rewrite IH, andb_assoc.
Qed.

Lemma blank_trimmed s : blank s = true -> trimmed s = true -> s = EmptyString.
Proof.
  destruct s as [| c s]; [reflexivity |]. cbn.
  destruct (isspace c); cbn; discriminate.
Qed.

(** *** The message of an unavailable tool *)

(** After a non-zero exit the report's message is the standard-error text
    without the whitespace around it: the text is cut into whitespace,
    a part that neither starts nor ends with whitespace, and whitespace,
    and the part in the middle is reported; "Unknown error" stands in
    exactly when the text is whitespace only. *)
Theorem stderr_is_reported_trimmed (env : Env) (p : CompletedProcess) :
  run_pgbackrest env = Return p ->
  returncode p <> 0 ->
  exists before text after,
    stderr p = before +:+ text +:+ after /\
    blank before = true /\ blank after = true /\ trimmed text = true /\
    (blank (stderr p) = true <-> text = EmptyString) /\
    get_backup_status env =
      Responds (degraded env "unavailable"
                  ("pgBackRest error: " +:+
                   (if blank (stderr p) then "Unknown error" else text))).
Proof.
  intros H Hrc.
  destruct (strip_spec (stderr p)) as (before & after & Hs & Hb & Ha & Ht).
  exists before, (strip (stderr p)), after.
  assert (Hblank : blank (stderr p) = true <-> strip (stderr p) = EmptyString).
  { split.
    - intros Hall. rewrite Hs, !blank_app in Hall.
      apply andb_prop in Hall as [_ Hall]. apply andb_prop in Hall as [Hall _].
      now apply blank_trimmed.
    - intros He. rewrite Hs, He, !blank_app, Hb, Ha. reflexivity. }
  repeat split; try assumption; try apply Hblank.
  apply responds_of_return. rewrite (try_body_nonzero _ _ H Hrc).
  unfold str_or. destruct (strip (stderr p)) as [| c t] eqn:E.
  - rewrite (proj2 Hblank eq_refl). reflexivity.
  - destruct (blank (stderr p)) eqn:Eb; [| reflexivity].
    discriminate (proj1 Hblank eq_refl).
Qed.

Lemma stderr_is_reported_trimmed_witness :
  exists before text after,
    Samples.stanza_not_found = before +:+ text +:+ after /\
    blank before = true /\ blank after = true /\ trimmed text = true /\
    (blank Samples.stanza_not_found = true <-> text = EmptyString) /\
    get_backup_status (Samples.backups_env (Samples.exits 1 "" Samples.stanza_not_found)) =
      Responds (degraded (Samples.backups_env (Samples.exits 1 "" Samples.stanza_not_found))
                  "unavailable"
                  ("pgBackRest error: " +:+
                   (if blank Samples.stanza_not_found then "Unknown error" else text))).
Proof.
  apply (stderr_is_reported_trimmed
           (Samples.backups_env (Samples.exits 1 "" Samples.stanza_not_found))
           {| returncode := 1; stdout := ""; stderr := Samples.stanza_not_found |}).
  - reflexivity.
  - cbn. lia.
Defined.


(** *** Entries that cannot be read *)

(** The loop stops at the first entry that raises, with what it
    raises. *)
Lemma loop_stops env readable backup rest cause :
  Forall (fun b => exists r, backup_info_of env b = Return r) readable ->
  backup_info_of env backup = Raise cause ->
  forall st, loop env st (readable ++ backup :: rest) = Raise cause.
Proof.
  intros Hread Hbad.
  induction Hread as [| x readable [r Hx] _ IH]; intros [[bs lf] ld].
  - cbn [app loop]. unfold loop_body. now rewrite Hbad.
  - cbn [app loop]. unfold loop_body. rewrite Hx. cbn [bind].
    destruct (track r lf ld) as [lf' ld']. cbn [bind]. apply IH.
Qed.

(** One backup entry that cannot be read fails the whole request, and
    the first such entry decides how: when the info block is in order
    and the entries of its backup list can be read up to one whose
    record cannot be built, the handler gives no report, not even of the
    entries before it, and raises the HTTP 500 with the exception of
    that entry, whatever entries follow it. *)
Theorem unreadable_entry_fails_the_request
    (env : Env) (p : CompletedProcess) (d : list (string * value))
    (others : list value) (s : list (string * value))
    (readable : list value) (backup : value) (rest : list value) (cause : exn) :
  run_pgbackrest env = Return p ->
  returncode p = 0 ->
  json_loads env (stdout p) = Return (PyList (PyDict d :: others)) ->
  status_object d = Some s ->
  backup_entries d = Return (readable ++ backup :: rest)%list ->
  Forall (fun b => exists r, backup_info_of env b = Return r) readable ->
  backup_info_of env backup = Raise cause ->
  get_backup_status env =
    Fails {| status_code := 500;
             detail_prefix := "Failed to get backup status: ";
             detail_cause := cause |}.
Proof.
  intros H Hrc Hl Hs He Hread Hbad.
  pose proof (loop_stops env readable backup rest cause Hread Hbad ([], None, None))
    as Hloop.
  assert (Hrep : report_of env (PyDict d) = Raise cause).
  { unfold report_of. rewrite (get_status_object _ _ Hs). cbn [bind get].
    unfold backup_entries in He. cbn [get bind] in He. rewrite He. cbn [bind].
    now rewrite Hloop. }
  unfold get_backup_status.
  rewrite (try_body_zero _ _ H Hrc), Hl. cbn [bind truthy negb getitem0].
  rewrite Hrep. apply backup_info_of_uncaught in Hbad.
  destruct cause; try discriminate Hbad; reflexivity.
Qed.

Lemma unreadable_entry_fails_the_request_witness :
  backup_info_of (EdgeSamples.edge_env (Samples.exits 0 "broken" ""))
    EdgeSamples.text_for_start = Raise TypeError /\
  get_backup_status (EdgeSamples.edge_env (Samples.exits 0 "broken" "")) =
    Fails {| status_code := 500;
             detail_prefix := "Failed to get backup status: ";
             detail_cause := AttributeError |}.
Proof.
  split; [reflexivity |].
  apply (unreadable_entry_fails_the_request
           (EdgeSamples.edge_env (Samples.exits 0 "broken" ""))
           {| returncode := 0; stdout := "broken"; stderr := "" |}
           EdgeSamples.broken_block []
           [("code", PyInt 0); ("message", PyStr "ok")]
           [EdgeSamples.readable_entry] EdgeSamples.text_for_timestamps
           [EdgeSamples.text_for_start] AttributeError).
  - reflexivity.
  - reflexivity.
  - reflexivity.
  - reflexivity.
  - reflexivity.
  - constructor; [eexists; reflexivity | constructor].
  - reflexivity.
Defined.

(** *** The archive range *)

Lemma report_of_archive env stanza_info r :
  report_of env stanza_info = Return r ->
  wal_archive_of stanza_info = Return (wal_archive r).
Proof.
  unfold report_of. intros H.
  do 6 (apply bind_Return in H as (? & _ & H)).
  apply bind_Return in H as ([[bs lf] ld] & _ & H).
  apply bind_Return in H as (w & Hw & H).
  apply bind_Return in H as (? & _ & H).
  injection H as <-. exact Hw.
Qed.

(** The archive range of a report is read off the first entry of the info
    block's archive list, whatever entries follow it; a block without the
    list, or with an empty (or other false) value in its place, gives a
    report without a range. *)
Theorem wal_archive_is_first_archive_entry
    (env : Env) (p : CompletedProcess) (d : list (string * value))
    (others : list value) (r : BackupResponse) :
  run_pgbackrest env = Return p ->
  returncode p = 0 ->
  json_loads env (stdout p) = Return (PyList (PyDict d :: others)) ->
  get_backup_status env = Responds r ->
  (wal_archive r = None /\
   forall v, dict_lookup "archive" d = Some v -> truthy v = false) \/
  (exists entry rest w,
     dict_lookup "archive" d = Some (PyList (PyDict entry :: rest)) /\
     range_of entry = Return w /\
     wal_archive r = Some w).
Proof.
  intros H Hrc Hl Hr.
  destruct (responds_normal env p _ r H Hrc Hl eq_refl Hr) as (si & Hsi & Hrep).
  injection Hsi as <-. apply report_of_archive in Hrep.
  unfold wal_archive_of in Hrep. cbn [get bind] in Hrep.
  destruct (dict_lookup "archive" d) as [v |] eqn:E; cbn [truthy] in Hrep.
  - destruct (truthy v) eqn:Ev.
    + right. apply bind_Return in Hrep as (first & Hfirst & Hrep).
      apply bind_Return in Hrep as (min_wal & Hmin & Hrep).
      apply bind_Return in Hrep as (first' & Hfirst' & Hrep).
      apply bind_Return in Hrep as (max_wal & Hmax & Hrep).
      apply bind_Return in Hrep as (w & Hw & Hrep).
      rewrite Hfirst in Hfirst'. injection Hfirst' as <-.
      destruct first as [| | | | | | entry]; try discriminate Hmin.
      destruct v as [| | | | t | [| x rest] |]; try discriminate Hfirst.
      * destruct t; discriminate Hfirst.
      * injection Hfirst as ->. injection Hmin as <-. injection Hmax as <-.
        injection Hrep as <-. exists entry, rest, w. auto.
    + left. injection Hrep as <-. split; [reflexivity |]. now intros v' [= <-].
  - left. injection Hrep as <-. split; [reflexivity | discriminate].
Qed.

Lemma wal_archive_is_first_archive_entry_witness :
  exists r,
    get_backup_status (EdgeSamples.edge_env (Samples.exits 0 "two ranges" ""))
      = Responds r /\
    ((wal_archive r = None /\
      forall v, dict_lookup "archive" EdgeSamples.two_ranges_block = Some v ->
                truthy v = false) \/
     (exists entry rest w,
        dict_lookup "archive" EdgeSamples.two_ranges_block
          = Some (PyList (PyDict entry :: rest)) /\
        range_of entry = Return w /\
        wal_archive r = Some w)).
Proof.
  eexists. split; [reflexivity |].
  apply (wal_archive_is_first_archive_entry
           (EdgeSamples.edge_env (Samples.exits 0 "two ranges" ""))
           {| returncode := 0; stdout := "two ranges"; stderr := "" |}
           EdgeSamples.two_ranges_block []); reflexivity.
Defined.


(** *** Timestamps *)

(** [parse_pgbackrest_timestamp] gives None for null only: any other
    value is converted or raises, so the timestamp 0 is the epoch and not
    a missing time.  A number of seconds within the years 1 to 9999
    becomes that instant, one outside raises; and the conversion keeps
    the order of the timestamps. *)
Theorem timestamps_keep_their_order (a b : Z) :
  (forall v, parse_pgbackrest_timestamp v = Return None <-> v = PyNone) /\
  (min_timestamp <= a <= max_timestamp ->
   parse_pgbackrest_timestamp (PyInt a) = Return (Some (a * 1000000))) /\
  (a < min_timestamp \/ max_timestamp < a ->
   parse_pgbackrest_timestamp (PyInt a) = Raise TimestampError) /\
  (forall x y,
     parse_pgbackrest_timestamp (PyInt a) = Return (Some x) ->
     parse_pgbackrest_timestamp (PyInt b) = Return (Some y) ->
     (a < b <-> x < y)).
Proof.
  assert (Hint : forall n,
            parse_pgbackrest_timestamp (PyInt n) =
              if (min_timestamp <=? n) && (n <=? max_timestamp)
              then Return (Some (n * 1000000)) else Raise TimestampError).
  { intros n. cbn. unfold datetime_of.
    destruct (_ && _); cbn; [now rewrite Z.add_0_r | reflexivity]. }
  repeat apply conj.
  - intros v. split; [| now intros ->].
    destruct v; try reflexivity; unfold parse_pgbackrest_timestamp;
      (match goal with |- context [fromtimestamp ?x] =>
         destruct (fromtimestamp x) end);
      discriminate.
  - intros [Hlo Hhi]. rewrite Hint.
    destruct (Z.leb_spec min_timestamp a); [| lia].
    destruct (Z.leb_spec a max_timestamp); [reflexivity | lia].
  - intros Hout. rewrite Hint.
    destruct (Z.leb_spec min_timestamp a); [| reflexivity].
    destruct (Z.leb_spec a max_timestamp); [lia | reflexivity].
  - intros x y. rewrite !Hint.
    destruct (_ && _); [| discriminate]. destruct (_ && _); [| discriminate].
    intros [= <-] [= <-]. lia.
Qed.

Lemma timestamps_keep_their_order_witness :
  parse_pgbackrest_timestamp (PyInt 0) = Return (Some 0) /\
  parse_pgbackrest_timestamp (PyInt 253402300800) = Raise TimestampError /\
  (1705320000 < 1705320600 <-> 1705320000000000 < 1705320600000000).
Proof.
  destruct (timestamps_keep_their_order 1705320000 1705320600)
    as (_ & _ & _ & Horder).
  destruct (timestamps_keep_their_order 0 0) as (_ & Hin & _).
  destruct (timestamps_keep_their_order 253402300800 0) as (_ & _ & Hout & _).
  split; [apply Hin; unfold min_timestamp, max_timestamp; lia |].
  split; [apply Hout; unfold max_timestamp; lia |].
  apply Horder; reflexivity.
Defined.

(** *** The shape of every report *)

Lemma status_of_code_cases code :
  status_of_code code = "ok" \/ status_of_code code = "missing_stanza" \/
  status_of_code code = "no_backup" \/ status_of_code code = "error".
Proof.
  unfold status_of_code.
  destruct (eq_int code 0); [auto |].
  destruct (eq_int code 1); [auto |].
  destruct (eq_int code 2); auto.
Qed.

(** Every report the handler returns names the configured stanza, carries
    the time of the request, and has one of nine statuses.  A report with
    the status ok has no message.  A report with one of the five statuses
    that are given without an info block (unavailable, no_stanza, timeout,
    not_installed, parse_error) has a message and holds no backup records,
    no archive range and no last backup. *)
Theorem report_status_is_known (env : Env) (r : BackupResponse) :
  get_backup_status env = Responds r ->
  In (status r) statuses /\
  stanza r = pgbackrest_stanza env /\
  timestamp r = now env /\
  (status r = "ok" -> status_message r = None) /\
  (In (status r) degraded_statuses ->
   is_Some (status_message r) /\ backups r = [] /\ wal_archive r = None /\
   last_full_backup r = None /\ last_diff_backup r = None).
Proof.
  assert (Hdeg : forall st msg,
            In st degraded_statuses ->
            let r := degraded env st msg in
            In (status r) statuses /\
            stanza r = pgbackrest_stanza env /\
            timestamp r = now env /\
            (status r = "ok" -> status_message r = None) /\
            (In (status r) degraded_statuses ->
             is_Some (status_message r) /\ backups r = [] /\ wal_archive r = None /\
             last_full_backup r = None /\ last_diff_backup r = None)).
  { intros st msg Hst. cbn. repeat apply conj; try reflexivity.
    - cbn in Hst |- *. intuition.
    - intros ->. cbn in Hst. intuition discriminate.
    - intros _. repeat split. now exists msg. }
  unfold get_backup_status.
  destruct (try_body env) as [r' | e] eqn:E.
  - intros [= <-]. unfold try_body in E.
    apply bind_Return in E as (p & _ & E).
    destruct (negb (returncode p =? 0)).
    { injection E as <-. apply Hdeg. cbn. auto. }
    apply bind_Return in E as (info & _ & E).
    destruct (negb (truthy info)).
    { injection E as <-. apply Hdeg. cbn. auto. }
    apply bind_Return in E as (stanza_info & _ & E).
    unfold report_of in E.
    apply bind_Return in E as (? & _ & E).
    apply bind_Return in E as (code & _ & E).
    do 4 (apply bind_Return in E as (? & _ & E)).
    apply bind_Return in E as ([[bs lf] ld] & _ & E).
    apply bind_Return in E as (w & _ & E).
    apply bind_Return in E as (msg & Hmsg & E).
    injection E as <-. cbn [status stanza timestamp status_message backups
                              wal_archive last_full_backup last_diff_backup].
    repeat apply conj; try reflexivity.
    + cbn. destruct (status_of_code_cases code) as [-> | [-> | [-> | ->]]]; auto 10.
    + intros Hok. rewrite Hok in Hmsg. cbn in Hmsg. now injection Hmsg as <-.
    + intros Hin. exfalso. cbn in Hin.
      destruct (status_of_code_cases code) as [Hc | [Hc | [Hc | Hc]]];
        rewrite Hc in Hin; intuition discriminate.
  - destruct e; try discriminate; intros [= <-]; apply Hdeg; cbn; auto 10.
Qed.

Lemma report_status_is_known_witness :
  In (status Samples.unordered_report) statuses /\
  stanza Samples.unordered_report = "pgha-dev-postgres" /\
  timestamp Samples.unordered_report = 1736942400000000 /\
  (status Samples.unordered_report = "ok" ->
   status_message Samples.unordered_report = None) /\
  (In (status Samples.unordered_report) degraded_statuses ->
   is_Some (status_message Samples.unordered_report) /\
   backups Samples.unordered_report = [] /\
   wal_archive Samples.unordered_report = None /\
   last_full_backup Samples.unordered_report = None /\
   last_diff_backup Samples.unordered_report = None).
Proof.
  apply (report_status_is_known
           (Samples.backups_env (Samples.exits 0 "unordered" ""))
           Samples.unordered_report).
  reflexivity.
Defined.


End BackupsEdgeProps.

(** ** The metrics: the standby, missing rows and NULL cells *)

Module MetricsEdgeProps.
Import Py Metrics MetricsSpec MetricsEdgeSpec PyProps MetricsProps.

(** The [try] body up to the lag query. *)
Lemma try_body_lag env r :
  try_body env = Return r ->
  exists b,
    in_recovery env = Return b /\ is_in_recovery r = b /\
    (if b then lag_result env else Return None) = Return (replication_lag_bytes r).
Proof.
  unfold try_body. intros H.
  apply bind_Return in H as (size & _ & H).
  apply bind_Return in H as (ci & _ & H).
  apply bind_Return in H as (ts & _ & H).
  apply bind_Return in H as (b & Hb & H).
  apply bind_Return in H as (lag & Hlag & H).
  do 6 (apply bind_Return in H as (? & _ & H)).
  injection H as <-. exists b. cbn. auto.
Qed.

(** The replication lag is asked for on a standby only.  On a primary
    the lag query is not made: whatever it would answer, the handler does
    the same, and a report has no lag.  On a standby a report carries
    what the lag query answered, and a lag query that raises makes the
    handler raise the HTTP 500 with that cause. *)
Theorem lag_is_read_on_a_standby_only (env : Env) :
  (in_recovery env = Return false ->
   (forall lag, get_metrics (with_lag env lag) = get_metrics env) /\
   (forall r, get_metrics env = Responds r ->
      replication_lag_bytes r = None /\ is_in_recovery r = false)) /\
  (in_recovery env = Return true ->
   (forall r, get_metrics env = Responds r ->
      lag_result env = Return (replication_lag_bytes r) /\ is_in_recovery r = true) /\
   (forall e, answers_before_lag env -> lag_result env = Raise e ->
      get_metrics env =
        Fails {| status_code := 500;
                 detail_prefix := "Failed to retrieve metrics: ";
                 detail_cause := e |})).
Proof.
  split; intros Hrec.
  - split.
    + intros lag. unfold get_metrics, try_body. cbn [with_lag db_size conn_info
        txn_stats in_recovery lag_result now]. rewrite Hrec.
      destruct (db_size env); [| reflexivity]. cbn [bind].
      destruct (conn_info env); [| reflexivity]. cbn [bind].
      destruct (txn_stats env); reflexivity.
    + intros r Hr. apply metrics_responds, try_body_lag in Hr as (b & Hb & Hi & Hl).
      rewrite Hrec in Hb. injection Hb as <-. split; [| exact Hi].
      now injection Hl.
  - split.
    + intros r Hr. apply metrics_responds, try_body_lag in Hr as (b & Hb & Hi & Hl).
      rewrite Hrec in Hb. injection Hb as <-. auto.
    + intros e ((size & Hsize) & (ci & Hci) & (ts & Hts)) Hlag.
      unfold get_metrics, try_body. rewrite Hsize, Hci, Hts, Hrec. cbn [bind].
      rewrite Hlag. reflexivity.
Qed.

Lemma lag_is_read_on_a_standby_only_witness :
  (forall r, get_metrics EdgeSamples.standby = Responds r ->
     lag_result EdgeSamples.standby = Return (replication_lag_bytes r) /\
     is_in_recovery r = true) /\
  (forall e, answers_before_lag EdgeSamples.standby ->
     lag_result EdgeSamples.standby = Raise e ->
     get_metrics EdgeSamples.standby =
       Fails {| status_code := 500;
                detail_prefix := "Failed to retrieve metrics: ";
                detail_cause := e |}).
Proof.
  apply (proj2 (lag_is_read_on_a_standby_only EdgeSamples.standby)). reflexivity.
Defined.

(** When the statistics view has no row for the database, [fetchrow]
    gives None and the first subscript on it raises: the handler answers
    with the HTTP 500, whatever the other queries gave. *)
Theorem missing_stats_row_is_500 (env : Env) :
  (exists size, db_size env = Return size) ->
  (exists ci, conn_info env = Return ci) ->
  txn_stats env = Return None ->
  (exists b, in_recovery env = Return b /\
             (b = true -> exists lag, lag_result env = Return lag)) ->
  get_metrics env =
    Fails {| status_code := 500;
             detail_prefix := "Failed to retrieve metrics: ";
             detail_cause := TypeError |}.
Proof.
  intros (size & Hsize) (ci & Hci) Hts (b & Hb & Hlag).
  unfold get_metrics, try_body. rewrite Hsize, Hci, Hts, Hb. cbn [bind].
  destruct b.
  - destruct (Hlag eq_refl) as [lag ->]. reflexivity.
  - reflexivity.
Qed.

Lemma missing_stats_row_is_500_witness :
  get_metrics EdgeSamples.no_stats =
    Fails {| status_code := 500;
             detail_prefix := "Failed to retrieve metrics: ";
             detail_cause := TypeError |}.
Proof.
  apply (missing_stats_row_is_500 EdgeSamples.no_stats).
  - eexists. reflexivity.
  - eexists. reflexivity.
  - reflexivity.
  - exists false. split; [reflexivity | discriminate].
Defined.

(** Every count of a report is the cell the query gave, with 0 in the
    place of NULL (100 for the connection limit, also in the place of 0),
    and the report carries the time of the request. *)
Theorem null_cells_are_reported_as_zero (env : Env) (r : MetricsResponse) :
  get_metrics env = Responds r ->
  exists size ci ts,
    db_size env = Return size /\
    conn_info env = Return ci /\
    txn_stats env = Return (Some ts) /\
    database_size_bytes r = default 0 size /\
    active_connections r = default 0 (row_active_connections ci) /\
    max_connections r =
      match row_max_connections ci with
      | None | Some 0 => 100
      | Some m => m
      end /\
    transactions_committed r = default 0 (committed ts) /\
    transactions_rolled_back r = default 0 (rolled_back ts) /\
    blocks_read r = default 0 (blks_read ts) /\
    blocks_hit r = default 0 (blks_hit ts) /\
    timestamp r = now env.
Proof.
  intros H. apply metrics_responds in H. unfold try_body in H.
  apply bind_Return in H as (size & Hsize & H).
  apply bind_Return in H as (ci & Hci & H).
  apply bind_Return in H as (ts & Hts & H).
  apply bind_Return in H as (b & _ & H).
  apply bind_Return in H as (lag & _ & H).
  destruct ts as [ts |]; cbn [subscript bind] in H; [| discriminate].
  apply bind_Return in H as (ratio & _ & H).
  apply bind_Return in H as (usage & _ & H).
  injection H as <-. exists size, ci, ts.
  cbn [database_size_bytes active_connections max_connections
       transactions_committed transactions_rolled_back blocks_read blocks_hit
       timestamp].
  rewrite !int_or_zero. repeat split; try assumption.
  destruct (row_max_connections ci) as [[| m | m] |]; reflexivity.
Qed.

Lemma null_cells_are_reported_as_zero_witness :
  exists r,
    get_metrics EdgeSamples.standby = Responds r /\
    transactions_committed r = 0 /\
    transactions_rolled_back r = 1 /\
    replication_lag_bytes r = Some 4096.
Proof.
  eexists. split; [reflexivity |].
  destruct (null_cells_are_reported_as_zero EdgeSamples.standby _ eq_refl)
    as (size & ci & ts & _ & _ & Hts & _ & _ & _ & Hc & Hr & _).
  injection Hts as <-. split; [exact Hc |]. split; [exact Hr | reflexivity].
Defined.

(** A division the handler makes raises for a quotient beyond the floats
    only. *)
Lemma truediv_Raise a b e : 0 < b -> truediv a b = Raise e -> e = OverflowError.
Proof.
  intros Hb. unfold truediv.
  destruct (Z.eqb_spec b 0); [lia |].
  destruct (a =? 0); [discriminate |].
  destruct (SFdiv _ _ _ _); try discriminate. now intros [= <-].
Qed.

Lemma cache_hit_ratio_of_Raise x y e :
  cache_hit_ratio_of x y = Raise e -> e = OverflowError.
Proof.
  unfold cache_hit_ratio_of.
  destruct (Z.ltb_spec 0 (x + y)) as [Hpos | _]; [| discriminate].
  destruct (truediv y (x + y)) as [q | e'] eqn:E; [discriminate |].
  intros [= <-]. exact (truediv_Raise _ _ _ Hpos E).
Qed.

Lemma conn_usage_of_Raise x y e :
  conn_usage_of x y = Raise e -> e = OverflowError.
Proof.
  unfold conn_usage_of.
  destruct (Z.ltb_spec 0 y) as [Hpos | _]; [| discriminate].
  destruct (truediv x y) as [q | e'] eqn:E; [discriminate |].
  intros [= <-]. exact (truediv_Raise _ _ _ Hpos E).
Qed.

(** What the [try] body raises. *)
Lemma try_body_Raise env e :
  try_body env = Raise e ->
  first_failure env = Some e \/
  (first_failure env = None /\
   ((txn_stats env = Return None /\ e = TypeError) \/ e = OverflowError)).
Proof.
  unfold try_body, first_failure.
  destruct (db_size env) as [size | x]; cbn [bind]; [| intros [= <-]; auto].
  destruct (conn_info env) as [ci | x]; cbn [bind]; [| intros [= <-]; auto].
  destruct (txn_stats env) as [ts | x]; cbn [bind]; [| intros [= <-]; auto].
  destruct (in_recovery env) as [b | x]; cbn [bind]; [| intros [= <-]; auto].
  assert (Hrest : forall lag,
            (do blks_read <- subscript ts blks_read;
             do blks_hit <- subscript ts blks_hit;
             do cache_hit_ratio <-
               cache_hit_ratio_of (int_or blks_read 0) (int_or blks_hit 0);
             do conn_usage <-
               conn_usage_of (int_or (row_active_connections ci) 0)
                             (int_or (row_max_connections ci) 100);
             do committed <- subscript ts committed;
             do rolled_back <- subscript ts rolled_back;
             Return {| database_size_bytes := int_or size 0;
                       active_connections := int_or (row_active_connections ci) 0;
                       max_connections := int_or (row_max_connections ci) 100;
                       connection_usage_percent := validate_float (round_2 conn_usage);
                       transactions_committed := int_or committed 0;
                       transactions_rolled_back := int_or rolled_back 0;
                       blocks_read := int_or blks_read 0;
                       blocks_hit := int_or blks_hit 0;
                       cache_hit_ratio := validate_float (round_2 cache_hit_ratio);
                       replication_lag_bytes := lag;
                       is_in_recovery := b;
                       timestamp := now env |}) = Raise e ->
            (Return ts = Return None /\ e = TypeError) \/ e = OverflowError).
  { intros lag. destruct ts as [ts |]; cbn [subscript bind];
      [| intros [= <-]; auto].
    intros H. right.
    apply bind_Raise in H as [H | (ratio & _ & H)];
      [exact (cache_hit_ratio_of_Raise _ _ _ H) |].
    apply bind_Raise in H as [H | (usage & _ & H)];
      [exact (conn_usage_of_Raise _ _ _ H) | discriminate]. }
  destruct b.
  - destruct (lag_result env) as [lag | x]; cbn [bind]; [| intros [= <-]; auto].
    intros H. right. split; [reflexivity |]. exact (Hrest lag H).
  - cbn [bind]. intros H. right. split; [reflexivity |]. exact (Hrest None H).
Qed.

Lemma first_failure_raises env x :
  first_failure env = Some x -> try_body env = Raise x.
Proof.
  unfold try_body, first_failure.
  destruct (db_size env) as [size | e]; cbn [bind]; [| congruence].
  destruct (conn_info env) as [ci | e]; cbn [bind]; [| congruence].
  destruct (txn_stats env) as [ts | e]; cbn [bind]; [| congruence].
  destruct (in_recovery env) as [[|] | e]; cbn [bind]; [| discriminate | congruence].
  destruct (lag_result env) as [lag | e]; cbn [bind]; [discriminate | congruence].
Qed.

(** A query that raises is answered with HTTP 500, and the 500 carries
    the exception of the first query that raised, in the order in which
    the handler makes its queries (size, connections, statistics,
    recovery, and the lag on a standby): no query's failure is passed
    over.  And the handler raises nothing but a 500 whose cause is that
    exception, or, when every query answered, TypeError for a statistics
    view without a row or OverflowError for a quotient beyond the
    floats. *)
Theorem metrics_failure_is_500 (env : Env) :
  (forall x, first_failure env = Some x ->
     get_metrics env =
       Fails {| status_code := 500;
                detail_prefix := "Failed to retrieve metrics: ";
                detail_cause := x |}) /\
  (forall e, get_metrics env = Fails e ->
     status_code e = 500 /\
     detail_prefix e = "Failed to retrieve metrics: " /\
     (first_failure env = Some (detail_cause e) \/
      (first_failure env = None /\
       ((txn_stats env = Return None /\ detail_cause e = TypeError) \/
        detail_cause e = OverflowError)))).
Proof.
  split.
  - intros x Hx. unfold get_metrics. now rewrite (first_failure_raises _ _ Hx).
  - intros e. unfold get_metrics.
    destruct (try_body env) as [r | x] eqn:E; [discriminate |].
    intros [= <-]. cbn. split; [reflexivity |]. split; [reflexivity |].
    exact (try_body_Raise _ _ E).
Qed.

Lemma metrics_failure_is_500_witness :
  get_metrics Samples.metrics_down =
    Fails {| status_code := 500;
             detail_prefix := "Failed to retrieve metrics: ";
             detail_cause := OtherError "ConnectionRefusedError" |} /\
  first_failure EdgeSamples.standby = None.
Proof.
  split; [| reflexivity].
  apply (proj1 (metrics_failure_is_500 Samples.metrics_down)). reflexivity.
Defined.

End MetricsEdgeProps.

(** ** The metrics: the ratios at their ends *)

Module MetricsExactProps.
Import Py Metrics MetricsSpec PyProps FloatProps MetricsProps.

(** A positive int divided by itself is the float 1.0. *)
Lemma truediv_self n :
  0 < n -> truediv n n = Return (S754_finite false 4503599627370496 (-52)).
Proof.
  intros Hn. unfold truediv.
  destruct (Z.eqb_spec n 0) as [| _]; [lia |].
  destruct (Z.ltb_spec n 0) as [| _]; [lia |].
  destruct n as [| p | p]; try lia.
  change (Z.to_pos (Z.abs (Z.pos p))) with p.
  unfold SFdiv, SFdiv_core_binary.
  replace (Zdigits2 (Z.pos p) + 0 - (Zdigits2 (Z.pos p) + 0)) with 0 by lia.
  change (Z.min (fexp prec emax 0) (0 - 0)) with (-53).
  change (0 - 0 - -53) with 53.
  cbv zeta iota.
  assert (Hdiv : Z.div_eucl (Z.shiftl (Z.pos p) 53) (Z.pos p) = (2 ^ 53, 0)).
  { pose proof (Z_div_mod (Z.shiftl (Z.pos p) 53) (Z.pos p) ltac:(lia)) as Hdm.
    destruct (Z.div_eucl (Z.shiftl (Z.pos p) 53) (Z.pos p)) as [q r].
    destruct Hdm as [Hq Hr]. rewrite Z.shiftl_mul_pow2 in Hq by lia.
    assert (q = 2 ^ 53) by nia. assert (r = 0) by nia. congruence. }
  change (IntDef.Z.div_eucl (IntDef.Z.shiftl (Z.pos p) 53) (Z.pos p))
    with (Z.div_eucl (Z.shiftl (Z.pos p) 53) (Z.pos p)).
  rewrite Hdiv.
  assert (Hloc : new_location (Z.pos p) 0 = loc_Exact).
  { unfold new_location, new_location_even, new_location_odd.
    now destruct (IntDef.Z.even (Z.pos p)). }
  rewrite Hloc. reflexivity.
Qed.

(** The ratios at their ends are exact.  When every block came from the
    cache (hits, no reads) the report's hit ratio is the float 100.0, and
    when none did (reads, no hits) it is 0.0; when every allowed
    connection is active the usage is the float 100.0. *)
Theorem ratios_at_their_ends
    (env : Env) (ci : conn_info_row) (ts : txn_stats_row) (n : Z) :
  answers env ci ts ->
  0 < n ->
  exists r,
    get_metrics env = Responds r /\
    (blks_hit ts = Some n -> blks_read ts = Some 0 \/ blks_read ts = None ->
     cache_hit_ratio r = Samples.float_100) /\
    (blks_hit ts = Some 0 \/ blks_hit ts = None -> blks_read ts = Some n ->
     cache_hit_ratio r = Samples.float_0) /\
    (row_active_connections ci = Some n -> row_max_connections ci = Some n ->
     connection_usage_percent r = Samples.float_100).
Proof.
  intros Hans Hn. destruct (get_metrics_responds _ _ _ Hans) as [r Hr].
  exists r. split; [exact Hr |].
  destruct Hans as (_ & Hci & Hts & _). apply metrics_responds in Hr.
  apply try_body_inv in Hr
    as (ci' & ts' & usage & ratio & Hci' & Hts' & Hratio & Husage & Hcr & Hcu & _).
  rewrite Hci in Hci'. injection Hci' as <-.
  rewrite Hts in Hts'. injection Hts' as <-.
  assert (Hnz : int_or (Some n) 0 = n) by apply int_or_zero_Some.
  assert (Hn100 : int_or (Some n) 100 = n).
  { cbn. destruct (Z.eqb_spec n 0); [lia | reflexivity]. }
  assert (Hlt : (0 <? n) = true) by (apply Z.ltb_lt; lia).
  repeat apply conj.
  - intros Hh Hrd. rewrite Hh, Hnz in Hratio.
    assert (Hr0 : int_or (blks_read ts) 0 = 0) by (destruct Hrd as [-> | ->]; reflexivity).
    rewrite Hr0 in Hratio. unfold cache_hit_ratio_of in Hratio.
    rewrite Z.add_0_l, Hlt, (truediv_self n Hn) in Hratio. injection Hratio as <-.
    rewrite Hcr. reflexivity.
  - intros Hh Hrd. rewrite Hrd, Hnz in Hratio.
    assert (Hh0 : int_or (blks_hit ts) 0 = 0) by (destruct Hh as [-> | ->]; reflexivity).
    rewrite Hh0 in Hratio. unfold cache_hit_ratio_of in Hratio.
    rewrite Z.add_0_r, Hlt, truediv_zero in Hratio by lia. cbn [bind] in Hratio.
    injection Hratio as <-. rewrite Hcr.
    destruct (Z.ltb_spec n 0); [lia | reflexivity].
  - intros Ha Hm. rewrite Ha, Hm, Hnz, Hn100 in Husage.
    unfold conn_usage_of in Husage.
    rewrite Hlt, (truediv_self n Hn) in Husage. injection Husage as <-.
    rewrite Hcu. reflexivity.
Qed.

Lemma ratios_at_their_ends_witness :
  exists r,
    get_metrics (Samples.metrics_env (Some 20) (Some 20) (Some 0) (Some 20)) = Responds r /\
    cache_hit_ratio r = Samples.float_100 /\
    connection_usage_percent r = Samples.float_100.
Proof.
  destruct (ratios_at_their_ends
              (Samples.metrics_env (Some 20) (Some 20) (Some 0) (Some 20))
              {| row_active_connections := Some 20; row_max_connections := Some 20 |}
              {| committed := Some 10; rolled_back := Some 1;
                 blks_read := Some 0; blks_hit := Some 20 |}
              20)
    as (r & Hr & Hfull & _ & Hused).
  - apply sample_answers; cbn; lia.
  - lia.
  - exists r. split; [exact Hr |]. split.
    + apply Hfull; [reflexivity | left; reflexivity].
    + apply Hused; reflexivity.
Defined.

End MetricsExactProps.

(** ** Floats: rounding stays below a bound that is a float *)

Module FloatRangeProps.
Import Py FloatSpec FloatProps.

(** One shift of an even mantissa with nothing behind it leaves nothing
    behind it. *)
Lemma shr_1_even k :
  0 <= k ->
  shr_1 {| shr_m := 2 * k; shr_r := false; shr_s := false |}
  = {| shr_m := k; shr_r := false; shr_s := false |}.
Proof. destruct k as [| p | p]; [reflexivity | reflexivity | lia]. Qed.

Lemma pow2_xO p : 2 ^ Z.pos p~0 = 2 ^ Z.pos p * 2 ^ Z.pos p.
Proof.
  replace (Z.pos p~0) with (Z.pos p + Z.pos p) by lia.
  now rewrite Z.pow_add_r by lia.
Qed.

Lemma pow2_xI p : 2 ^ Z.pos p~1 = 2 * (2 ^ Z.pos p * 2 ^ Z.pos p).
Proof.
  replace (Z.pos p~1) with (1 + (Z.pos p + Z.pos p)) by lia.
  now rewrite !Z.pow_add_r by lia.
Qed.

Lemma pow2_pos n : 0 < 2 ^ n \/ 2 ^ n = 0.
Proof.
  destruct (Z.le_gt_cases 0 n); [left; now apply Z.pow_pos_nonneg |].
  right. now apply Z.pow_neg_r.
Qed.

Lemma iter_shr_1_exact p : forall k,
  0 <= k ->
  SpecFloat.iter_pos shr_1 p
    {| shr_m := k * 2 ^ Z.pos p; shr_r := false; shr_s := false |}
  = {| shr_m := k; shr_r := false; shr_s := false |}.
Proof.
  induction p as [p IH | p IH |]; intros k Hk; cbn [SpecFloat.iter_pos].
  - assert (Hp : 0 < 2 ^ Z.pos p) by (apply Z.pow_pos_nonneg; lia).
    rewrite pow2_xI.
    replace (k * (2 * (2 ^ Z.pos p * 2 ^ Z.pos p)))
      with (2 * ((k * 2 ^ Z.pos p) * 2 ^ Z.pos p)) by ring.
    rewrite shr_1_even by nia. rewrite IH by nia. now apply IH.
  - assert (Hp : 0 < 2 ^ Z.pos p) by (apply Z.pow_pos_nonneg; lia).
    rewrite pow2_xO, Z.mul_assoc. rewrite IH by nia. now apply IH.
  - change (2 ^ 1) with 2. rewrite (Z.mul_comm k 2). now apply shr_1_even.
Qed.

(** A mantissa that ends in the bits to be shifted out, all zero, is
    shifted exactly. *)
Lemma shr_fexp_exact m e k :
  0 <= k ->
  m = k * 2 ^ (Z.max e (fexp prec emax (Zdigits2 m + e)) - e) ->
  shr_fexp prec emax m e loc_Exact
  = ({| shr_m := k; shr_r := false; shr_s := false |},
     Z.max e (fexp prec emax (Zdigits2 m + e))).
Proof.
  intros Hk Hm. unfold shr_fexp, shr. cbn [shr_record_of_loc].
  set (f := fexp prec emax (Zdigits2 m + e)) in *.
  destruct (f - e) as [| p | p] eqn:E.
  - replace (Z.max e f) with e in * by lia.
    rewrite Z.sub_diag, Z.mul_1_r in Hm. now rewrite Hm.
  - replace (Z.max e f) with (e + Z.pos p) in * by lia.
    replace (e + Z.pos p - e) with (Z.pos p) in Hm by lia.
    rewrite Hm at 1. now rewrite iter_shr_1_exact.
  - replace (Z.max e f) with e in * by lia.
    rewrite Z.sub_diag, Z.mul_1_r in Hm. now rewrite Hm.
Qed.

Lemma Zdigits2_mul_pow2 c n : 0 < c -> 0 <= n -> Zdigits2 (c * 2 ^ n) = Zdigits2 c + n.
Proof.
  intros Hc Hn. rewrite <- Z.shiftl_mul_pow2 by lia. now apply Zdigits2_shiftl.
Qed.

(** The format's exponent for a number of at most [c * 2^E], a float. *)
Lemma fexp_below c E m e :
  0 < c -> Zdigits2 c <= 53 -> -1074 <= E -> e <= E ->
  0 <= m <= c * 2 ^ (E - e) ->
  Z.max e (fexp prec emax (Zdigits2 m + e)) <= E.
Proof.
  intros Hc Hd HE He Hm. rewrite fexp_eq.
  assert (Zdigits2 m <= Zdigits2 c + (E - e)).
  { rewrite <- Zdigits2_mul_pow2 by lia. now apply Zdigits2_le. }
  lia.
Qed.

(** Rounding does not pass a bound that is itself a float: a number that
    is at most [c * 2^E], with [c] of at most 53 bits, is rounded to a
    float that is at most [c * 2^E]. *)
Lemma round_below c E m e l :
  0 < c -> Zdigits2 c <= 53 -> -1074 <= E <= 971 -> e <= E -> 0 <= m ->
  m + 1 <= c * 2 ^ (E - e) \/ (m = c * 2 ^ (E - e) /\ l = loc_Exact) ->
  match binary_round_aux prec emax false m e l with
  | S754_zero false => True
  | S754_finite false m2 e2 => e2 <= E /\ Z.pos m2 <= c * 2 ^ (E - e2)
  | _ => False
  end.
Proof.
  intros Hc Hd HE He Hm Hbound.
  assert (Hle : m <= c * 2 ^ (E - e)) by lia.
  pose proof (fexp_below c E m e Hc Hd (proj1 HE) He (conj Hm Hle)) as He1.
  set (e1 := Z.max e (fexp prec emax (Zdigits2 m + e))) in *.
  assert (Hsplit : c * 2 ^ (E - e) = (c * 2 ^ (E - e1)) * 2 ^ (e1 - e)).
  { rewrite <- Z.mul_assoc, <- Z.pow_add_r by lia. do 2 f_equal. lia. }
  assert (Hpd : 0 < 2 ^ (e1 - e)) by (apply Z.pow_pos_nonneg; lia).
  assert (Hpk : 0 < c * 2 ^ (E - e1))
    by (apply Z.mul_pos_pos; [lia | apply Z.pow_pos_nonneg; lia]).
  (* the mantissa after the first shift and the rounding *)
  assert (Hfirst : exists mrs1,
            shr_fexp prec emax m e l = (mrs1, e1) /\
            0 <= round_nearest_even (shr_m mrs1) (loc_of_shr_record mrs1)
              <= c * 2 ^ (E - e1)).
  { destruct Hbound as [Hlt | [Heq ->]].
    - destruct (shr_fexp_spec m e l Hm) as (mrs1 & e1' & Hshr & -> & Hm1).
      exists mrs1. split; [exact Hshr |]. fold e1 in Hm1.
      pose proof (round_nearest_even_bounds (shr_m mrs1) (loc_of_shr_record mrs1)).
      rewrite Z.shiftr_div_pow2 in Hm1 by lia.
      assert (0 <= shr_m mrs1) by (rewrite Hm1; apply Z.div_pos; lia).
      assert (shr_m mrs1 < c * 2 ^ (E - e1)).
      { rewrite Hm1. apply Z.div_lt_upper_bound; [lia |]. rewrite Z.mul_comm. lia. }
      lia.
    - exists {| shr_m := c * 2 ^ (E - e1); shr_r := false; shr_s := false |}.
      split; [apply shr_fexp_exact; [lia | fold e1; lia] |].
      cbn. lia. }
  destruct Hfirst as (mrs1 & Hshr & Hm1).
  unfold binary_round_aux. rewrite Hshr.
  set (m1 := round_nearest_even (shr_m mrs1) (loc_of_shr_record mrs1)) in *.
  destruct (shr_fexp_spec m1 e1 loc_Exact (proj1 Hm1)) as (mrs2 & e2 & -> & He2 & Hm2).
  assert (He2' : e2 <= E).
  { rewrite He2. apply (fexp_below c E m1 e1); lia. }
  assert (He12 : e1 <= e2) by lia.
  assert (Hpd2 : 0 < 2 ^ (e2 - e1)) by (apply Z.pow_pos_nonneg; lia).
  assert (Hsplit2 : c * 2 ^ (E - e1) = (c * 2 ^ (E - e2)) * 2 ^ (e2 - e1)).
  { rewrite <- Z.mul_assoc, <- Z.pow_add_r by lia. do 2 f_equal. lia. }
  rewrite Z.shiftr_div_pow2 in Hm2 by lia.
  assert (Hm2' : 0 <= shr_m mrs2 <= c * 2 ^ (E - e2)).
  { rewrite Hm2. split; [apply Z.div_pos; lia |].
    apply Z.div_le_upper_bound; [lia |]. rewrite Z.mul_comm. lia. }
  destruct (shr_m mrs2) as [| p | p]; [exact I | | lia].
  destruct (Z.leb_spec e2 (emax - prec)) as [_ | Hbig];
    [now split | unfold emax, prec in Hbig; lia].
Qed.

Lemma below_between c E f :
  0 <= E ->
  match f with
  | S754_zero false => True
  | S754_finite false m2 e2 => e2 <= E /\ Z.pos m2 <= c * 2 ^ (E - e2)
  | _ => False
  end ->
  between_0_and (c * 2 ^ E) f = true.
Proof.
  intros HE. destruct f as [[|] | | | [|] m e]; try contradiction; [reflexivity |].
  intros [He Hm]. unfold between_0_and.
  destruct (Z.leb_spec 0 e).
  - apply Z.leb_le.
    replace (c * 2 ^ E) with ((c * 2 ^ (E - e)) * 2 ^ e).
    + apply Z.mul_le_mono_nonneg_r; [apply Z.pow_nonneg; lia | exact Hm].
    + rewrite <- Z.mul_assoc, <- Z.pow_add_r by lia. do 2 f_equal. lia.
  - apply Z.leb_le.
    replace (c * 2 ^ E * 2 ^ (- e)) with (c * 2 ^ (E - e)); [exact Hm |].
    rewrite <- Z.mul_assoc, <- Z.pow_add_r by lia. do 2 f_equal.
Qed.

(** A quotient of positive ints [a / b] with [a <= b * K], where [K] is a
    float, is a float of at most [K]. *)
Lemma div_below (a b : positive) c E :
  0 < c -> Zdigits2 c <= 53 -> 0 <= E <= 971 ->
  Z.pos a <= Z.pos b * (c * 2 ^ E) ->
  between_0_and (c * 2 ^ E)
    (SFdiv prec emax (S754_finite false a 0) (S754_finite false b 0)) = true.
Proof.
  intros Hc Hd HE Hab. apply below_between; [lia |].
  unfold SFdiv, SFdiv_core_binary.
  set (e' := Z.min (fexp prec emax (Zdigits2 (Z.pos a) + 0 - (Zdigits2 (Z.pos b) + 0)))
                   (0 - 0)).
  set (m' := match 0 - 0 - e' with
             | 0 => Z.pos a
             | Z.pos _ => Z.shiftl (Z.pos a) (0 - 0 - e')
             | Z.neg _ => 0
             end).
  assert (He' : e' <= 0) by (unfold e'; lia).
  assert (Hm' : m' = Z.pos a * 2 ^ (- e')).
  { unfold m'. replace (0 - 0 - e') with (- e') by lia.
    destruct (- e') as [| p | p] eqn:E'; try lia.
    now rewrite Z.shiftl_mul_pow2 by lia. }
  pose proof (Z_div_mod m' (Z.pos b) ltac:(lia)) as Hdm.
  change (IntDef.Z.div_eucl m' (Z.pos b)) with (Z.div_eucl m' (Z.pos b)).
  destruct (Z.div_eucl m' (Z.pos b)) as [q r]. destruct Hdm as [Hq Hr].
  assert (Hp : 0 < 2 ^ (- e')) by (apply Z.pow_pos_nonneg; lia).
  assert (Hkk : c * 2 ^ (E - e') = (c * 2 ^ E) * 2 ^ (- e')).
  { rewrite <- Z.mul_assoc, <- Z.pow_add_r by lia. do 2 f_equal. }
  assert (HpE : 0 < c * 2 ^ E)
    by (apply Z.mul_pos_pos; [lia | apply Z.pow_pos_nonneg; lia]).
  assert (Hq0 : 0 <= q) by nia.
  assert (Hmb : m' <= Z.pos b * (c * 2 ^ (E - e'))).
  { rewrite Hm', Hkk, Z.mul_assoc. apply Z.mul_le_mono_nonneg_r; lia. }
  cbn [xorb].
  apply round_below; try lia.
  destruct (Z.eq_dec m' (Z.pos b * (c * 2 ^ (E - e')))) as [Heq | Hne].
  - right. assert (q = c * 2 ^ (E - e')) by nia. assert (r = 0) by nia.
    subst r. split; [assumption |].
    unfold new_location, new_location_even, new_location_odd.
    now destruct (IntDef.Z.even (Z.pos b)).
  - left. nia.
Qed.

Lemma float_of_int_100 : float_of_int 100 = S754_finite false 7036874417766400 (-46).
Proof. reflexivity. Qed.

(** A float of at most 1, times 100, is a float of at most 100. *)
Lemma mul_100_below f :
  between_0_and 1 f = true -> between_0_and 100 (mul_int f 100) = true.
Proof.
  intros Hf. unfold mul_int. rewrite float_of_int_100.
  destruct f as [s | | | [|] m e]; try discriminate; [reflexivity |].
  assert (Hme : e <= 0 /\ Z.pos m <= 2 ^ (- e)).
  { unfold between_0_and in Hf. destruct (Z.leb_spec 0 e) as [He | He].
    - apply Z.leb_le in Hf.
      assert (0 < 2 ^ e) by (apply Z.pow_pos_nonneg; lia).
      assert (e = 0).
      { destruct (Z.eq_dec e 0); [assumption |].
        assert (2 ^ 1 <= 2 ^ e) by (apply Z.pow_le_mono_r; lia).
        change (2 ^ 1) with 2 in *. nia. }
      subst e. cbn in *. lia.
    - apply Z.leb_le in Hf. lia. }
  destruct Hme as [He Hm].
  cbn [SFmul xorb]. change (between_0_and 100) with (between_0_and (25 * 2 ^ 2)).
  apply below_between; [lia |].
  assert (Hp : 0 < 2 ^ (- e)) by (apply Z.pow_pos_nonneg; lia).
  assert (Hkk : 25 * 2 ^ (2 - (e + -46)) = 7036874417766400 * 2 ^ (- e)).
  { replace (2 - (e + -46)) with (48 + - e) by lia.
    rewrite Z.pow_add_r by lia. change (2 ^ 48) with 281474976710656. lia. }
  assert (Hd25 : Zdigits2 25 <= 53) by (cbn; lia).
  apply round_below; try lia; try exact Hd25.
  rewrite Hkk, Pos2Z.inj_mul.
  destruct (Z.eq_dec (Z.pos m) (2 ^ (- e))) as [Heq | Hne].
  - right. split; [now rewrite Heq, Z.mul_comm | reflexivity].
  - left. nia.
Qed.

(** The nearest int to a quotient of at most [k] is at most [k]. *)
Lemma div_half_even_below n d k :
  0 <= n -> 0 < d -> n <= k * d -> 0 <= div_half_even n d <= k.
Proof.
  intros Hn Hd Hk. unfold div_half_even.
  pose proof (Z.div_mod n d ltac:(lia)) as Hdm.
  pose proof (Z.mod_pos_bound n d Hd) as Hr.
  assert (Hq0 : 0 <= n / d) by (apply Z.div_pos; lia).
  assert (Hq : n / d <= k) by (apply Z.div_le_upper_bound; [lia | nia]).
  destruct (Z.compare_spec (2 * (n mod d)) d) as [Heq | Hlt | Hgt].
  - destruct (Z.even (n / d)); [lia |]. nia.
  - lia.
  - nia.
Qed.

(** [round(x, 2)] of a float of at most 100 is a float of at most 100. *)
Lemma round2_below f :
  between_0_and 100 f = true -> between_0_and 100 (round2 f) = true.
Proof.
  intros Hf. destruct f as [s | | | [|] m e]; try discriminate; [reflexivity |].
  unfold round2.
  assert (Hs : 0 <= scaled_half_even (m * 100) e <= 10000).
  { unfold scaled_half_even, between_0_and in *.
    destruct (Z.leb_spec 0 e) as [He | He]; apply Z.leb_le in Hf.
    - rewrite Pos2Z.inj_mul.
      assert (0 < 2 ^ e) by (apply Z.pow_pos_nonneg; lia). nia.
    - assert (0 < 2 ^ (- e)) by (apply Z.pow_pos_nonneg; lia).
      apply div_half_even_below; [lia | lia |]. rewrite Pos2Z.inj_mul. nia. }
  destruct (scaled_half_even (m * 100) e) as [| d | d]; [reflexivity | | lia].
  change (between_0_and 100) with (between_0_and (25 * 2 ^ 2)).
  assert (Hd25 : Zdigits2 25 <= 53) by (cbn; lia).
  apply div_below; try lia; exact Hd25.
Qed.

End FloatRangeProps.

(** ** The metrics: the ratios are percentages *)

Module MetricsRangeProps.
Import Py Metrics MetricsSpec FloatSpec PyProps FloatProps FloatRangeProps MetricsProps.

(** A part of a whole, as a float: at most 1. *)
Lemma truediv_below a b :
  0 <= a <= b -> 0 < b ->
  exists q, truediv a b = Return q /\ between_0_and 1 q = true.
Proof.
  intros Ha Hb. unfold truediv.
  destruct (Z.eqb_spec b 0) as [| _]; [lia |].
  destruct (Z.eqb_spec a 0) as [| Ha0]; [eauto |].
  destruct (Z.ltb_spec a 0) as [| _]; [lia |].
  destruct (Z.ltb_spec b 0) as [| _]; [lia |].
  destruct a as [| pa | pa]; try lia. destruct b as [| pb | pb]; try lia.
  change (Z.to_pos (Z.abs (Z.pos pa))) with pa.
  change (Z.to_pos (Z.abs (Z.pos pb))) with pb.
  assert (Hd1 : Zdigits2 1 <= 53) by (cbn; lia).
  pose proof (div_below pa pb 1 0 ltac:(lia) Hd1 ltac:(lia) ltac:(cbn; lia)) as Hq.
  change (1 * 2 ^ 0) with 1 in Hq.
  destruct (SFdiv prec emax _ _) as [s | s | | s m e]; try discriminate Hq; eauto.
Qed.

Lemma percentage_below a b :
  0 <= a <= b -> 0 < b ->
  exists q, truediv a b = Return q /\
            between_0_and 100 (round2 (mul_int q 100)) = true.
Proof.
  intros Ha Hb. destruct (truediv_below a b Ha Hb) as (q & Hq & Hle).
  exists q. split; [exact Hq |]. now apply round2_below, mul_100_below.
Qed.

(** Both ratios of a report are percentages.  With block counters that
    are not negative, the reported cache hit ratio is a float from 0 to
    100, after every rounding the computation makes; and when the active
    connections are not more than the maximum, so is the reported
    connection usage. *)
Theorem ratios_are_percentages (env : Env) (r : MetricsResponse) :
  get_metrics env = Responds r ->
  (0 <= blocks_read r -> 0 <= blocks_hit r ->
   between_0_and 100 (cache_hit_ratio r) = true) /\
  (0 <= active_connections r <= max_connections r ->
   between_0_and 100 (connection_usage_percent r) = true).
Proof.
  intros H. apply metrics_responds in H. unfold try_body in H.
  apply bind_Return in H as (size & _ & H).
  apply bind_Return in H as (ci & _ & H).
  apply bind_Return in H as (ts & _ & H).
  apply bind_Return in H as (b & _ & H).
  apply bind_Return in H as (lag & _ & H).
  destruct ts as [ts |]; cbn [subscript bind] in H; [| discriminate].
  apply bind_Return in H as (ratio & Hratio & H).
  apply bind_Return in H as (usage & Husage & H).
  injection H as <-.
  cbn [blocks_read blocks_hit cache_hit_ratio active_connections
       max_connections connection_usage_percent].
  set (reads := int_or (blks_read ts) 0) in *.
  set (hits := int_or (blks_hit ts) 0) in *.
  set (active := int_or (row_active_connections ci) 0) in *.
  set (max_conn := int_or (row_max_connections ci) 100) in *.
  split.
  - intros Hreads Hhits. unfold cache_hit_ratio_of in Hratio.
    destruct (Z.ltb_spec 0 (reads + hits)) as [Hpos | _].
    + destruct (percentage_below hits (reads + hits)) as (q & Hq & Hle); [lia | lia |].
      rewrite Hq in Hratio. injection Hratio as <-. exact Hle.
    + injection Hratio as <-. reflexivity.
  - intros Hactive. unfold conn_usage_of in Husage.
    destruct (Z.ltb_spec 0 max_conn) as [Hpos | _].
    + destruct (percentage_below active max_conn) as (q & Hq & Hle); [lia | lia |].
      rewrite Hq in Husage. injection Husage as <-. exact Hle.
    + injection Husage as <-. reflexivity.
Qed.

Lemma ratios_are_percentages_witness :
  exists r,
    get_metrics (Samples.metrics_env (Some 5) (Some 20) (Some 1) (Some 9)) = Responds r /\
    between_0_and 100 (cache_hit_ratio r) = true /\
    between_0_and 100 (connection_usage_percent r) = true.
Proof.
  eexists. split; [reflexivity |].
  destruct (ratios_are_percentages
              (Samples.metrics_env (Some 5) (Some 20) (Some 1) (Some 9)) _ eq_refl)
    as [Hratio Husage].
  split; [apply Hratio | apply Husage]; cbn; lia.
Defined.

End MetricsRangeProps.

(** ** Floats: how far rounding moves a number *)

Module FloatErrorProps.
Import Py FloatSpec FloatValueSpec FloatProps FloatRangeProps.

(** Rounding moves a number by less than two units of the last place of
    its bound: a number from [m * 2^e] that is at most [c * 2^E], with
    [c] of at most 53 bits, is rounded to a float [m2 * 2^e2] between
    [(m - 2 * 2^(E-e)) * 2^e] and [(m + 2^(E-e)) * 2^e]. *)
Lemma round_near c E m e l :
  0 < c -> Zdigits2 c <= 53 -> -1074 <= E <= 971 -> e <= E -> 0 <= m ->
  m + 1 <= c * 2 ^ (E - e) \/ (m = c * 2 ^ (E - e) /\ l = loc_Exact) ->
  exists m2 e2,
    binary_round_aux prec emax false m e l = float_of m2 e2 /\
    0 <= m2 /\ e <= e2 <= E /\
    m - 2 * 2 ^ (E - e) < m2 * 2 ^ (e2 - e) <= m + 2 ^ (E - e).
Proof.
  intros Hc Hd HE He Hm Hbound.
  assert (Hle : m <= c * 2 ^ (E - e)) by lia.
  pose proof (fexp_below c E m e Hc Hd (proj1 HE) He (conj Hm Hle)) as He1.
  set (e1 := Z.max e (fexp prec emax (Zdigits2 m + e))) in *.
  assert (Hee1 : e <= e1) by (unfold e1; lia).
  assert (Hsplit : c * 2 ^ (E - e) = (c * 2 ^ (E - e1)) * 2 ^ (e1 - e)).
  { rewrite <- Z.mul_assoc, <- Z.pow_add_r by lia. do 2 f_equal. lia. }
  assert (Hpd : 0 < 2 ^ (e1 - e)) by (apply Z.pow_pos_nonneg; lia).
  assert (Hpk : 0 < c * 2 ^ (E - e1))
    by (apply Z.mul_pos_pos; [lia | apply Z.pow_pos_nonneg; lia]).
  assert (HpE1 : 2 ^ (E - e) = 2 ^ (E - e1) * 2 ^ (e1 - e)).
  { rewrite <- Z.pow_add_r by lia. f_equal. lia. }
  assert (HpEe1 : 0 < 2 ^ (E - e1)) by (apply Z.pow_pos_nonneg; lia).
  (* the mantissa after the first shift and the rounding *)
  assert (Hfirst : exists mrs1 m1,
            shr_fexp prec emax m e l = (mrs1, e1) /\
            m1 * 2 ^ (e1 - e) <= m < (m1 + 1) * 2 ^ (e1 - e) /\
            0 <= m1 /\
            m1 <= round_nearest_even (shr_m mrs1) (loc_of_shr_record mrs1)
               <= m1 + 1 /\
            round_nearest_even (shr_m mrs1) (loc_of_shr_record mrs1)
              <= c * 2 ^ (E - e1)).
  { destruct (shr_fexp_spec m e l Hm) as (mrs1 & e1' & Hshr & -> & Hm1).
    fold e1 in Hm1, Hshr.
    rewrite Z.shiftr_div_pow2 in Hm1 by lia.
    pose proof (Z.div_mod m (2 ^ (e1 - e)) ltac:(lia)) as Hdm.
    pose proof (Z.mod_pos_bound m (2 ^ (e1 - e)) Hpd) as Hr.
    assert (H0 : 0 <= shr_m mrs1) by (rewrite Hm1; apply Z.div_pos; lia).
    exists mrs1, (shr_m mrs1). split; [exact Hshr |].
    split; [rewrite Hm1; nia |]. split; [exact H0 |].
    split; [apply round_nearest_even_bounds |].
    destruct Hbound as [Hlt | [Heq ->]].
    - pose proof (round_nearest_even_bounds (shr_m mrs1) (loc_of_shr_record mrs1)).
      assert (shr_m mrs1 < c * 2 ^ (E - e1)).
      { rewrite Hm1. apply Z.div_lt_upper_bound; [lia |]. rewrite Z.mul_comm. lia. }
      lia.
    - rewrite (shr_fexp_exact m e (c * 2 ^ (E - e1))) in Hshr;
        [| lia | fold e1; lia].
      injection Hshr as <-. cbn. lia. }
  destruct Hfirst as (mrs1 & m1 & Hshr & Hm1 & Hm10 & Hrne & Hrnec).
  unfold binary_round_aux. rewrite Hshr.
  set (m1' := round_nearest_even (shr_m mrs1) (loc_of_shr_record mrs1)) in *.
  destruct (shr_fexp_spec m1' e1 loc_Exact ltac:(lia)) as (mrs2 & e2 & -> & He2 & Hm2).
  assert (He2' : e2 <= E).
  { rewrite He2. apply (fexp_below c E m1' e1); lia. }
  assert (He12 : e1 <= e2) by lia.
  assert (Hpd2 : 0 < 2 ^ (e2 - e1)) by (apply Z.pow_pos_nonneg; lia).
  rewrite Z.shiftr_div_pow2 in Hm2 by lia.
  pose proof (Z.div_mod m1' (2 ^ (e2 - e1)) ltac:(lia)) as Hdm2.
  pose proof (Z.mod_pos_bound m1' (2 ^ (e2 - e1)) Hpd2) as Hr2.
  rewrite <- Hm2 in Hdm2.
  assert (Hm20 : 0 <= shr_m mrs2) by (rewrite Hm2; apply Z.div_pos; lia).
  assert (Hp2e : 2 ^ (e2 - e) = 2 ^ (e2 - e1) * 2 ^ (e1 - e)).
  { rewrite <- Z.pow_add_r by lia. f_equal. lia. }
  assert (HpE2 : 2 ^ (E - e1) = 2 ^ (E - e2) * 2 ^ (e2 - e1)).
  { rewrite <- Z.pow_add_r by lia. f_equal. lia. }
  assert (HpEe2 : 0 < 2 ^ (E - e2)) by (apply Z.pow_pos_nonneg; lia).
  exists (shr_m mrs2), e2.
  split.
  { destruct (shr_m mrs2) as [| p | p]; [reflexivity | | lia].
    destruct (Z.leb_spec e2 (emax - prec)) as [_ | Hbig];
      [reflexivity | unfold emax, prec in Hbig; lia]. }
  split; [exact Hm20 |]. split; [lia |].
  rewrite Hp2e, HpE1, Z.mul_assoc.
  set (P := 2 ^ (e1 - e)) in *. set (P2 := 2 ^ (e2 - e1)) in *.
  set (K1 := 2 ^ (E - e1)) in *. set (K2 := 2 ^ (E - e2)) in *.
  set (x2 := shr_m mrs2) in *. set (r2 := m1' mod P2) in *.
  assert (HP2K : P2 <= K1) by nia.
  assert (1 <= K1) by lia.
  split; nia.
Qed.

End FloatErrorProps.

(** ** Floats as numbers: the error of a percentage *)

Module FloatValueProps.
Import Py FloatSpec FloatValueSpec FloatProps FloatRangeProps FloatErrorProps.
Import MetricsRangeProps.
Import QArith Qabs Qpower Lqa.
Local Open Scope Q_scope.

Lemma pow2Q_pos e : 0 < 2 ^ e.
Proof. apply Qpower_0_lt. reflexivity. Qed.

Lemma pow2Q_add a b : 2 ^ (a + b) == 2 ^ a * 2 ^ b.
Proof. apply Qpower_plus. discriminate. Qed.

Lemma pow2Q_inject n : (0 <= n)%Z -> inject_Z (2 ^ n) == 2 ^ n.
Proof. intros H. now rewrite Zpower_Qpower. Qed.

Lemma value_float_of m e : (0 <= m)%Z -> float_value (float_of m e) == inject_Z m * 2 ^ e.
Proof.
  intros Hm. destruct m as [| p | p]; [| | lia]; cbn [float_of float_value].
  - ring.
  - ring.
Qed.

(** [m * 2^(e2 - e)] units of [2^e] are [m * 2^e2]. *)
Lemma value_scaled m e2 e :
  (e <= e2)%Z -> inject_Z (m * 2 ^ (e2 - e)) * 2 ^ e == inject_Z m * 2 ^ e2.
Proof.
  intros H. rewrite inject_Z_mult, pow2Q_inject by lia.
  replace e2 with ((e2 - e) + e)%Z at 2 by lia. rewrite pow2Q_add. ring.
Qed.

(** Rounding, as numbers: what is rounded is within three units of the
    last place of its bound of the number it stood for. *)
Lemma round_near_value c E m e l (v : Q) :
  (0 < c)%Z -> (Zdigits2 c <= 53)%Z -> (-1074 <= E <= 971)%Z -> (e <= E)%Z ->
  (0 <= m)%Z ->
  (m + 1 <= c * 2 ^ (E - e))%Z \/ (m = (c * 2 ^ (E - e))%Z /\ l = loc_Exact) ->
  inject_Z m * 2 ^ e <= v <= inject_Z (m + 1) * 2 ^ e ->
  Qabs (float_value (binary_round_aux prec emax false m e l) - v) <= 3 * 2 ^ E.
Proof.
  intros Hc Hd HE He Hm Hbound Hv.
  destruct (round_near c E m e l Hc Hd HE He Hm Hbound)
    as (m2 & e2 & -> & Hm2 & He2 & Hlo & Hhi).
  rewrite value_float_of by exact Hm2.
  rewrite <- (value_scaled m2 e2 e) by lia.
  pose proof (pow2Q_pos e) as Hu.
  assert (HK : inject_Z (2 ^ (E - e)) * 2 ^ e == 2 ^ E).
  { rewrite pow2Q_inject by lia. rewrite <- pow2Q_add. now replace (E - e + e)%Z with E by lia. }
  assert (HK1 : 2 ^ e <= 2 ^ E) by (apply Qpower_le_compat_l; [lia | discriminate]).
  assert (Hlo2 : (m < m2 * 2 ^ (e2 - e) + (2 ^ (E - e) + 2 ^ (E - e)))%Z) by lia.
  rewrite Zlt_Qlt in Hlo2. rewrite Zle_Qle in Hhi.
  rewrite !inject_Z_plus in Hlo2. rewrite inject_Z_plus in Hhi.
  apply (Qmult_lt_compat_r _ _ (2 ^ e) Hu) in Hlo2.
  apply (fun H => Qmult_le_compat_r _ _ (2 ^ e) H (Qlt_le_weak _ _ Hu)) in Hhi.
  rewrite inject_Z_plus in Hv.
  change (inject_Z 1) with 1 in Hv.
  assert (Hlo' : inject_Z m * 2 ^ e
                 < inject_Z (m2 * 2 ^ (e2 - e)) * 2 ^ e + 2 * 2 ^ E).
  { rewrite <- HK. eapply Qlt_le_trans; [exact Hlo2 |]. apply Qle_lteq. right. ring. }
  assert (Hhi' : inject_Z (m2 * 2 ^ (e2 - e)) * 2 ^ e <= inject_Z m * 2 ^ e + 2 ^ E).
  { rewrite <- HK. eapply Qle_trans; [exact Hhi |]. apply Qle_lteq. right. ring. }
  assert (Hv' : v <= inject_Z m * 2 ^ e + 2 ^ e).
  { eapply Qle_trans; [exact (proj2 Hv) |]. apply Qle_lteq. right. ring. }
  destruct Hv as [Hv1 _].
  set (R := inject_Z (m2 * 2 ^ (e2 - e)) * 2 ^ e) in *.
  set (Mu := inject_Z m * 2 ^ e) in *.
  set (u := 2 ^ e) in *. set (U := 2 ^ E) in *.
  apply Qabs_Qle_condition. split; lra.
Qed.

Lemma inject_pos (n : Z) : (0 < n)%Z -> 0 < inject_Z n.
Proof. intros H. now rewrite Zlt_Qlt in H. Qed.

(** [2^e] for [e <= 0] is one over the int [2^(-e)]. *)
Lemma pow2Q_inv e : (e <= 0)%Z -> 2 ^ e == / inject_Z (2 ^ (- e)).
Proof.
  intros H. rewrite pow2Q_inject by lia.
  replace e with (- - e)%Z at 1 by lia. apply Qpower_opp.
Qed.

(** The quotient of two ints lies between two neighbours among the
    multiples of [2^e]. *)
Lemma div_between (a b q r e : Z) :
  (e <= 0)%Z -> (0 < b)%Z -> (a * 2 ^ (- e) = b * q + r)%Z -> (0 <= r < b)%Z ->
  inject_Z q * 2 ^ e <= inject_Z a / inject_Z b <= inject_Z (q + 1) * 2 ^ e.
Proof.
  intros He Hb Hdiv Hr.
  assert (HP : (0 < 2 ^ (- e))%Z) by (apply Z.pow_pos_nonneg; lia).
  pose proof (inject_pos _ HP) as HPq. pose proof (inject_pos _ Hb) as Hbq.
  rewrite pow2Q_inv by exact He.
  set (P := (2 ^ (- e))%Z) in *.
  split.
  - apply Qle_shift_div_l; [exact Hbq |].
    setoid_replace (inject_Z q * / inject_Z P * inject_Z b)
      with ((inject_Z q * inject_Z b) / inject_Z P) using relation Qeq by (field; lra).
    apply Qle_shift_div_r; [exact HPq |].
    rewrite <- !inject_Z_mult, <- Zle_Qle. nia.
  - apply Qle_shift_div_r; [exact Hbq |].
    setoid_replace (inject_Z (q + 1) * / inject_Z P * inject_Z b)
      with ((inject_Z (q + 1) * inject_Z b) / inject_Z P) using relation Qeq by (field; lra).
    apply Qle_shift_div_l; [exact HPq |].
    rewrite <- !inject_Z_mult, <- Zle_Qle. nia.
Qed.

Lemma Zdigits2_mul a b :
  (0 < a)%Z -> (0 < b)%Z -> (Zdigits2 (a * b) <= Zdigits2 a + Zdigits2 b)%Z.
Proof.
  intros Ha Hb. rewrite !Zdigits2_log2 by nia.
  pose proof (Z.log2_mul_above a b ltac:(lia) ltac:(lia)). lia.
Qed.

(** A quotient of positive ints [a / b] of at most [c * 2^E], as a
    float, is within three units [2^E] of the quotient. *)
Lemma div_near_value (a b : positive) c E :
  (0 < c)%Z -> (Zdigits2 c <= 53)%Z -> (-1074 <= E <= 0)%Z ->
  (Z.pos a * 2 ^ (- E) <= Z.pos b * c)%Z ->
  Qabs (float_value (SFdiv prec emax (S754_finite false a 0) (S754_finite false b 0))
        - inject_Z (Z.pos a) / inject_Z (Z.pos b)) <= 3 * 2 ^ E.
Proof.
  intros Hc Hd HE Hab.
  unfold SFdiv, SFdiv_core_binary.
  set (e' := Z.min (fexp prec emax (Zdigits2 (Z.pos a) + 0 - (Zdigits2 (Z.pos b) + 0)))
                   (0 - 0)).
  set (m' := match (0 - 0 - e')%Z with
             | 0%Z => Z.pos a
             | Z.pos _ => Z.shiftl (Z.pos a) (0 - 0 - e')
             | Z.neg _ => 0%Z
             end).
  assert (He' : (e' <= 0)%Z) by (unfold e'; lia).
  assert (HeE : (e' <= E)%Z).
  { unfold e'. rewrite fexp_eq.
    assert (Zdigits2 (Z.pos a) - E <= Zdigits2 (Z.pos b) + Zdigits2 c)%Z; [| lia].
    replace (Zdigits2 (Z.pos a) - E)%Z with (Zdigits2 (Z.pos a) + - E)%Z by lia.
    rewrite <- (Zdigits2_mul_pow2 (Z.pos a) (- E)) by lia.
    etransitivity; [| apply Zdigits2_mul; lia].
    apply Zdigits2_le. split; [| exact Hab].
    apply Z.mul_nonneg_nonneg; [lia | apply Z.pow_nonneg; lia]. }
  assert (Hm' : m' = (Z.pos a * 2 ^ (- e'))%Z).
  { unfold m'. replace (0 - 0 - e')%Z with (- e')%Z by lia.
    destruct (- e')%Z as [| p | p] eqn:E'; try lia.
    now rewrite Z.shiftl_mul_pow2 by lia. }
  pose proof (Z_div_mod m' (Z.pos b) ltac:(lia)) as Hdm.
  change (IntDef.Z.div_eucl m' (Z.pos b)) with (Z.div_eucl m' (Z.pos b)).
  destruct (Z.div_eucl m' (Z.pos b)) as [q r]. destruct Hdm as [Hq Hr].
  assert (Hp : (0 < 2 ^ (- e'))%Z) by (apply Z.pow_pos_nonneg; lia).
  assert (HpE : (0 < 2 ^ (E - e'))%Z) by (apply Z.pow_pos_nonneg; lia).
  assert (HpmE : (0 < 2 ^ (- E))%Z) by (apply Z.pow_pos_nonneg; lia).
  assert (Hsplit : (2 ^ (- e') = 2 ^ (- E) * 2 ^ (E - e'))%Z).
  { rewrite <- Z.pow_add_r by lia. f_equal. lia. }
  assert (Hq0 : (0 <= q)%Z) by nia.
  assert (Hmb : (m' <= Z.pos b * (c * 2 ^ (E - e')))%Z).
  { rewrite Hm', Hsplit. nia. }
  cbn [xorb].
  apply (round_near_value c E); try lia.
  - destruct (Z.eq_dec m' (Z.pos b * (c * 2 ^ (E - e')))) as [Heq | Hne].
    + right. assert (q = (c * 2 ^ (E - e'))%Z) by nia. assert (r = 0%Z) by nia.
      subst r. split; [assumption |].
      unfold new_location, new_location_even, new_location_odd.
      now destruct (IntDef.Z.even (Z.pos b)).
    + left. nia.
  - apply (div_between (Z.pos a) (Z.pos b) q r e'); try lia.
Qed.


Lemma Qabs_zero_le x y : x == 0 -> 0 <= y -> Qabs x <= y.
Proof. intros -> H. exact H. Qed.

Lemma pow2Q_m46 : 2 ^ (-46) == 1 # 70368744177664.
Proof. reflexivity. Qed.

Lemma pow2Q_m52 : 2 ^ (-52) == 1 # 4503599627370496.
Proof. reflexivity. Qed.

(** A part of a whole, as a float, is within three units [2^-52] of the
    part. *)
Lemma truediv_near a b :
  (0 <= a <= b)%Z -> (0 < b)%Z ->
  exists q, truediv a b = Return q /\ between_0_and 1 q = true /\
            Qabs (float_value q - inject_Z a / inject_Z b) <= 3 * 2 ^ (-52).
Proof.
  intros Ha Hb. destruct (truediv_below a b Ha Hb) as (q & Hq & Hle).
  exists q. split; [exact Hq |]. split; [exact Hle |].
  unfold truediv in Hq.
  destruct (Z.eqb_spec b 0) as [| _]; [lia |].
  destruct (Z.eqb_spec a 0) as [-> | Ha0].
  { injection Hq as <-. cbn [float_value].
    apply Qabs_zero_le; [| rewrite pow2Q_m52; discriminate].
    unfold Qdiv. change (inject_Z 0) with 0. ring. }
  destruct (Z.ltb_spec a 0) as [| _]; [lia |].
  destruct (Z.ltb_spec b 0) as [| _]; [lia |].
  destruct a as [| pa | pa]; try lia. destruct b as [| pb | pb]; try lia.
  change (Z.to_pos (Z.abs (Z.pos pa))) with pa in Hq.
  change (Z.to_pos (Z.abs (Z.pos pb))) with pb in Hq.
  assert (Hd : (Zdigits2 4503599627370496 <= 53)%Z) by (cbn; lia).
  pose proof (div_near_value pa pb 4503599627370496 (-52) ltac:(lia) Hd ltac:(lia)
                ltac:(change (2 ^ (- -52))%Z with 4503599627370496%Z; lia)) as Hnear.
  destruct (SFdiv prec emax _ _) as [s | s | | s m e]; try discriminate Hq;
    injection Hq as <-; exact Hnear.
Qed.

(** A float of at most 1, times 100: within three units [2^-46] of the
    product. *)
Lemma mul_100_near f :
  between_0_and 1 f = true ->
  Qabs (float_value (mul_int f 100) - 100 * float_value f) <= 3 * 2 ^ (-46).
Proof.
  intros Hf. unfold mul_int. rewrite float_of_int_100.
  destruct f as [s | | | [|] m e]; try discriminate Hf.
  { cbn [SFmul float_value].
    apply Qabs_zero_le; [ring | rewrite pow2Q_m46; discriminate]. }
  assert (Hme : (e <= 0)%Z /\ (Z.pos m <= 2 ^ (- e))%Z).
  { unfold between_0_and in Hf. destruct (Z.leb_spec 0 e) as [He | He].
    - apply Z.leb_le in Hf.
      assert (0 < 2 ^ e)%Z by (apply Z.pow_pos_nonneg; lia).
      assert (e = 0%Z).
      { destruct (Z.eq_dec e 0); [assumption |].
        assert (2 ^ 1 <= 2 ^ e)%Z by (apply Z.pow_le_mono_r; lia).
        change (2 ^ 1)%Z with 2%Z in *. nia. }
      subst e. cbn in *. lia.
    - apply Z.leb_le in Hf. lia. }
  destruct Hme as [He Hm].
  cbn [SFmul xorb].
  assert (Hp : (0 < 2 ^ (- e))%Z) by (apply Z.pow_pos_nonneg; lia).
  assert (Hkk : (7036874417766400 * 2 ^ (-46 - (e + -46)) = 7036874417766400 * 2 ^ (- e))%Z).
  { do 2 f_equal. lia. }
  assert (Hd : (Zdigits2 7036874417766400 <= 53)%Z) by (cbn; lia).
  assert (Hval : inject_Z (Z.pos (m * 7036874417766400)) * 2 ^ (e + -46)
                 == 100 * float_value (S754_finite false m e)).
  { cbn [float_value]. rewrite Pos2Z.inj_mul, inject_Z_mult, pow2Q_add, pow2Q_m46.
    change (inject_Z 7036874417766400) with (7036874417766400 # 1).
    setoid_replace (7036874417766400 # 1) with (100 * (70368744177664 # 1))
      using relation Qeq by reflexivity.
    field. }
  apply (round_near_value 7036874417766400 (-46)); try lia; try exact Hd.
  - rewrite Hkk, Pos2Z.inj_mul.
    destruct (Z.eq_dec (Z.pos m) (2 ^ (- e))) as [Heq | Hne].
    + right. split; [now rewrite Heq, Z.mul_comm | reflexivity].
    + left. nia.
  - rewrite <- Hval. split; [apply Qle_refl |].
    apply Qmult_le_compat_r; [| apply Qlt_le_weak, pow2Q_pos].
    rewrite <- Zle_Qle. lia.
Qed.

(** The nearest int to [n / d] is within a half of it. *)
Lemma div_half_even_near n d :
  (0 <= n)%Z -> (0 < d)%Z ->
  (2 * Z.abs (div_half_even n d * d - n) <= d)%Z.
Proof.
  intros Hn Hd. unfold div_half_even.
  pose proof (Z.div_mod n d ltac:(lia)) as Hdm.
  pose proof (Z.mod_pos_bound n d Hd) as Hr.
  destruct (Z.compare_spec (2 * (n mod d)) d) as [Heq | Hlt | Hgt].
  - destruct (Z.even (n / d)); nia.
  - nia.
  - nia.
Qed.

(** The hundredths to which [round(x, 2)] rounds: within a half of a
    hundred times the float. *)
Lemma scaled_half_even_near m e :
  Qabs (inject_Z (scaled_half_even (m * 100) e)
        - 100 * float_value (S754_finite false m e)) <= 1 # 2.
Proof.
  unfold scaled_half_even. cbn [float_value].
  destruct (Z.leb_spec 0 e) as [He | He].
  - rewrite Pos2Z.inj_mul, !inject_Z_mult, pow2Q_inject by lia.
    change (inject_Z 100) with 100.
    apply Qabs_zero_le; [ring | discriminate].
  - assert (Hd : (0 < 2 ^ (- e))%Z) by (apply Z.pow_pos_nonneg; lia).
    pose proof (div_half_even_near (Z.pos (m * 100)) (2 ^ (- e)) ltac:(lia) Hd) as Hh.
    set (D := div_half_even (Z.pos (m * 100)) (2 ^ (- e))) in *.
    rewrite pow2Q_inv by lia. pose proof (inject_pos _ Hd) as HP.
    assert (Hlo : (Z.pos m * 100 * 2 <= (D * 2 + 1) * 2 ^ (- e))%Z) by (rewrite Pos2Z.inj_mul in Hh; lia).
    assert (Hhi : (D * 2 * 2 ^ (- e) <= Z.pos m * 100 * 2 + 2 ^ (- e))%Z) by (rewrite Pos2Z.inj_mul in Hh; lia).
    rewrite Zle_Qle in Hlo, Hhi.
    rewrite !inject_Z_mult, inject_Z_plus, !inject_Z_mult in Hlo.
    rewrite inject_Z_plus, !inject_Z_mult in Hhi.
    change (inject_Z 100) with 100 in *. change (inject_Z 2) with 2 in *.
    change (inject_Z 1) with 1 in *.
    set (P := inject_Z (2 ^ (- e))) in *. set (M := inject_Z (Z.pos m)) in *.
    set (Dq := inject_Z D) in *.
    apply Qabs_Qle_condition. split.
    + apply (Qmult_le_r _ _ (2 * P)); [lra |].
      setoid_replace ((Dq - 100 * (1 * M * / P)) * (2 * P))
        with (Dq * 2 * P - M * 100 * 2) using relation Qeq by (field; lra).
      lra.
    + apply (Qmult_le_r _ _ (2 * P)); [lra |].
      setoid_replace ((Dq - 100 * (1 * M * / P)) * (2 * P))
        with (Dq * 2 * P - M * 100 * 2) using relation Qeq by (field; lra).
      lra.
Qed.


(** [round(x, 2)] of a float of at most 100 is within half a hundredth
    (and three units [2^-46]) of the float. *)
Lemma round2_near f :
  between_0_and 100 f = true ->
  Qabs (float_value (round2 f) - float_value f) <= (1 # 200) + 3 * 2 ^ (-46).
Proof.
  intros Hf. destruct f as [s | | | [|] m e]; try discriminate Hf.
  { cbn [round2 float_value].
    apply Qabs_zero_le; [ring | rewrite pow2Q_m46; discriminate]. }
  unfold round2.
  assert (Hs : (0 <= scaled_half_even (m * 100) e <= 10000)%Z).
  { unfold scaled_half_even, between_0_and in *.
    destruct (Z.leb_spec 0 e) as [He | He]; apply Z.leb_le in Hf.
    - rewrite Pos2Z.inj_mul.
      assert (0 < 2 ^ e)%Z by (apply Z.pow_pos_nonneg; lia). nia.
    - assert (0 < 2 ^ (- e))%Z by (apply Z.pow_pos_nonneg; lia).
      apply div_half_even_below; [lia | lia |]. rewrite Pos2Z.inj_mul. nia. }
  pose proof (scaled_half_even_near m e) as Hh.
  apply Qabs_Qle_condition in Hh.
  set (x := float_value (S754_finite false m e)) in *.
  destruct (scaled_half_even (m * 100) e) as [| d | d]; [| | lia].
  - cbn [float_value]. change (inject_Z 0) with 0 in Hh.
    rewrite pow2Q_m46. apply Qabs_Qle_condition. split; lra.
  - assert (Hd : (Zdigits2 7036874417766400 <= 53)%Z) by (cbn; lia).
    pose proof (div_near_value d 100 7036874417766400 (-46) ltac:(lia) Hd ltac:(lia)
                  ltac:(change (2 ^ (- -46))%Z with 70368744177664%Z; lia)) as Hnear.
    apply Qabs_Qle_condition in Hnear. rewrite pow2Q_m46 in *.
    set (F := float_value (SFdiv prec emax (S754_finite false d 0)
                             (S754_finite false 100 0))) in *.
    change (inject_Z 100) with 100 in Hnear.
    assert (Hq : inject_Z (Z.pos d) / 100 == inject_Z (Z.pos d) * (1 # 100))
      by (field).
    rewrite Hq in Hnear.
    apply Qabs_Qle_condition. split; lra.
Qed.

(** A part of a whole as a percentage with two decimals, the way the
    handler computes it: within half a hundredth, and a billionth for
    the float arithmetic, of the exact percentage. *)
Lemma percentage_near a b :
  (0 <= a <= b)%Z -> (0 < b)%Z ->
  exists q, truediv a b = Return q /\
            Qabs (float_value (round2 (mul_int q 100))
                  - inject_Z (100 * a) / inject_Z b)
              <= (1 # 200) + (1 # 1000000000).
Proof.
  intros Ha Hb. destruct (truediv_near a b Ha Hb) as (q & Hq & Hle & Hnear).
  exists q. split; [exact Hq |].
  pose proof (mul_100_near q Hle) as Hmul.
  pose proof (round2_near _ (mul_100_below q Hle)) as Hround.
  apply Qabs_Qle_condition in Hnear, Hmul, Hround.
  rewrite pow2Q_m46 in *. rewrite pow2Q_m52 in *.
  assert (Hexact : inject_Z (100 * a) / inject_Z b == 100 * (inject_Z a / inject_Z b)).
  { rewrite inject_Z_mult. change (inject_Z 100) with 100.
    pose proof (inject_pos _ Hb). field. lra. }
  rewrite Hexact.
  set (F := float_value (round2 (mul_int q 100))) in *.
  set (X := float_value (mul_int q 100)) in *.
  set (Q1 := float_value q) in *.
  set (v := inject_Z a / inject_Z b) in *.
  apply Qabs_Qle_condition. split; lra.
Qed.

End FloatValueProps.

(** ** The cache hit ratio *)

Module CacheRatioProps.
Import Py Metrics MetricsSpec FloatSpec FloatValueSpec PyProps FloatProps MetricsProps.
Import MetricsExactProps MetricsRangeProps FloatValueProps.
Import QArith Qabs.
Local Open Scope Z_scope.

(** [C8] When the queries answer, with the block counters [hits] and
    [reads] (neither negative), the collector responds with the ratio
    [hits / (hits + reads) * 100], rounded to two decimals for the
    report.  With both counters zero it reports the float 100.0; with 9
    hits and 1 read it reports 90.0, with 1 hit and 2 reads 33.33, with 2
    hits and 1 read 66.67; with hits only it reports 100.0 and with reads
    only 0.0.  Whatever the counters, the reported ratio is a float from
    0 to 100, and when their sum is positive it is, as a number, within
    0.005 (half of the second decimal, for [round(.., 2)]) and a
    billionth (for the float arithmetic) of the exact
    [100 * hits / (hits + reads)]. *)
Theorem cache_hit_ratio_formula
    (env : Env) (ci : conn_info_row) (ts : txn_stats_row) (hits reads : Z) :
  answers env ci ts ->
  blks_hit ts = Some hits ->
  blks_read ts = Some reads ->
  0 <= hits ->
  0 <= reads ->
  exists r,
    get_metrics env = Responds r /\
    (hits = 0 /\ reads = 0 ->
     cache_hit_ratio r = S754_finite false 7036874417766400 (-46)) /\
    (hits = 9 /\ reads = 1 ->
     cache_hit_ratio r = S754_finite false 6333186975989760 (-46)) /\
    (hits = 1 /\ reads = 2 ->
     cache_hit_ratio r = S754_finite false 4690780486883082 (-47)) /\
    (hits = 2 /\ reads = 1 ->
     cache_hit_ratio r = S754_finite false 4691484174324859 (-46)) /\
    (0 < hits /\ reads = 0 ->
     cache_hit_ratio r = S754_finite false 7036874417766400 (-46)) /\
    (hits = 0 /\ 0 < reads -> cache_hit_ratio r = S754_zero false) /\
    between_0_and 100 (cache_hit_ratio r) = true /\
    (0 < hits + reads ->
     (Qabs (float_value (cache_hit_ratio r)
            - inject_Z (100 * hits) / inject_Z (hits + reads))
      <= (1 # 200) + (1 # 1000000000))%Q) /\
    (0 < hits + reads ->
     exists q,
       truediv hits (hits + reads) = Return q /\
       cache_hit_ratio_of reads hits = Return (NFloat (mul_int q 100)) /\
       cache_hit_ratio r = round2 (mul_int q 100)).
Proof.
  intros Hans Hh Hr Hh0 Hr0.
  destruct (get_metrics_responds _ _ _ Hans) as [r Hresp].
  exists r. split; [exact Hresp |].
  destruct Hans as (_ & _ & Hts & _). apply metrics_responds in Hresp.
  apply try_body_inv in Hresp
    as (ci' & ts' & usage & ratio & _ & Hts' & Hratio & _ & Hcr & _).
  rewrite Hts in Hts'. injection Hts' as <-.
  rewrite Hh, Hr, !int_or_zero_Some in Hratio.
  assert (Hformula : 0 < hits + reads ->
            exists q,
              truediv hits (hits + reads) = Return q /\
              cache_hit_ratio_of reads hits = Return (NFloat (mul_int q 100)) /\
              cache_hit_ratio r = round2 (mul_int q 100)).
  { intros Hpos. rewrite Hratio. unfold cache_hit_ratio_of in Hratio |- *.
    destruct (Z.ltb_spec 0 (reads + hits)); [| lia].
    rewrite (Z.add_comm hits reads).
    apply bind_Return in Hratio as (q & Hq & Hratio). injection Hratio as <-.
    exists q. rewrite Hq. cbn [bind]. rewrite Hcr. auto. }
  repeat apply conj.
  - intros [-> ->]. cbn in Hratio. injection Hratio as <-.
    rewrite Hcr. reflexivity.
  - intros [-> ->]. destruct Hformula as (q & Hq & _ & ->); [lia |].
    cbn in Hq. injection Hq as <-. reflexivity.
  - intros [-> ->]. destruct Hformula as (q & Hq & _ & ->); [lia |].
    cbn in Hq. injection Hq as <-. reflexivity.
  - intros [-> ->]. destruct Hformula as (q & Hq & _ & ->); [lia |].
    cbn in Hq. injection Hq as <-. reflexivity.
  - intros [Hpos ->]. destruct Hformula as (q & Hq & _ & ->); [lia |].
    rewrite Z.add_0_r, (truediv_self hits Hpos) in Hq. injection Hq as <-.
    reflexivity.
  - intros [-> Hpos]. destruct Hformula as (q & Hq & _ & ->); [lia |].
    rewrite truediv_zero in Hq by lia. injection Hq as <-.
    destruct (Z.ltb_spec (0 + reads) 0); [lia | reflexivity].
  - destruct (Z.eq_dec (hits + reads) 0) as [Hz | Hnz].
    + assert (hits = 0 /\ reads = 0) as [-> ->] by lia.
      cbn in Hratio. injection Hratio as <-. rewrite Hcr. reflexivity.
    + destruct Hformula as (q & Hq & _ & ->); [lia |].
      destruct (percentage_below hits (hits + reads)) as (q' & Hq' & Hle); [lia | lia |].
      rewrite Hq in Hq'. injection Hq' as <-. exact Hle.
  - intros Hpos. destruct Hformula as (q & Hq & _ & ->); [exact Hpos |].
    destruct (percentage_near hits (hits + reads)) as (q' & Hq' & Hnear); [lia | lia |].
    rewrite Hq in Hq'. injection Hq' as <-. exact Hnear.
  - exact Hformula.
Qed.

Lemma cache_hit_ratio_formula_witness :
  exists r,
    get_metrics (Samples.metrics_env (Some 5) (Some 20) (Some 1) (Some 9)) = Responds r /\
    cache_hit_ratio r = S754_finite false 6333186975989760 (-46) /\
    between_0_and 100 (cache_hit_ratio r) = true /\
    (Qabs (float_value (cache_hit_ratio r) - inject_Z (100 * 9) / inject_Z (9 + 1))
     <= (1 # 200) + (1 # 1000000000))%Q.
Proof.
  destruct (cache_hit_ratio_formula
              (Samples.metrics_env (Some 5) (Some 20) (Some 1) (Some 9))
              {| row_active_connections := Some 5; row_max_connections := Some 20 |}
              {| committed := Some 10; rolled_back := Some 1;
                 blks_read := Some 1; blks_hit := Some 9 |}
              9 1)
    as (r & Hr & _ & H90 & _ & _ & _ & _ & Hrange & Hnear & _).
  - apply sample_answers; cbn; lia.
  - reflexivity.
  - reflexivity.
  - lia.
  - lia.
  - exists r. split; [exact Hr |]. split; [apply H90; split; reflexivity |].
    split; [exact Hrange | apply Hnear; lia].
Defined.

End CacheRatioProps.
